(** * MoMo finance agent: message parser and ledger aggregator

    A shallow embedding of [momo_agent/parser.py],
    [momo_agent/analyzer.py], [momo_agent/tools.py] and the tool
    dispatch of [scripts/agent_cli.py], followed by the properties of the
    extraction-and-aggregation core and of the tools built on it.

    Conventions of the embedding.
    - A Python [str] is a [string]; a character is a code point below 256.
    - [Optional[T]] and a pandas cell that may be missing (None, NaN, NaT)
      are [option T].
    - RWF amounts are exact integers ([Z]).  pandas keeps them in float64
      columns, which represent every integer below 2^53 exactly.
    - Timestamps are calendar date-times to the second, within the range
      pandas represents; [pd.to_datetime] then reads back what
      [isoformat] printed.
    - A raised exception is the [Raise] case of [result]. *)

From Stdlib Require Import ZArith List String Ascii Bool Lia.
From Stdlib Require Import Sorting Permutation OrdersEx.
Import ListNotations.

Local Open Scope string_scope.
Local Open Scope list_scope.
Local Open Scope Z_scope.

(** ** Python runtime: exceptions, results *)

Module Py.

Inductive exn : Set :=
| ValueError
| OverflowError
| KeyError.

Inductive result (A : Type) : Type :=
| Ok (a : A)
| Raise (e : exn).

Arguments Ok {A} a.
Arguments Raise {A} e.

Definition bind {A B : Type} (m : result A) (f : A -> result B) : result B :=
  match m with
  | Ok a => f a
  | Raise e => Raise e
  end.

(** Truthiness of an optional string: [None] and [""] are falsy. *)
Definition truthy (x : option string) : bool :=
  match x with
  | Some s => negb (String.eqb s "")
  | None => false
  end.

End Py.

Import Py.

Notation "x <- m ;; f" := (Py.bind m (fun x => f))
  (at level 61, m at next level, right associativity).

(** ** Calendar values *)

Module Cal.

(** [datetime.datetime] without sub-second part and without zone. *)
Record datetime : Set := mkdt {
  dt_year : Z; dt_month : Z; dt_day : Z;
  dt_hour : Z; dt_minute : Z; dt_second : Z
}.

Definition is_leap (y : Z) : bool :=
  ((y mod 4 =? 0) && negb (y mod 100 =? 0)) || (y mod 400 =? 0).

Definition days_in_month (y m : Z) : Z :=
  if m =? 2 then (if is_leap y then 29 else 28)
  else if (m =? 4) || (m =? 6) || (m =? 9) || (m =? 11) then 30
  else 31.

(** What the [datetime] constructor accepts. *)
Definition valid_datetime (t : datetime) : bool :=
  (1 <=? dt_year t) && (dt_year t <=? 9999) &&
  (1 <=? dt_month t) && (dt_month t <=? 12) &&
  (1 <=? dt_day t) && (dt_day t <=? days_in_month (dt_year t) (dt_month t)) &&
  (0 <=? dt_hour t) && (dt_hour t <? 24) &&
  (0 <=? dt_minute t) && (dt_minute t <? 60) &&
  (0 <=? dt_second t) && (dt_second t <? 60).

(** Days since 1970-01-01 of a proleptic Gregorian date. *)
Definition days_from_civil (y m d : Z) : Z :=
  let y' := if m <=? 2 then y - 1 else y in
  let era := y' / 400 in
  let yoe := y' - era * 400 in
  let mp := if 2 <? m then m - 3 else m + 9 in
  let doy := (153 * mp + 2) / 5 + d - 1 in
  let doe := yoe * 365 + yoe / 4 - yoe / 100 + doy in
  era * 146097 + doe - 719468.

(** The date of a day number. *)
Definition civil_from_days (z : Z) : Z * Z * Z :=
  let z' := z + 719468 in
  let era := z' / 146097 in
  let doe := z' - era * 146097 in
  let yoe := (doe - doe / 1460 + doe / 36524 - doe / 146096) / 365 in
  let y := yoe + era * 400 in
  let doy := doe - (365 * yoe + yoe / 4 - yoe / 100) in
  let mp := (5 * doy + 2) / 153 in
  let d := doy - (153 * mp + 2) / 5 + 1 in
  let m := if mp <? 10 then mp + 3 else mp - 9 in
  ((if m <=? 2 then y + 1 else y), m, d).

Definition unix_date (t : datetime) : Z :=
  days_from_civil (dt_year t) (dt_month t) (dt_day t).

(** Seconds since the epoch: the value timestamps are compared by. *)
Definition epoch_seconds (t : datetime) : Z :=
  unix_date t * 86400 + dt_hour t * 3600 + dt_minute t * 60 + dt_second t.

Definition dt_leb (a b : datetime) : bool :=
  epoch_seconds a <=? epoch_seconds b.

(** Monday = 0 ... Sunday = 6. *)
Definition weekday (day : Z) : Z := (day + 3) mod 7.

(** Decimal rendering, zero padded to [width] digits. *)
Definition digit_char (d : Z) : ascii :=
  ascii_of_nat (48 + Z.to_nat d).

Fixpoint pad_digits (width : nat) (n : Z) (acc : string) : string :=
  match width with
  | O => acc
  | S w => pad_digits w (n / 10) (String (digit_char (n mod 10)) acc)
  end.

Definition pad (width : nat) (n : Z) : string := pad_digits width n "".

(** [strftime("%Y-%m-%d")]. *)
Definition fmt_date (ymd : Z * Z * Z) : string :=
  let '(y, m, d) := ymd in
  (pad 4 y ++ "-" ++ pad 2 m ++ "-" ++ pad 2 d)%string.

End Cal.

Import Cal.

(** ** pandas operations used by the aggregator *)

Module Pd.

(** A group key: a string cell, a numeric cell, or a missing cell. *)
Inductive key : Set :=
| KStr (s : string)
| KNum (n : Z)
| KNaN.

(** Order in which sorted group keys and [sort_values] place the cells:
    values in their natural order, a missing key after every value. *)
Definition key_compare (a b : key) : comparison :=
  match a, b with
  | KNum x, KNum y => Z.compare x y
  | KNum _, _ => Lt
  | KStr _, KNum _ => Gt
  | KStr x, KStr y => String.compare x y
  | KStr _, KNaN => Lt
  | KNaN, KNaN => Eq
  | KNaN, _ => Gt
  end.

Definition key_eqb (a b : key) : bool :=
  match key_compare a b with Eq => true | _ => false end.

Definition key_leb (a b : key) : bool :=
  match key_compare a b with Gt => false | _ => true end.

Definition key_of_str (c : option string) : key :=
  match c with Some s => KStr s | None => KNaN end.

Definition key_of_num (c : option Z) : key :=
  match c with Some n => KNum n | None => KNaN end.

(** [Series.sum(skipna=True)]: missing cells are skipped, the empty sum
    is 0. *)
Fixpoint sum_skipna (col : list (option Z)) : Z :=
  match col with
  | [] => 0
  | Some v :: rest => v + sum_skipna rest
  | None :: rest => sum_skipna rest
  end.

(** [Series.where(cond, other)] on one cell. *)
Definition where_ (cond : bool) (cell : option Z) (other : Z) : option Z :=
  if cond then cell else Some other.

(** [Series.fillna(v)] on one cell. *)
Definition fillna {A : Type} (v : A) (cell : option A) : A :=
  match cell with Some x => x | None => v end.

(** The sorted distinct keys of a [groupby(..., sort=True)]. *)
Fixpoint insert_key {K : Type} (cmp : K -> K -> comparison) (k : K)
    (ks : list K) : list K :=
  match ks with
  | [] => [k]
  | x :: rest =>
      match cmp k x with
      | Lt => k :: ks
      | Eq => ks
      | Gt => x :: insert_key cmp k rest
      end
  end.

Definition group_keys {K : Type} (cmp : K -> K -> comparison) (col : list K)
  : list K :=
  fold_right (insert_key cmp) [] col.

(** A sort of short inputs as numpy's default kind performs it: by
    insertion, which leaves equal elements in their input order.  On
    longer inputs the default kind promises no order among equal
    elements. *)
Fixpoint insert_by {A : Type} (leb : A -> A -> bool) (x : A) (l : list A)
  : list A :=
  match l with
  | [] => [x]
  | y :: rest => if leb x y then x :: l else y :: insert_by leb x rest
  end.

Definition argsort {A : Type} (leb : A -> A -> bool) (l : list A) : list A :=
  fold_right (insert_by leb) [] l.

(** [sort_values(ascending=True)]. *)
Definition sort_values_asc {A : Type} (leb : A -> A -> bool) (l : list A)
  : list A :=
  argsort leb l.

(** [sort_values(ascending=False)]: pandas reverses the values, sorts
    them ascending and reverses the outcome. *)
Definition sort_values_desc {A : Type} (leb : A -> A -> bool) (l : list A)
  : list A :=
  rev (argsort leb (rev l)).

(** [head(n)]: the first [n] rows, or all but the last [-n] rows when
    [n] is negative. *)
Definition head {A : Type} (n : Z) (l : list A) : list A :=
  if 0 <=? n then firstn (Z.to_nat n) l
  else firstn (List.length l - Z.to_nat (- n))%nat l.

(** Weekly period anchored on Sunday ([to_period("W")]): the number of
    the Monday-to-Sunday week holding a day, and its first day. *)
Definition week_ordinal (day : Z) : Z := (day + 3) / 7.
Definition week_start (w : Z) : Z := 7 * w - 3.

(** [str] of a weekly period. *)
Definition week_str (w : Z) : string :=
  (fmt_date (civil_from_days (week_start w)) ++ "/" ++
   fmt_date (civil_from_days (week_start w + 6)))%string.

(** Monthly period ([to_period("M")]): months since January 1970. *)
Definition month_ordinal (t : datetime) : Z :=
  (dt_year t - 1970) * 12 + (dt_month t - 1).

(** [str] of a monthly period. *)
Definition month_str (o : Z) : string :=
  (pad 4 (1970 + o / 12) ++ "-" ++ pad 2 (o mod 12 + 1))%string.

(** [astype(str)] of a period cell: a missing period prints as "NaT". *)
Definition period_astype_str (f : Z -> string) (cell : option Z)
  : option string :=
  match cell with
  | Some o => Some (f o)
  | None => Some "NaT"
  end.

End Pd.

(** ** Characters and the string methods the parser calls *)

Module Str.

Definition code (c : ascii) : N := N_of_ascii c.

Definition in_range (lo hi : N) (c : ascii) : bool :=
  ((lo <=? code c) && (code c <=? hi))%N.

(** [\d]: the decimal digits (below 256 these are '0'..'9'). *)
Definition is_digit (c : ascii) : bool := in_range 48 57 c.

(** [str.isspace] and [\s] below 256. *)
Definition is_space (c : ascii) : bool :=
  in_range 9 13 c || in_range 28 32 c ||
  (code c =? 133)%N || (code c =? 160)%N.

Definition is_upper (c : ascii) : bool := in_range 65 90 c.
Definition is_lower (c : ascii) : bool := in_range 97 122 c.

(** [A-Za-z0-9]. *)
Definition is_alnum (c : ascii) : bool :=
  is_upper c || is_lower c || is_digit c.

(** [\w] below 256: alphanumeric in the Unicode sense, or underscore. *)
Definition is_word (c : ascii) : bool :=
  is_alnum c || (code c =? 95)%N ||
  (code c =? 170)%N || (code c =? 178)%N || (code c =? 179)%N ||
  (code c =? 181)%N || (code c =? 185)%N || (code c =? 186)%N ||
  in_range 188 190 c || in_range 192 214 c || in_range 216 246 c ||
  in_range 248 255 c.

(** Case folding of the patterns' literals, which are all ASCII. *)
Definition lower (c : ascii) : ascii :=
  if is_upper c then ascii_of_N (code c + 32) else c.

Definition mem (c : ascii) (set : string) : bool :=
  existsb (Ascii.eqb c) (list_ascii_of_string set).

(** [s.split()]: the maximal runs of non-blank characters. [word] is the
    run being read. *)
Fixpoint split_from (word s : string) : list string :=
  match s with
  | EmptyString => if String.eqb word "" then [] else [word]
  | String c rest =>
      if is_space c
      then (if String.eqb word "" then split_from "" rest
            else word :: split_from "" rest)
      else split_from (word ++ String c "")%string rest
  end.

Definition split (s : string) : list string := split_from "" s.

(** [sep.join(words)]. *)
Fixpoint join (sep : string) (words : list string) : string :=
  match words with
  | [] => ""
  | [w] => w
  | w :: rest => (w ++ sep ++ join sep rest)%string
  end.

(** [s.replace(",", "")]. *)
Fixpoint remove_char (x : ascii) (s : string) : string :=
  match s with
  | EmptyString => EmptyString
  | String c rest =>
      if Ascii.eqb c x then remove_char x rest
      else String c (remove_char x rest)
  end.

Fixpoint lstrip (set s : string) : string :=
  match s with
  | EmptyString => EmptyString
  | String c rest => if mem c set then lstrip set rest else s
  end.

Fixpoint rstrip (set s : string) : string :=
  match s with
  | EmptyString => EmptyString
  | String c rest =>
      match rstrip set rest with
      | EmptyString => if mem c set then EmptyString else String c EmptyString
      | t => String c t
      end
  end.

(** [s.strip(set)]. *)
Definition strip (set s : string) : string := rstrip set (lstrip set s).

End Str.

(** ** The regular expressions of [re], as a backtracking matcher *)

Module Re.

Inductive re : Type :=
| Eps
| Lit (c : ascii)                 (* a literal character *)
| Class (p : ascii -> bool)       (* a character class *)
| Cat (a b : re)                  (* a b *)
| Alt (a b : re)                  (* a|b *)
| Star (a : re)                   (* a*, greedy *)
| LazyStar (a : re)               (* a*?, lazy *)
| Group (a : re)                  (* (?P<name>a) *)
| WordB.                          (* \b *)

Definition Opt (a : re) : re := Alt a Eps.            (* a? *)
Definition Plus (a : re) : re := Cat a (Star a).       (* a+ *)
Definition LazyPlus (a : re) : re := Cat a (LazyStar a). (* a+? *)

Fixpoint Rep (n : nat) (a : re) : re :=                (* a{n} *)
  match n with
  | O => Eps
  | S n' => Cat a (Rep n' a)
  end.

Definition AtLeast (n : nat) (a : re) : re := Cat (Rep n a) (Star a). (* a{n,} *)

Fixpoint Word (s : string) : re :=                     (* literal text *)
  match s with
  | EmptyString => Eps
  | String c rest => Cat (Lit c) (Word rest)
  end.

Fixpoint Seq (rs : list re) : re :=
  match rs with
  | [] => Eps
  | [r] => r
  | r :: rest => Cat r (Seq rest)
  end.

(** A compiled pattern: the expression and the IGNORECASE flag. *)
Record pattern : Type := compile { expr : re; ignorecase : bool }.

Definition lit_matches (ic : bool) (c x : ascii) : bool :=
  if ic then Ascii.eqb (Str.lower c) (Str.lower x) else Ascii.eqb c x.

Definition word_opt (c : option ascii) : bool :=
  match c with Some x => Str.is_word x | None => false end.

Definition hd_opt (s : string) : option ascii :=
  match s with String c _ => Some c | EmptyString => None end.

Definition or_else {R : Type} (a b : option R) : option R :=
  match a with Some v => Some v | None => b end.

(** Continuations of the matcher: what is left of the input, the
    character before it, and the text of the named group so far. *)
Definition cont (R : Type) : Type :=
  option ascii -> string -> option string -> option R.

(** Greedy repetition of [step]: one more round first, then the rest of
    the pattern.  A round has to consume input, so [String.length s]
    rounds of fuel are never used up. *)
Fixpoint star_loop {R : Type}
    (step : option ascii -> string -> option string -> cont R -> option R)
    (k : cont R) (fuel : nat) (prev : option ascii) (s : string)
    (g : option string) {struct fuel} : option R :=
  match fuel with
  | O => k prev s g
  | S fuel' =>
      or_else
        (step prev s g
           (fun p' s' g' =>
              if (String.length s' <? String.length s)%nat
              then star_loop step k fuel' p' s' g' else None))
        (k prev s g)
  end.

(** Lazy repetition: the rest of the pattern first, then one more round. *)
Fixpoint lazy_loop {R : Type}
    (step : option ascii -> string -> option string -> cont R -> option R)
    (k : cont R) (fuel : nat) (prev : option ascii) (s : string)
    (g : option string) {struct fuel} : option R :=
  match fuel with
  | O => k prev s g
  | S fuel' =>
      or_else
        (k prev s g)
        (step prev s g
           (fun p' s' g' =>
              if (String.length s' <? String.length s)%nat
              then lazy_loop step k fuel' p' s' g' else None))
  end.

(** [run ic r prev s g k]: match [r] at the front of [s], where [prev] is
    the character before [s] and [g] the text of the named group so far;
    [k] continues with what is left.  Alternatives are tried in the
    order of [re]: left branch first, greedy repetition longest first,
    lazy repetition shortest first; the first success is the answer. *)
Fixpoint run {R : Type} (ic : bool) (r : re) (prev : option ascii)
    (s : string) (g : option string) (k : cont R) {struct r} : option R :=
  match r with
  | Eps => k prev s g
  | Lit c =>
      match s with
      | String x rest => if lit_matches ic c x then k (Some x) rest g else None
      | EmptyString => None
      end
  | Class p =>
      match s with
      | String x rest => if p x then k (Some x) rest g else None
      | EmptyString => None
      end
  | Cat a b => run ic a prev s g (fun p' s' g' => run ic b p' s' g' k)
  | Alt a b => or_else (run ic a prev s g k) (run ic b prev s g k)
  | Star a =>
      star_loop (fun p' s' g' k' => run ic a p' s' g' k') k
        (String.length s) prev s g
  | LazyStar a =>
      lazy_loop (fun p' s' g' k' => run ic a p' s' g' k') k
        (String.length s) prev s g
  | Group a =>
      run ic a prev s g
        (fun p' s' _ =>
           k p' s'
             (Some (substring 0 (String.length s - String.length s') s)))
  | WordB =>
      if xorb (word_opt prev) (word_opt (hd_opt s)) then k prev s g else None
  end.

(** The character before what a greedy run over the class [p] leaves. *)
Fixpoint last_of (p : ascii -> bool) (prev : option ascii) (s : string)
  : option ascii :=
  match s with
  | EmptyString => prev
  | String c rest => if p c then last_of p (Some c) rest else prev
  end.

(** A match object, reduced to what the parser reads from it. *)
Record Match : Set := mkMatch { group : option string }.

(** The end of a pattern: the match object with the group read so far. *)
Definition finish : cont Match := fun _ _ g => Some (mkMatch g).

Definition match_at (p : pattern) (prev : option ascii) (s : string)
  : option Match :=
  run (ignorecase p) (expr p) prev s None finish.

(** [pattern.search(s)]: the match at the leftmost position that has one. *)
Fixpoint search_from (p : pattern) (prev : option ascii) (s : string)
  : option Match :=
  match match_at p prev s with
  | Some m => Some m
  | None =>
      match s with
      | EmptyString => None
      | String c rest => search_from p (Some c) rest
      end
  end.

Definition search (p : pattern) (s : string) : option Match :=
  search_from p None s.

End Re.

(** ** [float] and [int] on decimal text *)

Module Num.

(** A non-negative binary64 value [m * 2^e], or infinity. *)
Inductive float : Set :=
| Finite (m e : Z)
| Inf.

(** floor (log2 (p / q)) for positive [p], [q]. *)
Definition floor_log2_ratio (p q : Z) : Z :=
  let d := Z.log2 p - Z.log2 q in
  let above :=
    if 0 <=? d then q * 2 ^ d <=? p else q <=? p * 2 ^ (- d) in
  if above then d else d - 1.

(** Round [p / q] to the nearest binary64, ties to even: 53 bits of
    significand, least exponent -1074, overflow from 2^1024 on. *)
Definition round_binary64 (p q : Z) : float :=
  if p =? 0 then Finite 0 0
  else
    let e := Z.max (floor_log2_ratio p q - 52) (-1074) in
    let num := if 0 <=? e then p else p * 2 ^ (- e) in
    let den := if 0 <=? e then q * 2 ^ e else q in
    let m := num / den in
    let r := num mod den in
    let m' :=
      if 2 * r <? den then m
      else if den <? 2 * r then m + 1
      else if Z.even m then m else m + 1 in
    if (0 <=? e) && (2 ^ 1024 <=? m' * 2 ^ e) then Inf else Finite m' e.

(** The digits of [s] read as a number, with how many there were;
    [None] when another character occurs. *)
Fixpoint read_digits (s : string) (acc : Z) (n : nat) : option (Z * nat) :=
  match s with
  | EmptyString => Some (acc, n)
  | String c rest =>
      if Str.is_digit c
      then read_digits rest (10 * acc + (Z.of_N (Str.code c) - 48)) (S n)
      else None
  end.

Fixpoint split_dot (s : string) : string * option string :=
  match s with
  | EmptyString => (EmptyString, None)
  | String c rest =>
      if Ascii.eqb c "."%char then (EmptyString, Some rest)
      else let '(a, b) := split_dot rest in (String c a, b)
  end.

(** [float(x)] for plain decimal text: digits with at most one point
    among them and at least one digit, which covers all the patterns'
    groups hold once the separators are removed.  Python reads more
    spellings (signs, exponents, blanks, underscores, "inf", "nan"); for
    those this function raises ValueError. *)
Definition py_float (x : string) : result float :=
  let '(ip, fp) := split_dot x in
  match read_digits ip 0 O, fp with
  | Some (i, a), None =>
      if (a =? 0)%nat then Raise ValueError else Ok (round_binary64 i 1)
  | Some (i, a), Some f =>
      match read_digits f i O with
      | Some (v, b) =>
          if (a + b =? 0)%nat then Raise ValueError
          else Ok (round_binary64 v (10 ^ Z.of_nat b))
      | None => Raise ValueError
      end
  | None, _ => Raise ValueError
  end.

(** [int(f)]: truncation; infinity raises OverflowError. *)
Definition py_int (f : float) : result Z :=
  match f with
  | Finite m e => Ok (if 0 <=? e then m * 2 ^ e else m / 2 ^ (- e))
  | Inf => Raise OverflowError
  end.

End Num.

(** ** momo_agent/parser.py *)

Module Parser.

Import Re.

Definition digit : re := Class Str.is_digit.
Definition space : re := Class Str.is_space.

(** [\d[\d,]*(?:\.\d+)?] *)
Definition number : re :=
  Seq [digit;
       Star (Class (fun c => Str.is_digit c || Ascii.eqb c ","%char));
       Opt (Cat (Lit "."%char) (Plus digit))].

(** [[: ]] *)
Definition sep : re := Class (fun c => Str.mem c ": ").

(** [(?P<amt>\d[\d,]*(?:\.\d+)?)\s*RWF], IGNORECASE *)
Definition _AMOUNT_RE : pattern :=
  compile (Seq [Group number; Star space; Word "RWF"]) true.

(** [Fee\s*[: ]\s*(?P<fee>\d[\d,]*(?:\.\d+)?)\s*RWF], IGNORECASE *)
Definition _FEE_RE : pattern :=
  compile (Seq [Word "Fee"; Star space; sep; Star space;
                Group number; Star space; Word "RWF"]) true.

(** [Balance\s*[: ]\s*(?P<bal>\d[\d,]*(?:\.\d+)?)\s*RWF], IGNORECASE *)
Definition _BAL_RE : pattern :=
  compile (Seq [Word "Balance"; Star space; sep; Star space;
                Group number; Star space; Word "RWF"]) true.

(** [(?P<dt>\d{4}-\d{2}-\d{2}\s+\d{2}:\d{2}:\d{2})] *)
Definition _DATETIME_RE : pattern :=
  compile (Group (Seq [Rep 4 digit; Lit "-"%char; Rep 2 digit; Lit "-"%char;
                       Rep 2 digit; Plus space;
                       Rep 2 digit; Lit ":"%char; Rep 2 digit; Lit ":"%char;
                       Rep 2 digit])) false.

(** [TxId\s*[: ]\s*(?P<txid>[A-Za-z0-9]+)], IGNORECASE *)
Definition _TXID_RE : pattern :=
  compile (Seq [Word "TxId"; Star space; sep; Star space;
                Group (Plus (Class Str.is_alnum))]) true.

Definition id_char (c : ascii) : bool := Str.is_alnum c || Ascii.eqb c "-"%char.

(** [FT\s*Id\s*[: ]\s*(?P<ftid>[A-Za-z0-9\-]+)], IGNORECASE *)
Definition _FTID_RE : pattern :=
  compile (Seq [Word "FT"; Star space; Word "Id"; Star space; sep; Star space;
                Group (Plus (Class id_char))]) true.

(** [ET\s*Id\s*[: ]\s*(?P<etid>[A-Za-z0-9\-]+)], IGNORECASE *)
Definition _ETID_RE : pattern :=
  compile (Seq [Word "ET"; Star space; Word "Id"; Star space; sep; Star space;
                Group (Plus (Class id_char))]) true.

(** [[A-Za-z0-9 &\-\.\']] *)
Definition name_char (c : ascii) : bool := Str.is_alnum c || Str.mem c " &-.'".

(** [\bto\s+(?P<name>[A-Za-z0-9 &\-\.\']+?)(?:\s*\(|\s+was\b|\s+with\b|\.|,)],
    IGNORECASE *)
Definition _TO_RE : pattern :=
  compile (Seq [WordB; Word "to"; Plus space;
                Group (LazyPlus (Class name_char));
                Alt (Cat (Star space) (Lit "("%char))
                  (Alt (Seq [Plus space; Word "was"; WordB])
                     (Alt (Seq [Plus space; Word "with"; WordB])
                        (Alt (Lit "."%char) (Lit ","%char))))]) true.

(** [\bfrom\s+(?P<name>[A-Za-z0-9 &\-\.\']+?)(?:\s*\(|\s+at\b|\.|,)],
    IGNORECASE *)
Definition _FROM_RE : pattern :=
  compile (Seq [WordB; Word "from"; Plus space;
                Group (LazyPlus (Class name_char));
                Alt (Cat (Star space) (Lit "("%char))
                  (Alt (Seq [Plus space; Word "at"; WordB])
                     (Alt (Lit "."%char) (Lit ","%char)))]) true.

(** [\((?P<msisdn>\d{6,})\)] *)
Definition _PHONE_RE : pattern :=
  compile (Seq [Lit "("%char; Group (AtLeast 6 digit); Lit ")"%char]) false.

(** [_to_int]: the only exception it handles is ValueError. *)
Definition _to_int (x : option string) : result (option Z) :=
  if negb (truthy x) then Ok None
  else
    let x := Str.remove_char ","%char (Pd.fillna "" x) in
    match Num.py_float x with
    | Ok f =>
        match Num.py_int f with
        | Ok n => Ok (Some n)
        | Raise ValueError => Ok None
        | Raise e => Raise e
        end
    | Raise ValueError => Ok None
    | Raise e => Raise e
    end.

(** The numbers written in [s], one per maximal run of digits. *)
Fixpoint digit_runs (s : string) (cur : option Z) : list Z :=
  match s with
  | EmptyString => match cur with Some v => [v] | None => [] end
  | String c rest =>
      if Str.is_digit c
      then digit_runs rest
             (Some (10 * Pd.fillna 0 cur + (Z.of_N (Str.code c) - 48)))
      else match cur with
           | Some v => v :: digit_runs rest None
           | None => digit_runs rest None
           end
  end.

(** [dateutil.parser.parse] on text of the shape [_DATETIME_RE] yields:
    year, month, day, hour, minute, second in this order; [None] stands
    for the exception raised when they do not form a date-time. *)
Definition dtparser_parse (s : string) : option datetime :=
  match digit_runs s None with
  | [y; mo; d; h; mi; se] =>
      let t := mkdt y mo d h mi se in
      if valid_datetime t then Some t else None
  | _ => None
  end.

Definition _parse_datetime (text : string) : option datetime :=
  match search _DATETIME_RE text with
  | Some m =>
      match group m with
      | Some g => dtparser_parse g
      | None => None
      end
  | None => None
  end.

Record ParsedTransaction : Set := mkPT {
  msg_id : Z;
  raw_type : string;
  timestamp : option datetime;
  direction : string;
  category : string;
  counterparty : option string;
  msisdn : option string;
  amount_rwf : option Z;
  fee_rwf : option Z;
  balance_rwf : option Z;
  txid : option string;
  ftid : option string;
  etid : option string;
  raw_sms : string
}.

Definition TYPE_MAP : list (string * (string * string)) :=
  [ ("sms_received_from_momo", ("in", "transfer"));
    ("sms_transfer_to_number", ("out", "transfer"));
    ("sms_payment_to_person", ("out", "transfer"));
    ("sms_payment_to_merchant", ("out", "merchant"));
    ("sms_cash_power", ("out", "utilities"));
    ("sms_cash_tx", ("unknown", "cash")) ].

(** [d.get(k, default)] *)
Fixpoint dict_get {V : Type} (d : list (string * V)) (k : string) (default : V)
  : V :=
  match d with
  | [] => default
  | (k', v) :: rest => if String.eqb k k' then v else dict_get rest k default
  end.

(** [m.group(name)] of an optional match, [None] without a match. *)
Definition group_of (m : option Match) : option string :=
  match m with
  | Some m => group m
  | None => None
  end.

(** [m.group("name").strip(" .,-")] *)
Definition name_of (m : Match) : option string :=
  option_map (Str.strip " .,-") (group m).

Definition parse_message (msg_id : Z) (raw_type sms : string)
  : result ParsedTransaction :=
  let sms_norm := Str.join " " (Str.split sms) in
  let '(direction, category) := dict_get TYPE_MAP raw_type ("unknown", "other") in
  amt <- match search _AMOUNT_RE sms_norm with
         | Some m => _to_int (group m)
         | None => Ok None
         end ;;
  fee <- match search _FEE_RE sms_norm with
         | Some m => _to_int (group m)
         | None => Ok None
         end ;;
  bal <- match search _BAL_RE sms_norm with
         | Some m => _to_int (group m)
         | None => Ok None
         end ;;
  let ts := _parse_datetime sms_norm in
  let txid := group_of (search _TXID_RE sms_norm) in
  let ftid := group_of (search _FTID_RE sms_norm) in
  let etid := group_of (search _ETID_RE sms_norm) in
  let counterparty :=
    if String.eqb direction "out" then
      match search _TO_RE sms_norm with
      | Some m_to => name_of m_to
      | None => None
      end
    else if String.eqb direction "in" then
      match search _FROM_RE sms_norm with
      | Some m_from => name_of m_from
      | None => None
      end
    else
      match search _TO_RE sms_norm, search _FROM_RE sms_norm with
      | Some m_to, _ => name_of m_to
      | None, Some m_from => name_of m_from
      | None, None => None
      end in
  let msisdn := group_of (search _PHONE_RE sms_norm) in
  Ok (mkPT msg_id raw_type ts direction category counterparty msisdn
        amt fee bal txid ftid etid sms).

End Parser.

(** ** momo_agent/analyzer.py *)

Module Analyzer.

Import Parser Pd.

(** A row of [self.df]: the columns of [ParsedTransaction.to_row] and the
    columns [__init__] derives.  [to_row] prints the timestamp with
    [isoformat] and [pd.to_datetime] reads it back; [pd.to_numeric]
    leaves integer amounts as they are. *)
Record Row : Set := mkRow {
  tx : ParsedTransaction;
  date : option (Z * Z * Z);
  month : option string;
  week : option string;
  year : option Z
}.

Record MoMoAnalyzer : Set := mkAnalyzer { df : list Row }.

Definition derive (t : ParsedTransaction) : Row :=
  let ts := timestamp t in
  mkRow t
    (option_map (fun d => (dt_year d, dt_month d, dt_day d)) ts)
    (period_astype_str month_str (option_map month_ordinal ts))
    (period_astype_str week_str
       (option_map (fun d => week_ordinal (unix_date d)) ts))
    (option_map dt_year ts).

(** [MoMoAnalyzer.__init__] *)
Definition init (frame : list ParsedTransaction) : MoMoAnalyzer :=
  mkAnalyzer (map derive frame).

(** [MoMoAnalyzer.from_json], from the decoded list of messages on. *)
Fixpoint parse_all (messages : list (Z * string * string))
  : result (list ParsedTransaction) :=
  match messages with
  | [] => Ok []
  | (id, ty, sms) :: rest =>
      pt <- parse_message id ty sms ;;
      pts <- parse_all rest ;;
      Ok (pt :: pts)
  end.

Definition from_json (messages : list (Z * string * string))
  : result MoMoAnalyzer :=
  rows <- parse_all messages ;;
  match rows with
  | [] => Raise KeyError   (* a frame of no rows has no "timestamp" column *)
  | _ => Ok (init rows)
  end.

Definition has_direction (d : string) (r : Row) : bool :=
  String.eqb (direction (tx r)) d.

(** [_split_income_expense] *)
Definition _split_income_expense (self : MoMoAnalyzer) : list Row * list Row :=
  (filter (has_direction "in") (df self),
   filter (has_direction "out") (df self)).

Record Summary : Set := mkSummary {
  total_in_rwf : Z;
  total_out_rwf : Z;
  total_fees_rwf : Z;
  net_rwf : Z;
  tx_count : Z
}.

(** [summary] *)
Definition summary (self : MoMoAnalyzer) : Summary :=
  let '(income, expense) := _split_income_expense self in
  let total_in := sum_skipna (map (fun r => amount_rwf (tx r)) income) in
  let total_out := sum_skipna (map (fun r => amount_rwf (tx r)) expense) in
  let total_fees := sum_skipna (map (fun r => fee_rwf (tx r)) (df self)) in
  let net := total_in - total_out - total_fees in
  mkSummary total_in total_out total_fees net (Z.of_nat (List.length (df self))).

(** The columns [period_summary] adds to its copy of the frame. *)
Definition income_amt (r : Row) : option Z :=
  where_ (has_direction "in" r) (amount_rwf (tx r)) 0.

Definition expense_amt (r : Row) : option Z :=
  where_ (has_direction "out" r) (amount_rwf (tx r)) 0.

Definition fee_amt (r : Row) : option Z :=
  Some (fillna 0 (fee_rwf (tx r))).

(** The cell of the column named [period]. *)
Definition period_key (period : string) (r : Row) : key :=
  if String.eqb period "week" then key_of_str (week r)
  else if String.eqb period "month" then key_of_str (month r)
  else key_of_num (year r).

Record PeriodRow : Set := mkPeriodRow {
  p_key : key;
  p_tx_count : Z;
  p_income_rwf : Z;
  p_expense_rwf : Z;
  p_fees_rwf : Z;
  p_net_rwf : Z
}.

(** One row of [groupby(period, dropna=False).agg(...)], with [net_rwf]. *)
Definition aggregate (period : string) (rows : list Row) (k : key)
  : PeriodRow :=
  let grp := filter (fun r => key_eqb (period_key period r) k) rows in
  let income := sum_skipna (map income_amt grp) in
  let expense := sum_skipna (map expense_amt grp) in
  let fees := sum_skipna (map fee_amt grp) in
  mkPeriodRow k (Z.of_nat (List.length grp)) income expense fees
    (income - expense - fees).

(** [period_summary] *)
Definition period_summary (self : MoMoAnalyzer) (period : string)
  : result (list PeriodRow) :=
  if negb (existsb (String.eqb period) ["week"; "month"; "year"])
  then Raise ValueError
  else
    let rows := df self in
    let keys := group_keys key_compare (map (period_key period) rows) in
    let out := map (aggregate period rows) keys in
    Ok (sort_values_asc (fun a b => key_leb (p_key a) (p_key b)) out).

(** A call of [period_summary] as a step on the analyzer object: the
    method works on [self.df.copy()] and assigns nothing to [self]. *)
Definition call_period_summary (self : MoMoAnalyzer) (period : string)
  : MoMoAnalyzer * result (list PeriodRow) :=
  (self, period_summary self period).

Record CounterpartyRow : Set := mkCounterpartyRow {
  c_counterparty : string;
  c_amount_rwf : Z
}.

(** The counterparty column after [fillna("Unknown")]. *)
Definition counterparty_label (r : Row) : string :=
  fillna "Unknown" (counterparty (tx r)).

(** [top_counterparties] *)
Definition top_counterparties (self : MoMoAnalyzer) (direction : string)
    (n : Z) : list CounterpartyRow :=
  let rows := filter (has_direction direction) (df self) in
  let names := group_keys String.compare (map counterparty_label rows) in
  let sums :=
    map (fun name =>
           mkCounterpartyRow name
             (sum_skipna
                (map (fun r => amount_rwf (tx r))
                   (filter (fun r => String.eqb (counterparty_label r) name)
                      rows))))
      names in
  head n
    (sort_values_desc (fun a b => c_amount_rwf a <=? c_amount_rwf b) sums).

(** Comparison of a timestamp cell with a bound; a missing value on
    either side compares false. *)
Definition cell_ge (cell bound : option datetime) : bool :=
  match cell, bound with
  | Some t, Some b => dt_leb b t
  | _, _ => false
  end.

Definition cell_le (cell bound : option datetime) : bool :=
  match cell, bound with
  | Some t, Some b => dt_leb t b
  | _, _ => false
  end.

Section FilterRange.

(** [pd.to_datetime] on one string: the parsed timestamp, NaT ([None]),
    or an exception. *)
Variable to_datetime : string -> result (option datetime).

(** [filter_range] *)
Definition filter_range (self : MoMoAnalyzer) (start end_ : option string)
  : result (list Row) :=
  let rows := df self in
  rows <- (if truthy start
           then start_dt <- to_datetime (fillna "" start) ;;
                Ok (filter (fun r => cell_ge (timestamp (tx r)) start_dt) rows)
           else Ok rows) ;;
  rows <- (if truthy end_
           then end_dt <- to_datetime (fillna "" end_) ;;
                Ok (filter (fun r => cell_le (timestamp (tx r)) end_dt) rows)
           else Ok rows) ;;
  Ok rows.

End FilterRange.

(** [transactions] *)
Definition transactions (self : MoMoAnalyzer) : list Row := df self.

Record CategoryRow : Set := mkCategoryRow {
  g_category : string;
  g_amount_rwf : Z
}.

(** [category_breakdown]; the category of a record is a string in every
    row, so [fillna("other")] finds no cell to fill. *)
Definition category_breakdown (self : MoMoAnalyzer) (direction : string)
  : list CategoryRow :=
  let rows := filter (has_direction direction) (df self) in
  let names := group_keys String.compare (map (fun r => category (tx r)) rows) in
  let sums :=
    map (fun name =>
           mkCategoryRow name
             (sum_skipna
                (map (fun r => amount_rwf (tx r))
                   (filter (fun r => String.eqb (category (tx r)) name)
                      rows))))
      names in
  sort_values_desc (fun a b => g_amount_rwf a <=? g_amount_rwf b) sums.

End Analyzer.

(** ** momo_agent/tools.py *)

Module Tools.

Import Parser Pd Analyzer.

Section MakeTools.

Variable to_datetime : string -> result (option datetime).

(** The analyzer [make_tools] closes over. *)
Variable analyzer : MoMoAnalyzer.

(** [get_overall_summary] *)
Definition get_overall_summary : Summary := summary analyzer.

(** [get_period_summary]; [MoMoAnalyzer(df)] derives the columns anew
    from the records of [df], and [to_dict(orient="records")] lists the
    rows in order. *)
Definition get_period_summary (period : string) (start end_ : option string)
  : result (list PeriodRow) :=
  df <- (if truthy start || truthy end_
         then filter_range to_datetime analyzer start end_
         else Ok (transactions analyzer)) ;;
  let tmp := init (map tx df) in
  period_summary tmp period.

(** [get_top_spend_counterparties] *)
Definition get_top_spend_counterparties (n : Z) : list CounterpartyRow :=
  top_counterparties analyzer "out" n.

(** [get_category_breakdown] *)
Definition get_category_breakdown : list CategoryRow :=
  category_breakdown analyzer "out".

End MakeTools.

End Tools.

(** ** scripts/agent_cli.py *)

Module Agent.

Import Pd.

(** What [_allowed_args_from_schema] reads of a tool schema: the name
    under "function" ([None] when there is none) and the keys of
    "properties" under "parameters" (none when either is missing). *)
Record Schema : Set := mkSchema {
  s_name : option string;
  s_properties : list string
}.

Definition name_eqb (a b : option string) : bool :=
  match a, b with
  | Some x, Some y => String.eqb x y
  | None, None => true
  | _, _ => false
  end.

(** [d[k] = v] on a dict kept as the list of its items: the value of a
    key that is present is replaced where it stands, a new key goes to
    the end. *)
Fixpoint dict_set {K V : Type} (eqb : K -> K -> bool) (d : list (K * V))
    (k : K) (v : V) : list (K * V) :=
  match d with
  | [] => [(k, v)]
  | (k', v') :: rest =>
      if eqb k k' then (k', v) :: rest else (k', v') :: dict_set eqb rest k v
  end.

(** [d.get(k)] *)
Fixpoint dict_find {K V : Type} (eqb : K -> K -> bool) (d : list (K * V))
    (k : K) : option V :=
  match d with
  | [] => None
  | (k', v) :: rest => if eqb k k' then Some v else dict_find eqb rest k
  end.

(** [_allowed_args_from_schema] *)
Definition _allowed_args_from_schema (tools_schema : list Schema)
  : list (option string * list string) :=
  fold_left
    (fun allowed t => dict_set name_eqb allowed (s_name t) (s_properties t))
    tools_schema [].

Section SafeToolCall.

(** Argument values and tool results, as the model sends and the tools
    return them, are left open. *)
Variables V D : Type.

(** What [_safe_tool_call] returns: the dict with "ok" false and the
    message "Unknown tool: fn"; the dict with "ok" true, "data" and
    "filtered_args"; or the dict with "ok" false, the exception under
    "error" and "filtered_args". *)
Inductive ToolOut : Type :=
| UnknownTool (fn : string)
| Data (data : D) (filtered_args : list (string * V))
| Error (e : exn) (filtered_args : list (string * V)).

(** [_safe_tool_call], on arguments that are a dict or [None]; a tool
    is a function of its keyword arguments. *)
Definition _safe_tool_call
    (tools_py : list (string * (list (string * V) -> result D)))
    (allowed_args : list (option string * list string))
    (fn : string) (args : option (list (string * V))) : ToolOut :=
  match dict_find String.eqb tools_py fn with
  | None => UnknownTool fn
  | Some tool =>
      let allowed := fillna [] (dict_find name_eqb allowed_args (Some fn)) in
      let safe_args :=
        filter (fun kv => existsb (String.eqb (fst kv)) allowed)
          (fillna [] args) in
      match tool safe_args with
      | Ok result => Data result safe_args
      | Raise e => Error e safe_args
      end
  end.

End SafeToolCall.

Arguments UnknownTool {V D} fn.
Arguments Data {V D} data filtered_args.
Arguments Error {V D} e filtered_args.
Arguments _safe_tool_call {V D} tools_py allowed_args fn args.

(** The properties the last schema named [fn] lists, none when no
    schema has that name. *)
Definition schema_properties (tools_schema : list Schema) (fn : string)
  : list string :=
  match find (fun t => name_eqb (Some fn) (s_name t)) (rev tools_schema) with
  | Some t => s_properties t
  | None => []
  end.

(** [_tool_schemas], names and property keys. *)
Definition _tool_schemas : list Schema :=
  [ mkSchema (Some "get_overall_summary") [];
    mkSchema (Some "get_period_summary") ["period"; "start"; "end"];
    mkSchema (Some "get_top_spend_counterparties") ["n"];
    mkSchema (Some "get_category_breakdown") [];
    mkSchema (Some "search_transactions")
      ["text"; "start"; "end"; "direction"; "category"; "limit"] ].

End Agent.

(** ** The specification's vocabulary *)

Module Spec.

Import Parser Pd Analyzer.

(** The sum over the records of what each one contributes. *)
Definition sum_over (f : Row -> Z) (rows : list Row) : Z :=
  fold_right (fun r acc => f r + acc) 0 rows.

(** What a record contributes to the total of direction [d]: its
    amount when it has that direction and an amount, else 0. *)
Definition amount_if (d : string) (r : Row) : Z :=
  if has_direction d r then fillna 0 (amount_rwf (tx r)) else 0.

(** What a record contributes to the fees: its fee, 0 when absent. *)
Definition fee_of (r : Row) : Z := fillna 0 (fee_rwf (tx r)).

(** A transaction with its direction, amount and fee replaced. *)
Definition with_money (d : string) (amount fee : Z) (t : ParsedTransaction)
  : ParsedTransaction :=
  mkPT (msg_id t) (raw_type t) (timestamp t) d (category t)
    (counterparty t) (msisdn t) (Some amount) (Some fee) (balance_rwf t)
    (txid t) (ftid t) (etid t) (raw_sms t).

(** A ledger row with another amount, all else unchanged. *)
Definition with_amount (a : option Z) (r : Row) : Row :=
  let t := tx r in
  mkRow
    (mkPT (msg_id t) (raw_type t) (timestamp t) (direction t) (category t)
       (counterparty t) (msisdn t) a (fee_rwf t) (balance_rwf t)
       (txid t) (ftid t) (etid t) (raw_sms t))
    (date r) (month r) (week r) (year r).

Definition valid_period (period : string) : Prop :=
  In period ["week"; "month"; "year"].

(** Whether a record falls in the group of key [k]. *)
Definition in_group (period : string) (k : key) (r : Row) : bool :=
  key_eqb (period_key period r) k.

(** The sum of the contributions of the records that satisfy [c]. *)
Definition sum_where (c : Row -> bool) (f : Row -> Z) (rows : list Row) : Z :=
  sum_over (fun r => if c r then f r else 0) rows.

(** Strictly ascending keys; a missing key is above every value. *)
Definition key_lt (a b : key) : Prop := key_compare a b = Lt.

(** The sum of the amounts paid in direction [d] to the counterparty
    labelled [name]. *)
Definition label_sum (d name : string) (rows : list Row) : Z :=
  sum_where
    (fun r => has_direction d r && String.eqb (counterparty_label r) name)
    (fun r => fillna 0 (amount_rwf (tx r))) rows.

Definition amount_ge (a b : CounterpartyRow) : Prop :=
  c_amount_rwf a >= c_amount_rwf b.

Fixpoint find_index {A : Type} (p : A -> bool) (l : list A) : option nat :=
  match l with
  | [] => None
  | x :: rest => if p x then Some O else option_map S (find_index p rest)
  end.

(** The position in the ledger of the first record of direction [d]
    whose counterparty label is [name]. *)
Definition first_seen (d name : string) (rows : list Row) : option nat :=
  find_index
    (fun r => has_direction d r && String.eqb (counterparty_label r) name)
    rows.

(** The tie rule of the specification: of two returned rows with equal
    amounts, the one whose counterparty is met first in the ledger
    comes first. *)
Definition ties_in_first_seen_order (self : MoMoAnalyzer) (d : string) (n : Z)
  : Prop :=
  forall (i j : nat) (a b : CounterpartyRow),
    (i < j)%nat ->
    nth_error (top_counterparties self d n) i = Some a ->
    nth_error (top_counterparties self d n) j = Some b ->
    c_amount_rwf a = c_amount_rwf b ->
    exists ia ib,
      first_seen d (c_counterparty a) (df self) = Some ia /\
      first_seen d (c_counterparty b) (df self) = Some ib /\
      (ia < ib)%nat.

(** Two payments of the same amount, to Zed and then to Amy. *)
Definition paid (id : Z) (name : string) (amount : Z) : ParsedTransaction :=
  mkPT id "sms_payment_to_person" None "out" "transfer" (Some name) None
    (Some amount) None None None None None "".

Definition zed_then_amy : list ParsedTransaction :=
  [paid 1 "Zed" 100; paid 2 "Amy" 100].

(** A bound of [filter_range] as the method reads it: not supplied
    ([None], also for the empty text), or supplied with the value
    [to_datetime] makes of it. *)
Definition parsed_bound (to_datetime : string -> result (option datetime))
    (b : option string) : result (option (option datetime)) :=
  if truthy b
  then d <- to_datetime (fillna "" b) ;; Ok (Some d)
  else Ok None.

(** The timestamp of [r] is at or after the lower bound. *)
Definition not_before (lo : option (option datetime)) (r : Row) : bool :=
  match lo with
  | None => true
  | Some b => cell_ge (timestamp (tx r)) b
  end.

(** The timestamp of [r] is at or before the upper bound. *)
Definition not_after (hi : option (option datetime)) (r : Row) : bool :=
  match hi with
  | None => true
  | Some b => cell_le (timestamp (tx r)) b
  end.

Definition within (lo hi : option (option datetime)) (r : Row) : bool :=
  not_before lo r && not_after hi r.

(** A reader of "YYYY-MM-DD HH:MM:SS" bounds, to try [filter_range] on. *)
Definition iso_to_datetime (s : string) : result (option datetime) :=
  match dtparser_parse s with
  | Some d => Ok (Some d)
  | None => Raise ValueError
  end.

(** The longest prefix of characters of a class, and what follows it. *)
Fixpoint take_while (p : ascii -> bool) (s : string) : string :=
  match s with
  | EmptyString => EmptyString
  | String c rest => if p c then String c (take_while p rest) else EmptyString
  end.

Fixpoint drop_while (p : ascii -> bool) (s : string) : string :=
  match s with
  | EmptyString => EmptyString
  | String c rest => if p c then drop_while p rest else s
  end.

(** [w] is a prefix of [s] up to the case of letters. *)
Fixpoint prefix_nocase (w s : string) : bool :=
  match w, s with
  | EmptyString, _ => true
  | String a w', String x s' =>
      Ascii.eqb (Str.lower a) (Str.lower x) && prefix_nocase w' s'
  | String _ _, EmptyString => false
  end.

Definition digit_or_comma (c : ascii) : bool :=
  Str.is_digit c || Ascii.eqb c ","%char.

(** The number written at the front of [s], with what follows it: a
    digit, the digits and thousands separators after it, and a decimal
    part (a point and digits) when there is one. *)
Definition number_at (s : string) : option (string * string) :=
  match s with
  | EmptyString => None
  | String d s1 =>
      if Str.is_digit d then
        let whole := String d (take_while digit_or_comma s1) in
        let s2 := drop_while digit_or_comma s1 in
        match s2 with
        | String c s2' =>
            if Ascii.eqb c "."%char &&
               negb (String.eqb (take_while Str.is_digit s2') "")
            then Some ((whole ++ "." ++ take_while Str.is_digit s2')%string,
                       drop_while Str.is_digit s2')
            else Some (whole, s2)
        | EmptyString => Some (whole, s2)
        end
      else None
  end.

(** The currency marker follows, after blanks if any. *)
Definition rwf_follows (s : string) : bool :=
  prefix_nocase "RWF" (drop_while Str.is_space s).

(** The number at the front of [s] when the currency marker follows it. *)
Definition amount_here (s : string) : option string :=
  match number_at s with
  | Some (token, rest) => if rwf_follows rest then Some token else None
  | None => None
  end.

(** The first amount of a text: the number followed by the currency
    marker at the leftmost position that has one.  What stands before
    that position is not looked at. *)
Fixpoint first_amount (s : string) : option string :=
  match amount_here s with
  | Some token => Some token
  | None =>
      match s with
      | EmptyString => None
      | String _ rest => first_amount rest
      end
  end.

(** What is left of the amount pattern once its number is read from the
    input [s0]: the marker, and the group's text taken off [s0]. *)
Definition after_number (s0 : string) : Re.cont Re.Match :=
  fun p' s' _ =>
    Re.run true (Re.Cat (Re.Star space) (Re.Word "RWF")) p' s'
      (Some (substring 0 (String.length s0 - String.length s') s0)) Re.finish.

(** The body with every run of blanks collapsed to one space. *)
Definition normalise (sms : string) : string := Str.join " " (Str.split sms).

Definition digit_free (s : string) : bool :=
  forallb (fun c => negb (Str.is_digit c)) (list_ascii_of_string s).

(** A body whose number has 310 digits. *)
Fixpoint zeros (n : nat) : string :=
  match n with
  | O => EmptyString
  | S n' => String "0"%char (zeros n')
  end.

Definition oversized_sms : string :=
  ("You have received 1" ++ zeros 309 ++ " RWF")%string.

(** The body of scenario A. *)
Definition scenario_a_sms : string :=
  "You have received 5,000 RWF from Jane Doe (250788123456) at 2025-01-10 14:30:00. TxId: 99001.".

(** Dates as (year, month, day) in calendar order. *)
Definition lex_ltb (a b : Z * Z * Z) : bool :=
  let '(y1, m1, d1) := a in
  let '(y2, m2, d2) := b in
  (y1 <? y2) || ((y1 =? y2) && ((m1 <? m2) || ((m1 =? m2) && (d1 <? d2)))).

(** The same day [400 * k] years later. *)
Definition shift_years (k : Z) (a : Z * Z * Z) : Z * Z * Z :=
  let '(y, m, d) := a in (y + 400 * k, m, d).

(** Month and day are in the range of a date. *)
Definition day_ok (a : Z * Z * Z) : bool :=
  let '(y, m, d) := a in
  (1 <=? m) && (m <=? 12) && (1 <=? d) && (d <=? 31).

(** The [n] weeks from day [z] on, [today] being the date of [z]: every
    seventh day is a date, and later than the one before. *)
Fixpoint mondays_ascend (n : nat) (z : Z) (today : Z * Z * Z) : bool :=
  match n with
  | O => day_ok today
  | S n' =>
      let next := civil_from_days (z + 7) in
      day_ok today && lex_ltb today next && mondays_ascend n' (z + 7) next
  end.

(** A message without a date in its text, as the parser returns it. *)
Definition undated : ParsedTransaction :=
  mkPT 7 "sms_cash_tx" None "unknown" "cash" None None (Some 300) None None
    None None None "Cash in 300 RWF".

(** ** Vocabulary for the patterns *)

(** Every character of [s] is of the class [p]. *)
Fixpoint all_chars (p : ascii -> bool) (s : string) : bool :=
  match s with
  | EmptyString => true
  | String c rest => p c && all_chars p rest
  end.

(** The expression holds a named group. *)
Fixpoint has_group (r : Re.re) : bool :=
  match r with
  | Re.Group _ => true
  | Re.Cat a b | Re.Alt a b => has_group a || has_group b
  | Re.Star a | Re.LazyStar a => has_group a
  | _ => false
  end.

(** Some literal or class of the expression takes the character [c]. *)
Fixpoint leaf_ok (ic : bool) (r : Re.re) (c : ascii) : bool :=
  match r with
  | Re.Lit x => Re.lit_matches ic x c
  | Re.Class p => p c
  | Re.Cat a b | Re.Alt a b => leaf_ok ic a c || leaf_ok ic b c
  | Re.Star a | Re.LazyStar a | Re.Group a => leaf_ok ic a c
  | _ => false
  end.

(** The least number of characters a match of the expression takes. *)
Fixpoint min_len (r : Re.re) : nat :=
  match r with
  | Re.Lit _ | Re.Class _ => 1
  | Re.Cat a b => min_len a + min_len b
  | Re.Alt a b => Nat.min (min_len a) (min_len b)
  | Re.Group a => min_len a
  | _ => 0
  end.

(** [t] can be the text of a group of the expression: long enough for
    the group's body and made of characters the body takes. *)
Fixpoint captured_ok (ic : bool) (r : Re.re) (t : string) : Prop :=
  match r with
  | Re.Group a =>
      all_chars (leaf_ok ic a) t = true /\ (min_len a <= String.length t)%nat
  | Re.Cat a b | Re.Alt a b => captured_ok ic a t \/ captured_ok ic b t
  | Re.Star a | Re.LazyStar a => captured_ok ic a t
  | _ => False
  end.

(** What a successful run of [r] on [s] hands to its continuation [k]:
    the rest of [s] after a prefix [tok] made of characters [r] takes,
    and either the group text it was given or the text of a group of
    [r], no longer than [tok]. *)
Definition consumes {R : Type} (ic : bool) (r : Re.re) (s : string)
    (g : option string) (k : Re.cont R) (v : R) : Prop :=
  exists tok rest p' g',
    s = (tok ++ rest)%string /\
    k p' rest g' = Some v /\
    all_chars (leaf_ok ic r) tok = true /\
    (min_len r <= String.length tok)%nat /\
    (g' = g \/
     exists t, g' = Some t /\ captured_ok ic r t /\
               (String.length t <= String.length tok)%nat).

(** [s'] is what is left of [s] after some prefix. *)
Definition suffix_of (s' s : string) : Prop :=
  exists pre, s = (pre ++ s')%string.

(** A word of [split]: not empty, no blank in it. *)
Definition word_ok (w : string) : Prop :=
  w <> "" /\ all_chars (fun c => negb (Str.is_space c)) w = true.

(** A record with another [raw_sms], all else unchanged. *)
Definition with_raw_sms (sms : string) (t : ParsedTransaction)
  : ParsedTransaction :=
  mkPT (msg_id t) (raw_type t) (timestamp t) (direction t) (category t)
    (counterparty t) (msisdn t) (amount_rwf t) (fee_rwf t) (balance_rwf t)
    (txid t) (ftid t) (etid t) sms.

(** The first and the last character of a text. *)
Definition first_char (s : string) : option ascii := Re.hd_opt s.

Fixpoint last_char (s : string) : option ascii :=
  match s with
  | EmptyString => None
  | String c EmptyString => Some c
  | String _ rest => last_char rest
  end.

(** The characters [strip(" .,-")] removes. *)
Definition trimmed_char (c : ascii) : bool := Str.mem c " .,-".

(** The sum over the rows of a table of what each one holds. *)
Definition total {A : Type} (f : A -> Z) (l : list A) : Z :=
  fold_right (fun x acc => f x + acc) 0 l.

(** The sum of the amounts of the records of direction [d] and category
    [name]. *)
Definition category_sum (d name : string) (rows : list Row) : Z :=
  sum_where
    (fun r => has_direction d r && String.eqb (category (tx r)) name)
    (fun r => fillna 0 (amount_rwf (tx r))) rows.

(** The number that digits write, thousands separators skipped. *)
Fixpoint decimal_value (acc : Z) (s : string) : Z :=
  match s with
  | EmptyString => acc
  | String c rest =>
      if Ascii.eqb c ","%char then decimal_value acc rest
      else decimal_value (10 * acc + (Z.of_N (Str.code c) - 48)) rest
  end.

(** A date-time written as YYYY-MM-DD HH:MM:SS. *)
Definition stamp (t : datetime) : string :=
  (fmt_date (dt_year t, dt_month t, dt_day t) ++ " " ++
   pad 2 (dt_hour t) ++ ":" ++ pad 2 (dt_minute t) ++ ":" ++
   pad 2 (dt_second t))%string.

(** The shape of such text: fourteen digits and five separators. *)
Definition stamp_text (y1 y2 y3 y4 m1 m2 d1 d2 h1 h2 i1 i2 s1 s2 : ascii)
  : string :=
  String y1 (String y2 (String y3 (String y4 (String "-"
  (String m1 (String m2 (String "-"
  (String d1 (String d2 (String " "
  (String h1 (String h2 (String ":"
  (String i1 (String i2 (String ":"
  (String s1 (String s2 "")))))))))))))))))).

(** What a message of the input file holds: identifier, type tag, body. *)
Definition message_of (t : ParsedTransaction) : Z * string * string :=
  (msg_id t, raw_type t, raw_sms t).

End Spec.

(** * Properties *)

Import Parser Pd Analyzer Spec.

(** ** Sums *)

Section Sums.

Lemma sum_skipna_app (a b : list (option Z)) :
  sum_skipna (a ++ b) = sum_skipna a + sum_skipna b.
Proof.
  induction a as [|[v|] a IH]; simpl; lia.
Qed.

Lemma sum_over_app (f : Row -> Z) (a b : list Row) :
  sum_over f (a ++ b) = sum_over f a + sum_over f b.
Proof.
  induction a as [|r a IH]; simpl; lia.
Qed.

(** Summing a column with missing cells skipped is summing the cells
    with 0 for a missing one. *)
Lemma sum_skipna_fillna (col : Row -> option Z) (rows : list Row) :
  sum_skipna (map col rows) = sum_over (fun r => fillna 0 (col r)) rows.
Proof.
  induction rows as [|r rows IH]; simpl; [reflexivity|].
  destruct (col r); simpl; lia.
Qed.

(** Selecting the rows of a direction and summing their amounts is
    summing each row's contribution to that direction. *)
Lemma sum_direction (d : string) (rows : list Row) :
  sum_skipna (map (fun r => amount_rwf (tx r)) (filter (has_direction d) rows))
  = sum_over (amount_if d) rows.
Proof.
  induction rows as [|r rows IH]; simpl; [reflexivity|].
  unfold amount_if at 1.
  destruct (has_direction d r); simpl; [|lia].
  destruct (amount_rwf (tx r)); simpl; lia.
Qed.

End Sums.


(** ** Records of unknown direction *)

Section UnknownDirection.

Variables (pre post : list Row) (r : Row).
Hypothesis Hdir : direction (tx r) = "unknown".

Lemma unknown_not_in : has_direction "in" r = false.
Proof. unfold has_direction. rewrite Hdir. reflexivity. Qed.

Lemma unknown_not_out : has_direction "out" r = false.
Proof. unfold has_direction. rewrite Hdir. reflexivity. Qed.

Lemma with_amount_income (a : option Z) :
  income_amt (with_amount a r) = income_amt r.
Proof.
  unfold income_amt, where_, has_direction. simpl. rewrite Hdir. reflexivity.
Qed.

Lemma with_amount_expense (a : option Z) :
  expense_amt (with_amount a r) = expense_amt r.
Proof.
  unfold expense_amt, where_, has_direction. simpl. rewrite Hdir. reflexivity.
Qed.

Lemma with_amount_aggregate (period : string) (a : option Z) (k : key) :
  aggregate period (pre ++ with_amount a r :: post) k
  = aggregate period (pre ++ r :: post) k.
Proof.
  unfold aggregate. rewrite !filter_app. simpl.
  change (period_key period (with_amount a r)) with (period_key period r).
  destruct (key_eqb (period_key period r) k); [|reflexivity].
  rewrite !map_app, !length_app. simpl.
  rewrite with_amount_income, with_amount_expense. reflexivity.
Qed.

End UnknownDirection.



(** ** Sorted distinct keys *)

Section GroupKeys.

Context {K : Type} (cmp : K -> K -> comparison).
Hypothesis cmp_eq : forall a b, cmp a b = Eq -> a = b.
Hypothesis cmp_antisym : forall a b, cmp b a = CompOpp (cmp a b).
Hypothesis cmp_trans : forall a b c, cmp a b = Lt -> cmp b c = Lt -> cmp a c = Lt.

Lemma insert_key_In (k x : K) (ks : list K) :
  In x (insert_key cmp k ks) <-> x = k \/ In x ks.
Proof.
  induction ks as [|y ks IH]; simpl.
  - intuition.
  - destruct (cmp k y) eqn:E; simpl.
    + apply cmp_eq in E. subst y. intuition.
    + intuition.
    + rewrite IH. intuition.
Qed.

Lemma insert_key_sorted (k : K) (ks : list K) :
  StronglySorted (fun a b => cmp a b = Lt) ks -> StronglySorted (fun a b => cmp a b = Lt) (insert_key cmp k ks).
Proof.
  induction 1 as [|y ks Hs IH Hy]; simpl.
  - repeat constructor.
  - destruct (cmp k y) eqn:E.
    + constructor; assumption.
    + constructor; [constructor; assumption|].
      constructor; [exact E|].
      apply Forall_forall. intros z Hz.
      rewrite Forall_forall in Hy. exact (cmp_trans _ _ _ E (Hy z Hz)).
    + constructor; [exact IH|].
      apply Forall_forall. intros z Hz.
      apply insert_key_In in Hz. destruct Hz as [->|Hz].
      * rewrite cmp_antisym, E. reflexivity.
      * rewrite Forall_forall in Hy. exact (Hy z Hz).
Qed.

Lemma group_keys_In (x : K) (col : list K) :
  In x (group_keys cmp col) <-> In x col.
Proof.
  induction col as [|y col IH]; simpl; [tauto|].
  rewrite insert_key_In, IH. intuition.
Qed.

Lemma group_keys_sorted (col : list K) :
  StronglySorted (fun a b => cmp a b = Lt) (group_keys cmp col).
Proof.
  induction col as [|y col IH]; simpl.
  - constructor.
  - apply insert_key_sorted. exact IH.
Qed.

End GroupKeys.

Section KeyOrder.

Lemma string_compare_refl (s : string) : String.compare s s = Eq.
Proof.
  pose proof (String.compare_antisym s s) as H.
  destruct (String.compare s s); simpl in H; congruence.
Qed.

Lemma string_compare_trans (a b c : string) :
  String.compare a b = Lt -> String.compare b c = Lt -> String.compare a c = Lt.
Proof.
  intros H1 H2.
  exact (RelationClasses.StrictOrder_Transitive (R := String_as_OT.lt) a b c H1 H2).
Qed.

Lemma string_compare_antisym (a b : string) :
  String.compare b a = CompOpp (String.compare a b).
Proof. apply String.compare_antisym. Qed.

Lemma key_compare_eq (a b : key) : key_compare a b = Eq -> a = b.
Proof.
  destruct a as [x|x|], b as [y|y|]; simpl; try discriminate; intros H.
  - apply String.compare_eq_iff in H. congruence.
  - apply Z.compare_eq in H. congruence.
  - reflexivity.
Qed.

Lemma key_compare_refl (a : key) : key_compare a a = Eq.
Proof.
  destruct a as [x|x|]; simpl.
  - apply string_compare_refl.
  - apply Z.compare_refl.
  - reflexivity.
Qed.

Lemma key_compare_antisym (a b : key) :
  key_compare b a = CompOpp (key_compare a b).
Proof.
  destruct a as [x|x|], b as [y|y|]; simpl; try reflexivity.
  - apply String.compare_antisym.
  - apply Z.compare_antisym.
Qed.

Lemma key_compare_trans (a b c : key) :
  key_compare a b = Lt -> key_compare b c = Lt -> key_compare a c = Lt.
Proof.
  destruct a as [x|x|], b as [y|y|], c as [z|z|]; simpl;
    try discriminate; try reflexivity.
  - apply string_compare_trans.
  - rewrite !Z.compare_lt_iff. lia.
Qed.

Lemma key_eqb_eq (a b : key) : key_eqb a b = true <-> a = b.
Proof.
  unfold key_eqb. split.
  - destruct (key_compare a b) eqn:E; try discriminate.
    intros _. apply key_compare_eq. exact E.
  - intros ->. rewrite key_compare_refl. reflexivity.
Qed.

(** Nothing is above a missing key. *)
Lemma key_lt_nan (k : key) : ~ key_lt KNaN k.
Proof. destruct k; discriminate. Qed.

End KeyOrder.

(** ** Insertion sort *)

Section Argsort.

Context {A : Type} (leb : A -> A -> bool).

(** Sorting leaves a sorted sequence as it is. *)
Lemma argsort_sorted (l : list A) :
  StronglySorted (fun a b => leb a b = true) l -> argsort leb l = l.
Proof.
  induction 1 as [|x l Hs IH Hx]; simpl; [reflexivity|].
  fold (argsort leb l). rewrite IH.
  destruct l as [|y l]; simpl; [reflexivity|].
  inversion Hx as [|? ? Hxy _]; subst. rewrite Hxy. reflexivity.
Qed.

End Argsort.

(** ** Period summaries *)

Section PeriodSummary.

Lemma valid_period_existsb (period : string) :
  existsb (String.eqb period) ["week"; "month"; "year"] = true
  <-> valid_period period.
Proof.
  unfold valid_period. rewrite existsb_exists. split.
  - intros (x & Hx & E). apply String.eqb_eq in E. subst x. exact Hx.
  - intros H. exists period. split; [exact H|apply String.eqb_refl].
Qed.

(** The outcome of [period_summary], case by case. *)
Lemma period_summary_cases (self : MoMoAnalyzer) (period : string) :
  (valid_period period /\
   period_summary self period
   = Ok (map (aggregate period (df self))
           (group_keys key_compare (map (period_key period) (df self)))))
  \/ (~ valid_period period /\ period_summary self period = Raise ValueError).
Proof.
  unfold period_summary.
  destruct (existsb (String.eqb period) ["week"; "month"; "year"]) eqn:E; simpl.
  - left. split; [apply valid_period_existsb; exact E|].
    f_equal. apply argsort_sorted.
    pose proof (group_keys_sorted key_compare key_compare_eq
                  key_compare_antisym key_compare_trans
                  (map (period_key period) (df self))) as Hs.
    induction Hs as [|k ks Hs IH Hk]; simpl; constructor.
    + exact IH.
    + apply Forall_forall. intros row Hrow.
      apply in_map_iff in Hrow. destruct Hrow as (k' & <- & Hk').
      rewrite Forall_forall in Hk. simpl. unfold key_leb.
      rewrite (Hk k' Hk'). reflexivity.
  - right. split; [|reflexivity].
    intros H. apply valid_period_existsb in H. congruence.
Qed.

Lemma fillna_income_amt (r : Row) : fillna 0 (income_amt r) = amount_if "in" r.
Proof.
  unfold income_amt, amount_if, where_.
  destruct (has_direction "in" r); reflexivity.
Qed.

Lemma fillna_expense_amt (r : Row) : fillna 0 (expense_amt r) = amount_if "out" r.
Proof.
  unfold expense_amt, amount_if, where_.
  destruct (has_direction "out" r); reflexivity.
Qed.

Lemma sum_skipna_filter (c : Row -> bool) (col : Row -> option Z) (rows : list Row) :
  sum_skipna (map col (filter c rows))
  = sum_where c (fun r => fillna 0 (col r)) rows.
Proof.
  unfold sum_where.
  induction rows as [|r rows IH]; simpl; [reflexivity|].
  destruct (c r); simpl; [|lia].
  destruct (col r); simpl; lia.
Qed.

Lemma length_filter_sum (c : Row -> bool) (rows : list Row) :
  Z.of_nat (List.length (filter c rows)) = sum_where c (fun _ => 1) rows.
Proof.
  unfold sum_where.
  induction rows as [|r rows IH]; simpl; [reflexivity|].
  destruct (c r); simpl List.length; lia.
Qed.

Lemma sum_where_ext (c : Row -> bool) (f g : Row -> Z) (rows : list Row) :
  (forall r, f r = g r) -> sum_where c f rows = sum_where c g rows.
Proof.
  intros H. unfold sum_where.
  induction rows as [|r rows IH]; simpl; [reflexivity|].
  rewrite IH, H. reflexivity.
Qed.

End PeriodSummary.




(** ** Period keys *)

Section PeriodKeys.

Lemma month_str_ordinal (ts : datetime) :
  1 <= dt_month ts <= 12 ->
  month_str (month_ordinal ts)
  = (pad 4 (dt_year ts) ++ "-" ++ pad 2 (dt_month ts))%string.
Proof.
  intros Hm. unfold month_str, month_ordinal.
  replace (1970 + ((dt_year ts - 1970) * 12 + (dt_month ts - 1)) / 12)
    with (dt_year ts)
    by (pose proof (Z.div_mod ((dt_year ts - 1970) * 12 + (dt_month ts - 1)) 12);
        pose proof (Z.mod_pos_bound ((dt_year ts - 1970) * 12 + (dt_month ts - 1)) 12);
        lia).
  replace (((dt_year ts - 1970) * 12 + (dt_month ts - 1)) mod 12 + 1)
    with (dt_month ts)
    by (pose proof (Z.div_mod ((dt_year ts - 1970) * 12 + (dt_month ts - 1)) 12);
        pose proof (Z.mod_pos_bound ((dt_year ts - 1970) * 12 + (dt_month ts - 1)) 12);
        lia).
  reflexivity.
Qed.

(** The week of a day starts on the Monday on or before it. *)
Lemma week_start_monday (day : Z) :
  let monday := week_start (week_ordinal day) in
  weekday monday = 0 /\ monday <= day <= monday + 6.
Proof.
  unfold week_start, week_ordinal, weekday.
  pose proof (Z.div_mod (day + 3) 7).
  pose proof (Z.mod_pos_bound (day + 3) 7).
  split; [|lia].
  replace (7 * ((day + 3) / 7) - 3 + 3) with (((day + 3) / 7) * 7) by lia.
  apply Z.mod_mul. lia.
Qed.

Lemma valid_datetime_month (ts : datetime) :
  valid_datetime ts = true -> 1 <= dt_month ts <= 12.
Proof.
  unfold valid_datetime. rewrite !andb_true_iff, !Z.leb_le. lia.
Qed.

End PeriodKeys.

(** ** Ranking of counterparties *)

Section Ranking.

Context {A : Type} (leb : A -> A -> bool).
Hypothesis leb_total : forall a b, leb a b = true \/ leb b a = true.
Hypothesis leb_trans : forall a b c, leb a b = true -> leb b c = true -> leb a c = true.

Lemma insert_by_perm (x : A) (l : list A) :
  Permutation (insert_by leb x l) (x :: l).
Proof.
  induction l as [|y l IH]; simpl; [reflexivity|].
  destruct (leb x y); [reflexivity|].
  rewrite IH. apply perm_swap.
Qed.

Lemma argsort_perm (l : list A) : Permutation (argsort leb l) l.
Proof.
  induction l as [|x l IH]; simpl; [reflexivity|].
  fold (argsort leb l). rewrite insert_by_perm, IH. reflexivity.
Qed.

Lemma insert_by_sorted (x : A) (l : list A) :
  StronglySorted (fun a b => leb a b = true) l -> StronglySorted (fun a b => leb a b = true) (insert_by leb x l).
Proof.
  induction 1 as [|y l Hs IH Hy]; simpl.
  - repeat constructor.
  - destruct (leb x y) eqn:E.
    + constructor; [constructor; assumption|].
      constructor; [exact E|].
      apply Forall_forall. intros z Hz. rewrite Forall_forall in Hy.
      exact (leb_trans _ _ _ E (Hy z Hz)).
    + constructor; [exact IH|].
      apply Forall_forall. intros z Hz.
      apply (Permutation_in _ (insert_by_perm x l)) in Hz.
      destruct Hz as [<-|Hz].
      * destruct (leb_total x y) as [H|H]; [congruence|exact H].
      * rewrite Forall_forall in Hy. exact (Hy z Hz).
Qed.

Lemma argsort_ascending (l : list A) : StronglySorted (fun a b => leb a b = true) (argsort leb l).
Proof.
  induction l as [|x l IH]; simpl; [constructor|].
  apply insert_by_sorted. exact IH.
Qed.

Lemma StronglySorted_app_one (R : A -> A -> Prop) (l : list A) (x : A) :
  StronglySorted R l -> Forall (fun y => R y x) l -> StronglySorted R (l ++ [x]).
Proof.
  induction 1 as [|y l Hs IH Hy]; intros Hall; simpl.
  - repeat constructor.
  - inversion Hall as [|? ? Hyx Hrest]; subst.
    constructor; [exact (IH Hrest)|].
    apply Forall_app. split; [exact Hy|]. constructor; [exact Hyx|constructor].
Qed.

Lemma StronglySorted_rev (R : A -> A -> Prop) (l : list A) :
  StronglySorted R l -> StronglySorted (fun a b => R b a) (rev l).
Proof.
  induction 1 as [|y l Hs IH Hy]; simpl; [constructor|].
  apply StronglySorted_app_one; [exact IH|].
  apply Forall_forall. intros z Hz. apply in_rev in Hz.
  rewrite Forall_forall in Hy. exact (Hy z Hz).
Qed.

Lemma StronglySorted_firstn (R : A -> A -> Prop) (n : nat) (l : list A) :
  StronglySorted R l -> StronglySorted R (firstn n l).
Proof.
  intros H. revert n.
  induction H as [|y l Hs IH Hy]; intros [|n]; simpl; try constructor.
  - apply IH.
  - apply Forall_forall. intros z Hz.
    rewrite Forall_forall in Hy. apply Hy.
    rewrite <- (firstn_skipn n l). apply in_or_app. left. exact Hz.
Qed.

(** The descending sort: a permutation in non-increasing order. *)
Lemma sort_values_desc_perm (l : list A) :
  Permutation (sort_values_desc leb l) l.
Proof.
  unfold sort_values_desc.
  rewrite <- Permutation_rev, argsort_perm, <- Permutation_rev. reflexivity.
Qed.

Lemma sort_values_desc_sorted (l : list A) :
  StronglySorted (fun a b => leb b a = true) (sort_values_desc leb l).
Proof.
  unfold sort_values_desc.
  apply (StronglySorted_rev (fun a b => leb a b = true)). apply argsort_ascending.
Qed.

End Ranking.

Section TopCounterparties.

Lemma filter_filter (f g : Row -> bool) (l : list Row) :
  filter f (filter g l) = filter (fun r => g r && f r) l.
Proof.
  induction l as [|r l IH]; simpl; [reflexivity|].
  destruct (g r); simpl; [|exact IH].
  destruct (f r); rewrite IH; reflexivity.
Qed.

Lemma sorted_lt_NoDup (names : list string) :
  StronglySorted (fun a b => String.compare a b = Lt) names -> NoDup names.
Proof.
  induction 1 as [|x l Hs IH Hx]; constructor; [|exact IH].
  intros Hin. rewrite Forall_forall in Hx. specialize (Hx x Hin).
  rewrite string_compare_refl in Hx. discriminate.
Qed.

Lemma NoDup_firstn (n : nat) (l : list string) : NoDup l -> NoDup (firstn n l).
Proof.
  intros H. revert n.
  induction H as [|x l Hx Hl IH]; intros [|n]; simpl; try constructor.
  - intros Hin. apply Hx.
    rewrite <- (firstn_skipn n l). apply in_or_app. left. exact Hin.
  - apply IH.
Qed.

End TopCounterparties.




(** ** Range filter *)

Section FilterRangeFacts.

Variable to_datetime : string -> result (option datetime).

(** [filter_range] is the filter by both bounds once they are read. *)
Lemma filter_range_within (self : MoMoAnalyzer) (start end_ : option string)
    (lo hi : option (option datetime)) :
  parsed_bound to_datetime start = Ok lo ->
  parsed_bound to_datetime end_ = Ok hi ->
  filter_range to_datetime self start end_
  = Ok (filter (within lo hi) (df self)).
Proof.
  unfold parsed_bound, filter_range. intros Hlo Hhi.
  destruct (truthy start).
  - destruct (to_datetime (fillna "" start)) as [sd|e]; [|discriminate].
    simpl in Hlo. injection Hlo as <-. simpl.
    destruct (truthy end_).
    + destruct (to_datetime (fillna "" end_)) as [ed|e]; [|discriminate].
      simpl in Hhi. injection Hhi as <-. simpl.
      rewrite filter_filter. reflexivity.
    + injection Hhi as <-. simpl. f_equal.
      apply filter_ext. intros r. unfold within. simpl.
      rewrite andb_true_r. reflexivity.
  - injection Hlo as <-. simpl.
    destruct (truthy end_).
    + destruct (to_datetime (fillna "" end_)) as [ed|e]; [|discriminate].
      simpl in Hhi. injection Hhi as <-. simpl. reflexivity.
    + injection Hhi as <-. simpl. f_equal.
      symmetry. apply forallb_filter_id. apply forallb_forall. reflexivity.
Qed.

Lemma cell_ge_spec (cell bound : option datetime) :
  cell_ge cell bound = true
  <-> exists t b, cell = Some t /\ bound = Some b /\
                  epoch_seconds b <= epoch_seconds t.
Proof.
  unfold cell_ge, dt_leb. split.
  - destruct cell as [t|], bound as [b|]; try discriminate.
    intros H. apply Z.leb_le in H. exists t, b. auto.
  - intros (t & b & -> & -> & H). apply Z.leb_le. exact H.
Qed.

Lemma cell_le_spec (cell bound : option datetime) :
  cell_le cell bound = true
  <-> exists t b, cell = Some t /\ bound = Some b /\
                  epoch_seconds t <= epoch_seconds b.
Proof.
  unfold cell_le, dt_leb. split.
  - destruct cell as [t|], bound as [b|]; try discriminate.
    intros H. apply Z.leb_le in H. exists t, b. auto.
  - intros (t & b & -> & -> & H). apply Z.leb_le. exact H.
Qed.

End FilterRangeFacts.

(** C6.  Once the supplied bounds are read by [pd.to_datetime],
    [filter_range] returns the records of the ledger, in ledger order,
    whose timestamp is at or after the start (when one is supplied) and
    at or before the end (when one is supplied), a timestamp equal to a
    bound included; a record without timestamp is left out whenever a
    bound is supplied, and without bounds the whole ledger comes back
    unchanged. *)
Theorem filter_range_subsequence :
  forall (to_datetime : string -> result (option datetime))
         (self : MoMoAnalyzer) (start end_ : option string)
         (lo hi : option (option datetime)),
    parsed_bound to_datetime start = Ok lo ->
    parsed_bound to_datetime end_ = Ok hi ->
    exists out,
      filter_range to_datetime self start end_ = Ok out /\
      out = filter (within lo hi) (df self) /\
      (forall r, In r out <->
         In r (df self) /\
         (forall b, lo = Some b ->
            exists t s, timestamp (tx r) = Some t /\ b = Some s /\
                        epoch_seconds s <= epoch_seconds t) /\
         (forall b, hi = Some b ->
            exists t e, timestamp (tx r) = Some t /\ b = Some e /\
                        epoch_seconds t <= epoch_seconds e)) /\
      (lo <> None \/ hi <> None ->
         forall r, In r out -> timestamp (tx r) <> None) /\
      (lo = None -> hi = None -> out = df self).
Proof.
  intros to_datetime self start end_ lo hi Hlo Hhi.
  exists (filter (within lo hi) (df self)).
  split; [apply filter_range_within; assumption|].
  split; [reflexivity|].
  assert (Hin : forall r, In r (filter (within lo hi) (df self)) <->
     In r (df self) /\
     (forall b, lo = Some b ->
        exists t s, timestamp (tx r) = Some t /\ b = Some s /\
                    epoch_seconds s <= epoch_seconds t) /\
     (forall b, hi = Some b ->
        exists t e, timestamp (tx r) = Some t /\ b = Some e /\
                    epoch_seconds t <= epoch_seconds e)).
  { intros r. rewrite filter_In. unfold within, not_before, not_after.
    rewrite andb_true_iff. split.
    - intros (Hr & H1 & H2). split; [exact Hr|]. split.
      + intros b ->. apply cell_ge_spec. exact H1.
      + intros b ->. apply cell_le_spec. exact H2.
    - intros (Hr & H1 & H2). split; [exact Hr|]. split.
      + destruct lo as [b|]; [|reflexivity].
        apply cell_ge_spec. apply H1. reflexivity.
      + destruct hi as [b|]; [|reflexivity].
        apply cell_le_spec. apply H2. reflexivity. }
  split; [exact Hin|]. split.
  - intros Hsup r Hr Hts. apply Hin in Hr. destruct Hr as (_ & H1 & H2).
    destruct lo as [b|].
    + destruct (H1 b eq_refl) as (t & s & Ht & _). congruence.
    + destruct hi as [b|].
      * destruct (H2 b eq_refl) as (t & s & Ht & _). congruence.
      * destruct Hsup; congruence.
  - intros -> ->. apply forallb_filter_id. apply forallb_forall. reflexivity.
Qed.

(** January 2025 out of a ledger with a dated and an undated message. *)
Lemma filter_range_subsequence_witness :
  let jan10 := mkPT 1 "sms_received_from_momo" (Some (mkdt 2025 1 10 14 30 0))
                 "in" "transfer" None None (Some 5000) None None None None None
                 "5000 RWF" in
  filter_range iso_to_datetime (init [jan10; undated])
    (Some "2025-01-01 00:00:00") (Some "2025-01-10 14:30:00")
  = Ok [derive jan10].
Proof.
  intros jan10.
  destruct (filter_range_subsequence iso_to_datetime (init [jan10; undated])
              (Some "2025-01-01 00:00:00") (Some "2025-01-10 14:30:00")
              (Some (Some (mkdt 2025 1 1 0 0 0)))
              (Some (Some (mkdt 2025 1 10 14 30 0)))
              eq_refl eq_refl) as (out & Hout & Hfilter & _).
  rewrite Hout, Hfilter. reflexivity.
Defined.

(** ** The parser on given messages *)

(** C9.  Scenario A: with a type tag that the table maps to (in,
    transfer), the message "You have received 5,000 RWF from Jane Doe
    (250788123456) at 2025-01-10 14:30:00. TxId: 99001." is parsed into
    amount 5000, counterparty "Jane Doe", subscriber number
    "250788123456", transaction id "99001" and timestamp
    2025-01-10T14:30:00. *)
Theorem scenario_a_received :
  forall (id : Z) (raw_type : string),
    dict_get TYPE_MAP raw_type ("unknown", "other") = ("in", "transfer") ->
    exists r,
      parse_message id raw_type scenario_a_sms = Ok r /\
      direction r = "in" /\ category r = "transfer" /\
      amount_rwf r = Some 5000 /\
      counterparty r = Some "Jane Doe" /\
      msisdn r = Some "250788123456" /\
      txid r = Some "99001" /\
      timestamp r = Some (mkdt 2025 1 10 14 30 0).
Proof.
  intros id raw_type Htype.
  unfold parse_message. rewrite Htype.
  eexists. split.
  - vm_compute. reflexivity.
  - simpl. repeat split; reflexivity.
Qed.

(** Scenario A under the tag of a received transfer. *)
Lemma scenario_a_received_witness :
  exists r,
    parse_message 1 "sms_received_from_momo" scenario_a_sms = Ok r /\
    amount_rwf r = Some 5000 /\ counterparty r = Some "Jane Doe".
Proof.
  destruct (scenario_a_received 1 "sms_received_from_momo" eq_refl)
    as (r & Hr & _ & _ & Ha & Hc & _).
  exists r. split; [exact Hr|]. split; [exact Ha|exact Hc].
Defined.

(** C2 at a message whose amount has 310 digits: [float] gives
    infinity, [int] raises OverflowError, [_to_int] handles ValueError
    only, and [parse_message] raises instead of returning a record. *)
Theorem parse_message_overflow :
  parse_message 1 "sms_received_from_momo" oversized_sms = Raise OverflowError.
Proof. vm_compute. reflexivity. Qed.

(** ** The amount pattern *)

Section StringFacts.

Lemma append_assoc (a b c : string) :
  ((a ++ b) ++ c)%string = (a ++ (b ++ c))%string.
Proof.
  induction a as [|x a IH]; simpl; [reflexivity|]. rewrite IH. reflexivity.
Qed.

Lemma length_append (a b : string) :
  String.length (a ++ b) = (String.length a + String.length b)%nat.
Proof.
  induction a as [|x a IH]; simpl; [reflexivity|]. rewrite IH. reflexivity.
Qed.

Lemma substring_prefix (a b : string) :
  substring 0 (String.length a) (a ++ b) = a.
Proof.
  induction a as [|x a IH]; simpl.
  - destruct b; reflexivity.
  - rewrite IH. reflexivity.
Qed.

(** The text consumed between [a ++ b] and [b] is [a]. *)
Lemma consumed_prefix (a b : string) :
  substring 0 (String.length (a ++ b) - String.length b) (a ++ b) = a.
Proof.
  rewrite length_append.
  replace (String.length a + String.length b - String.length b)%nat
    with (String.length a) by lia.
  apply substring_prefix.
Qed.

Lemma take_drop_while (p : ascii -> bool) (s : string) :
  (take_while p s ++ drop_while p s)%string = s.
Proof.
  induction s as [|c s IH]; simpl; [reflexivity|].
  destruct (p c); simpl; [rewrite IH|]; reflexivity.
Qed.

Lemma length_drop_while (p : ascii -> bool) (s : string) :
  (String.length (drop_while p s) <= String.length s)%nat.
Proof.
  induction s as [|c s IH]; simpl; [lia|].
  destruct (p c); simpl; lia.
Qed.

End StringFacts.

Section Matcher.

Context {R : Type}.

Lemma or_else_none_r (a : option R) : Re.or_else a None = a.
Proof. destruct a; reflexivity. Qed.

(** A greedy run over a character class, when the rest of the pattern
    cannot start with a character of the class: the whole run is taken. *)
Lemma star_class (ic : bool) (p : ascii -> bool) (k : Re.cont R) :
  (forall prev c rest g, p c = true -> k prev (String c rest) g = None) ->
  forall fuel prev s g,
    (String.length s <= fuel)%nat ->
    Re.star_loop (fun p' s' g' k' => Re.run ic (Re.Class p) p' s' g' k') k
      fuel prev s g
    = k (Re.last_of p prev s) (drop_while p s) g.
Proof.
  intros Hk. induction fuel as [|fuel IH]; intros prev s g Hlen.
  - destruct s; [reflexivity|simpl in Hlen; lia].
  - destruct s as [|c rest]; simpl.
    + reflexivity.
    + destruct (p c) eqn:Hc.
      * assert (Hlt : (String.length rest <? S (String.length rest))%nat = true)
          by (apply Nat.ltb_lt; lia).
        rewrite Hlt. rewrite IH by (simpl in Hlen; lia).
        rewrite (Hk prev c rest g Hc). apply or_else_none_r.
      * reflexivity.
Qed.

Lemma run_star_class (ic : bool) (p : ascii -> bool) (k : Re.cont R)
    (prev : option ascii) (s : string) (g : option string) :
  (forall prev c rest g, p c = true -> k prev (String c rest) g = None) ->
  Re.run ic (Re.Star (Re.Class p)) prev s g k
  = k (Re.last_of p prev s) (drop_while p s) g.
Proof.
  intros Hk. exact (star_class ic p k Hk (String.length s) prev s g (le_n _)).
Qed.

End Matcher.

Section AmountPattern.

Lemma run_word (w : string) (prev : option ascii) (s : string)
    (g : option string) :
  Re.run true (Re.Word w) prev s g Re.finish
  = if prefix_nocase w s then Some (Re.mkMatch g) else None.
Proof.
  revert prev s. induction w as [|a w IH]; intros prev s; simpl.
  - destruct s; reflexivity.
  - destruct s as [|x s]; [reflexivity|].
    unfold Re.lit_matches.
    destruct (Ascii.eqb (Str.lower a) (Str.lower x)); simpl; [apply IH|reflexivity].
Qed.

Ltac by_cases_on c :=
  destruct c as [[] [] [] [] [] [] [] []]; vm_compute; congruence.

Lemma space_not_r (c : ascii) :
  Str.is_space c = true -> Ascii.eqb (Str.lower "R") (Str.lower c) = false.
Proof. by_cases_on c. Qed.

Lemma number_char_not_space (c : ascii) :
  digit_or_comma c = true -> Str.is_space c = false.
Proof. by_cases_on c. Qed.

Lemma number_char_not_r (c : ascii) :
  digit_or_comma c = true -> Ascii.eqb (Str.lower "R") (Str.lower c) = false.
Proof. by_cases_on c. Qed.

Lemma number_char_not_point (c : ascii) :
  digit_or_comma c = true -> Re.lit_matches true "." c = false.
Proof. by_cases_on c. Qed.

Lemma point_matches (c : ascii) :
  Re.lit_matches true "." c = Ascii.eqb c ".".
Proof. by_cases_on c. Qed.

Lemma digit_is_number_char (c : ascii) :
  Str.is_digit c = true -> digit_or_comma c = true.
Proof. unfold digit_or_comma. intros ->. reflexivity. Qed.

(** No currency marker starts at a digit, a separator or a point. *)
Lemma rwf_not_at_number_char (c : ascii) (rest : string) :
  digit_or_comma c = true -> rwf_follows (String c rest) = false.
Proof.
  intros Hc.
  change (rwf_follows (String c rest))
    with (prefix_nocase "RWF"
            (if Str.is_space c then drop_while Str.is_space rest
             else String c rest)).
  rewrite (number_char_not_space c Hc).
  change (prefix_nocase "RWF" (String c rest))
    with (Ascii.eqb (Str.lower "R") (Str.lower c) && prefix_nocase "WF" rest).
  rewrite (number_char_not_r c Hc). reflexivity.
Qed.

Lemma rwf_not_at_point (rest : string) :
  rwf_follows (String "." rest) = false.
Proof. reflexivity. Qed.

(** [\s*RWF] after a number. *)
Lemma run_marker (prev : option ascii) (s : string) (g : option string) :
  Re.run true (Re.Cat (Re.Star space) (Re.Word "RWF")) prev s g Re.finish
  = if rwf_follows s then Some (Re.mkMatch g) else None.
Proof.
  change (Re.run true (Re.Cat (Re.Star space) (Re.Word "RWF")) prev s g Re.finish)
    with (Re.run true (Re.Star (Re.Class Str.is_space)) prev s g
            (fun p' s' g' => Re.run true (Re.Word "RWF") p' s' g' Re.finish)).
  rewrite (run_star_class true Str.is_space).
  - rewrite run_word. reflexivity.
  - intros p c rest g' Hc. rewrite run_word.
    change (prefix_nocase "RWF" (String c rest))
      with (Ascii.eqb (Str.lower "R") (Str.lower c) && prefix_nocase "WF" rest).
    rewrite (space_not_r c Hc). reflexivity.
Qed.


Lemma after_number_marker (s0 : string) (prev : option ascii) (s : string)
    (g : option string) :
  after_number s0 prev s g
  = if rwf_follows s
    then Some (Re.mkMatch
                 (Some (substring 0 (String.length s0 - String.length s) s0)))
    else None.
Proof. unfold after_number. apply run_marker. Qed.

Lemma after_number_fails (s0 : string) (prev : option ascii) (c : ascii)
    (rest : string) (g : option string) :
  digit_or_comma c = true -> after_number s0 prev (String c rest) g = None.
Proof.
  intros Hc. rewrite after_number_marker.
  rewrite (rwf_not_at_number_char c rest Hc). reflexivity.
Qed.

Lemma match_at_amount (prev : option ascii) (s : string) :
  Re.match_at _AMOUNT_RE prev s
  = option_map (fun t => Re.mkMatch (Some t)) (amount_here s).
Proof.
  unfold Re.match_at.
  change (Re.run (Re.ignorecase _AMOUNT_RE) (Re.expr _AMOUNT_RE) prev s None
            Re.finish)
    with (Re.run true number prev s None (after_number s)).
  destruct s as [|d s1]; [reflexivity|].
  unfold amount_here, number_at.
  change (Re.run true number prev (String d s1) None (after_number (String d s1)))
    with (if Str.is_digit d
          then Re.run true (Re.Star (Re.Class digit_or_comma)) (Some d) s1 None
                 (fun p' s' g' =>
                    Re.run true (Re.Opt (Re.Cat (Re.Lit ".") (Re.Plus digit)))
                      p' s' g' (after_number (String d s1)))
          else None).
  destruct (Str.is_digit d) eqn:Hd; [|reflexivity].
  rewrite (run_star_class true digit_or_comma).
  2:{ intros p c rest g Hc.
      change (Re.run true (Re.Opt (Re.Cat (Re.Lit ".") (Re.Plus digit))) p
                (String c rest) g (after_number (String d s1)))
        with (Re.or_else
                (if Re.lit_matches true "." c
                 then Re.run true (Re.Plus digit) (Some c) rest g
                        (after_number (String d s1))
                 else None)
                (after_number (String d s1) p (String c rest) g)).
      rewrite (number_char_not_point c Hc).
      rewrite (after_number_fails _ _ _ _ _ Hc). reflexivity. }
  pose proof (take_drop_while digit_or_comma s1) as Hsplit.
  set (u := take_while digit_or_comma s1) in *.
  set (s2 := drop_while digit_or_comma s1) in *.
  set (p2 := Re.last_of digit_or_comma (Some d) s1).
  assert (Hwhole : substring 0 (String.length (String d s1) - String.length s2)
                     (String d s1) = String d u).
  { rewrite <- Hsplit.
    change (String d (u ++ s2)) with (String d u ++ s2)%string.
    apply consumed_prefix. }
  change (Re.run true (Re.Opt (Re.Cat (Re.Lit ".") (Re.Plus digit))) p2 s2 None
            (after_number (String d s1)))
    with (Re.or_else
            (Re.run true (Re.Cat (Re.Lit ".") (Re.Plus digit)) p2 s2 None
               (after_number (String d s1)))
            (after_number (String d s1) p2 s2 None)).
  rewrite after_number_marker. rewrite Hwhole.
  destruct s2 as [|c s2'] eqn:E2.
  - reflexivity.
  - change (Re.run true (Re.Cat (Re.Lit ".") (Re.Plus digit)) p2 (String c s2')
              None (after_number (String d s1)))
      with (if Re.lit_matches true "." c
            then Re.run true (Re.Plus digit) (Some c) s2' None
                   (after_number (String d s1))
            else None).
    rewrite point_matches.
    destruct (Ascii.eqb c ".") eqn:Ec; simpl andb.
    + apply Ascii.eqb_eq in Ec. subst c.
      rewrite rwf_not_at_point.
      destruct s2' as [|e s3'].
      * reflexivity.
      * change (Re.run true (Re.Plus digit) (Some "."%char) (String e s3') None
                  (after_number (String d s1)))
          with (if Str.is_digit e
                then Re.run true (Re.Star (Re.Class Str.is_digit)) (Some e) s3'
                       None (after_number (String d s1))
                else None).
        simpl take_while. simpl drop_while.
        destruct (Str.is_digit e) eqn:He.
        -- rewrite (run_star_class true Str.is_digit).
           2:{ intros p c rest g Hc. apply after_number_fails.
               apply digit_is_number_char. exact Hc. }
           rewrite after_number_marker.
           simpl negb. cbv iota.
           pose proof (take_drop_while Str.is_digit s3') as Hsplit3.
           set (v := take_while Str.is_digit s3') in *.
           set (s3 := drop_while Str.is_digit s3') in *.
           assert (Htok : substring 0
                            (String.length (String d s1) - String.length s3)
                            (String d s1)
                          = (String d u ++ "." ++ String e v)%string).
           { rewrite <- Hsplit, <- Hsplit3.
             change (String d (u ++ String "." (String e (v ++ s3))))
               with (String d u ++ (("." ++ String e v) ++ s3))%string.
             rewrite <- append_assoc. apply consumed_prefix. }
           rewrite Htok.
           destruct (rwf_follows s3); reflexivity.
        -- cbn -[rwf_follows]. rewrite rwf_not_at_point. reflexivity.
    + cbn -[rwf_follows]. destruct (rwf_follows (String c s2')); reflexivity.
Qed.

End AmountPattern.

Section AmountSearch.

Lemma search_from_amount (prev : option ascii) (s : string) :
  Re.search_from _AMOUNT_RE prev s
  = option_map (fun t => Re.mkMatch (Some t)) (first_amount s).
Proof.
  revert prev. induction s as [|c rest IH]; intros prev.
  - reflexivity.
  - change (Re.search_from _AMOUNT_RE prev (String c rest))
      with (match Re.match_at _AMOUNT_RE prev (String c rest) with
            | Some m => Some m
            | None => Re.search_from _AMOUNT_RE (Some c) rest
            end).
    change (first_amount (String c rest))
      with (match amount_here (String c rest) with
            | Some t => Some t
            | None => first_amount rest
            end).
    rewrite match_at_amount.
    destruct (amount_here (String c rest)); [reflexivity|]. apply IH.
Qed.

Lemma amount_here_not_digit (c : ascii) (s : string) :
  Str.is_digit c = false -> amount_here (String c s) = None.
Proof.
  intros Hc. unfold amount_here, number_at. rewrite Hc. reflexivity.
Qed.

Lemma first_amount_skips (pre s : string) :
  digit_free pre = true -> first_amount (pre ++ s) = first_amount s.
Proof.
  induction pre as [|c pre IH]; intros Hfree; [reflexivity|].
  unfold digit_free in Hfree. simpl in Hfree.
  apply andb_true_iff in Hfree. destruct Hfree as [Hc Hrest].
  apply negb_true_iff in Hc.
  change (first_amount (String c pre ++ s))
    with (match amount_here (String c (pre ++ s)) with
          | Some t => Some t
          | None => first_amount (pre ++ s)
          end).
  rewrite (amount_here_not_digit c _ Hc). apply IH. exact Hrest.
Qed.

Lemma parse_message_amount (id : Z) (ty sms : string) (r : ParsedTransaction) :
  parse_message id ty sms = Ok r ->
  _to_int (first_amount (normalise sms)) = Ok (amount_rwf r).
Proof.
  unfold parse_message.
  destruct (dict_get TYPE_MAP ty ("unknown", "other")) as [dir cat].
  change (Str.join " " (Str.split sms)) with (normalise sms).
  unfold Re.search at 1. rewrite search_from_amount.
  assert (Hamt : match option_map (fun t => Re.mkMatch (Some t))
                         (first_amount (normalise sms)) with
                 | Some m => _to_int (Re.group m)
                 | None => Ok None
                 end = _to_int (first_amount (normalise sms))).
  { destruct (first_amount (normalise sms)); reflexivity. }
  rewrite Hamt.
  destruct (_to_int (first_amount (normalise sms))) as [amt|e];
    [|discriminate].
  unfold Py.bind at 1.
  destruct (match Re.search _FEE_RE (normalise sms) with
            | Some m => _to_int (Re.group m)
            | None => Ok None
            end) as [fee|e]; [|discriminate].
  unfold Py.bind at 1.
  destruct (match Re.search _BAL_RE (normalise sms) with
            | Some m => _to_int (Re.group m)
            | None => Ok None
            end) as [bal|e]; [|discriminate].
  unfold Py.bind. intros H. injection H as <-. reflexivity.
Qed.

End AmountSearch.

(** C3, as amended.  The amount of a message is read from the leftmost
    place of the whitespace-normalised body where a number (a digit,
    further digits and thousands separators, an optional decimal part)
    is followed, after optional blanks, by RWF in any case; text before
    that place that holds no digit, the words "Fee" and "Balance"
    included, makes no difference. *)
Theorem amount_is_first_number_before_rwf :
  (forall s : string,
      Re.search _AMOUNT_RE s
      = option_map (fun t => Re.mkMatch (Some t)) (first_amount s)) /\
  (forall (id : Z) (ty sms : string) (r : ParsedTransaction),
      parse_message id ty sms = Ok r ->
      _to_int (first_amount (normalise sms)) = Ok (amount_rwf r)) /\
  (forall pre s : string,
      digit_free pre = true ->
      Re.search _AMOUNT_RE (pre ++ s) = Re.search _AMOUNT_RE s).
Proof.
  split; [|split].
  - intros s. apply search_from_amount.
  - exact parse_message_amount.
  - intros pre s Hfree. unfold Re.search.
    rewrite !search_from_amount, (first_amount_skips pre s Hfree). reflexivity.
Qed.

(** A fee line alone: its number is what the amount pattern finds. *)
Lemma amount_is_first_number_before_rwf_witness :
  digit_free "Fee: " = true /\
  Re.search _AMOUNT_RE ("Fee: " ++ "100 RWF") = Some (Re.mkMatch (Some "100")).
Proof.
  assert (Hfree : digit_free "Fee: " = true) by reflexivity.
  split; [exact Hfree|].
  destruct amount_is_first_number_before_rwf as (_ & _ & Hskip).
  rewrite (Hskip "Fee: " "100 RWF" Hfree). reflexivity.
Defined.

(** C3 as stated fails: the only number before RWF in "Fee: 100 RWF"
    follows the word Fee, and it is the amount of the message. *)
Lemma amount_after_fee_counterexample :
  exists r,
    parse_message 1 "sms_payment_to_person" "Fee: 100 RWF" = Ok r /\
    amount_rwf r = Some 100 /\
    amount_rwf r <> None.
Proof.
  eexists. split; [vm_compute; reflexivity|].
  split; [reflexivity|discriminate].
Qed.

(** ** What a returned record holds *)

Section ParsedFields.

Lemma type_map_values (raw_type : string) :
  let '(d, c) := dict_get TYPE_MAP raw_type ("unknown", "other") in
  In d ["in"; "out"; "unknown"] /\
  In c ["transfer"; "merchant"; "utilities"; "cash"; "other"] /\
  (~ In raw_type (map fst TYPE_MAP) -> d = "unknown" /\ c = "other").
Proof.
  unfold TYPE_MAP. simpl dict_get. simpl map.
  repeat match goal with
         | |- context [String.eqb raw_type ?k] =>
             destruct (String.eqb_spec raw_type k) as [->|?]
         end;
    (split; [simpl; tauto|split; [simpl; tauto|]]);
    intros Hnot; try (exfalso; apply Hnot; simpl; tauto);
    split; reflexivity.
Qed.

(** [_to_int] lets no ValueError through. *)
Lemma _to_int_raises (x : option string) (e : exn) :
  _to_int x = Raise e -> e = OverflowError.
Proof.
  unfold _to_int. destruct (negb (truthy x)); [discriminate|].
  assert (Hint : forall f, Num.py_int f <> Raise KeyError)
    by (intros [m e'|]; discriminate).
  assert (Hfloat : forall s, Num.py_float s <> Raise OverflowError /\
                             Num.py_float s <> Raise KeyError).
  { intros s. unfold Num.py_float.
    destruct (Num.split_dot s) as [ip [fp|]];
      destruct (Num.read_digits ip 0 0) as [[i a]|];
      try (split; discriminate).
    - destruct (Num.read_digits fp i 0) as [[v b]|]; [|split; discriminate].
      destruct (a + b =? 0)%nat; split; discriminate.
    - destruct (a =? 0)%nat; split; discriminate. }
  destruct (Num.py_float _) as [f|[]] eqn:Ef.
  - destruct (Num.py_int f) as [n|[]] eqn:Ei; try discriminate.
    + intros H. injection H as <-. reflexivity.
    + exfalso. exact (Hint f Ei).
  - discriminate.
  - exfalso. exact (proj1 (Hfloat _) Ef).
  - exfalso. exact (proj2 (Hfloat _) Ef).
Qed.

(** A timestamp read from a message is a date-time. *)
Lemma parse_datetime_valid (text : string) (ts : datetime) :
  _parse_datetime text = Some ts -> valid_datetime ts = true.
Proof.
  unfold _parse_datetime.
  destruct (Re.search _DATETIME_RE text) as [m|]; [|discriminate].
  destruct (Re.group m) as [g|]; [|discriminate].
  unfold dtparser_parse.
  destruct (digit_runs g None) as [|y [|mo [|d [|h [|mi [|se [|x l]]]]]]];
    try discriminate.
  destruct (valid_datetime (mkdt y mo d h mi se)) eqn:E; [|discriminate].
  intros H. injection H as <-. exact E.
Qed.

(** A record that [parse_message] returns carries the identifier, the
    type tag and the body it was given, and a direction and a category
    of the table, (unknown, other) for a tag the table does not list,
    and a timestamp that is a date-time when it has one; and the only
    exception [parse_message] raises is OverflowError. *)
Lemma parse_message_fields (id : Z) (ty sms : string) :
  match parse_message id ty sms with
  | Ok r =>
      msg_id r = id /\ raw_type r = ty /\ raw_sms r = sms /\
      In (direction r) ["in"; "out"; "unknown"] /\
      In (category r) ["transfer"; "merchant"; "utilities"; "cash"; "other"] /\
      (~ In ty (map fst TYPE_MAP) ->
       direction r = "unknown" /\ category r = "other") /\
      (forall ts, timestamp r = Some ts -> valid_datetime ts = true)
  | Raise e => e = OverflowError
  end.
Proof.
  unfold parse_message.
  pose proof (type_map_values ty) as Htype.
  destruct (dict_get TYPE_MAP ty ("unknown", "other")) as [dir cat].
  set (norm := Str.join " " (Str.split sms)).
  assert (Hopt : forall m : option Re.Match,
             match (match m with
                    | Some m => _to_int (Re.group m)
                    | None => Ok None
                    end) with
             | Ok _ => True
             | Raise e => e = OverflowError
             end).
  { intros [m|]; [|exact I].
    destruct (_to_int (Re.group m)) as [v|e] eqn:E; [exact I|].
    exact (_to_int_raises _ _ E). }
  pose proof (Hopt (Re.search _AMOUNT_RE norm)) as Ha.
  destruct (match Re.search _AMOUNT_RE norm with
            | Some m => _to_int (Re.group m)
            | None => Ok None
            end) as [amt|e]; [|exact Ha].
  unfold Py.bind at 1.
  pose proof (Hopt (Re.search _FEE_RE norm)) as Hf.
  destruct (match Re.search _FEE_RE norm with
            | Some m => _to_int (Re.group m)
            | None => Ok None
            end) as [fee|e]; [|exact Hf].
  unfold Py.bind at 1.
  pose proof (Hopt (Re.search _BAL_RE norm)) as Hb.
  destruct (match Re.search _BAL_RE norm with
            | Some m => _to_int (Re.group m)
            | None => Ok None
            end) as [bal|e]; [|exact Hb].
  unfold Py.bind. cbn [msg_id raw_type raw_sms direction category timestamp].
  destruct Htype as (Hd & Hc & Hu).
  split; [reflexivity|]. split; [reflexivity|]. split; [reflexivity|].
  split; [exact Hd|]. split; [exact Hc|]. split; [exact Hu|].
  intros ts. apply parse_datetime_valid.
Qed.

End ParsedFields.

(** ** Week keys in order *)

Section WeekKeysOrder.

Lemma lex_ltb_iff (y1 m1 d1 y2 m2 d2 : Z) :
  lex_ltb (y1, m1, d1) (y2, m2, d2) = true
  <-> y1 < y2 \/ (y1 = y2 /\ (m1 < m2 \/ (m1 = m2 /\ d1 < d2))).
Proof.
  unfold lex_ltb.
  rewrite !orb_true_iff, !andb_true_iff, !orb_true_iff, !andb_true_iff,
    !Z.ltb_lt, !Z.eqb_eq.
  reflexivity.
Qed.

Lemma lex_ltb_trans (a b c : Z * Z * Z) :
  lex_ltb a b = true -> lex_ltb b c = true -> lex_ltb a c = true.
Proof.
  destruct a as [[y1 m1] d1], b as [[y2 m2] d2], c as [[y3 m3] d3].
  rewrite !lex_ltb_iff. lia.
Qed.

Lemma civil_from_days_era (z k : Z) :
  civil_from_days (z + 146097 * k) = shift_years k (civil_from_days z).
Proof.
  unfold civil_from_days, shift_years.
  replace (z + 146097 * k + 719468) with (z + 719468 + k * 146097) by lia.
  rewrite Z.div_add by lia.
  set (a := z + 719468).
  replace (a + k * 146097 - (a / 146097 + k) * 146097)
    with (a - a / 146097 * 146097) by lia.
  set (doe := a - a / 146097 * 146097).
  set (yoe := (doe - doe / 1460 + doe / 36524 - doe / 146096) / 365).
  cbv zeta.
  destruct ((if (5 * (doe - (365 * yoe + yoe / 4 - yoe / 100)) + 2) / 153 <? 10
     then (5 * (doe - (365 * yoe + yoe / 4 - yoe / 100)) + 2) / 153 + 3
     else (5 * (doe - (365 * yoe + yoe / 4 - yoe / 100)) + 2) / 153 - 9) <=? 2);
    f_equal; f_equal; lia.
Qed.

(** The 20871 Mondays of the 400 years from March of year 0 on. *)
Lemma era_mondays :
  mondays_ascend (Z.to_nat 20870) (-719463) (civil_from_days (-719463)) = true.
Proof. vm_compute. reflexivity. Qed.

Lemma mondays_ascend_step (n : nat) (z : Z) :
  mondays_ascend n z (civil_from_days z) = true ->
  forall j : nat,
    (j <= n)%nat ->
    day_ok (civil_from_days (z + 7 * Z.of_nat j)) = true /\
    ((j < n)%nat ->
     lex_ltb (civil_from_days (z + 7 * Z.of_nat j))
       (civil_from_days (z + 7 * Z.of_nat (S j))) = true).
Proof.
  revert z. induction n as [|n IH]; intros z H j Hj.
  - assert (j = 0%nat) by lia. subst j. simpl in H.
    replace (z + 7 * Z.of_nat 0) with z by lia.
    split; [exact H|lia].
  - cbn [mondays_ascend] in H. cbv zeta in H.
    apply andb_true_iff in H. destruct H as [H Hrest].
    apply andb_true_iff in H. destruct H as [Hok Hlt].
    destruct j as [|j].
    + replace (z + 7 * Z.of_nat 0) with z by lia.
      replace (z + 7 * Z.of_nat 1) with (z + 7) by lia.
      split; [exact Hok|intros _; exact Hlt].
    + destruct (IH (z + 7) Hrest j) as [Hok' Hlt']; [lia|].
      replace (z + 7 * Z.of_nat (S j)) with (z + 7 + 7 * Z.of_nat j) by lia.
      replace (z + 7 * Z.of_nat (S (S j)))
        with (z + 7 + 7 * Z.of_nat (S j)) by lia.
      split; [exact Hok'|intros Hlt''; apply Hlt'; lia].
Qed.

Lemma mondays_ascend_mono (n : nat) (z : Z) :
  mondays_ascend n z (civil_from_days z) = true ->
  forall i j : nat,
    (i < j)%nat -> (j <= n)%nat ->
    lex_ltb (civil_from_days (z + 7 * Z.of_nat i))
      (civil_from_days (z + 7 * Z.of_nat j)) = true.
Proof.
  intros H i j Hij. induction Hij as [|j Hij IH]; intros Hj.
  - apply (mondays_ascend_step n z H i); lia.
  - apply (lex_ltb_trans _ (civil_from_days (z + 7 * Z.of_nat j))).
    + apply IH. lia.
    + apply (mondays_ascend_step n z H j); lia.
Qed.

(** Within the 400 years: Monday number [i] is a date, and an earlier
    Monday is an earlier date. *)
Lemma era_monday_ok (i : Z) :
  0 <= i <= 20870 ->
  day_ok (civil_from_days (-719463 + 7 * i)) = true.
Proof.
  intros Hi.
  destruct (mondays_ascend_step _ _ era_mondays (Z.to_nat i)) as [H _]; [lia|].
  rewrite Z2Nat.id in H by lia. exact H.
Qed.

Lemma era_monday_lt (i j : Z) :
  0 <= i -> i < j -> j <= 20870 ->
  lex_ltb (civil_from_days (-719463 + 7 * i))
    (civil_from_days (-719463 + 7 * j)) = true.
Proof.
  intros Hi Hij Hj.
  pose proof (mondays_ascend_mono _ _ era_mondays (Z.to_nat i) (Z.to_nat j)) as H.
  rewrite !Z2Nat.id in H by lia. apply H; lia.
Qed.

Lemma monday_decompose (z : Z) :
  weekday z = 0 ->
  exists e i, z = -719463 + 7 * i + 146097 * e /\ 0 <= i <= 20870.
Proof.
  unfold weekday. intros H.
  exists ((z + 719468) / 146097), (((z + 719468) mod 146097 - 5) / 7).
  Z.div_mod_to_equations. lia.
Qed.


Lemma weekday_week_start (w : Z) : weekday (week_start w) = 0.
Proof.
  unfold weekday, week_start.
  replace (7 * w - 3 + 3) with (w * 7) by lia. apply Z.mod_mul. lia.
Qed.

(** Every Monday is a date, and an earlier Monday is an earlier date. *)
Lemma monday_day_ok (z : Z) :
  weekday z = 0 -> day_ok (civil_from_days z) = true.
Proof.
  intros H. destruct (monday_decompose z H) as (e & i & -> & Hi).
  rewrite civil_from_days_era.
  pose proof (era_monday_ok i Hi) as Hok.
  destruct (civil_from_days (-719463 + 7 * i)) as [[y m] d]. exact Hok.
Qed.

Lemma monday_lt (z1 z2 : Z) :
  weekday z1 = 0 -> weekday z2 = 0 -> z1 < z2 ->
  lex_ltb (civil_from_days z1) (civil_from_days z2) = true.
Proof.
  intros H1 H2 Hlt.
  destruct (monday_decompose z1 H1) as (e1 & i1 & -> & Hi1).
  destruct (monday_decompose z2 H2) as (e2 & i2 & -> & Hi2).
  rewrite !civil_from_days_era.
  assert (Hfirst : civil_from_days (-719463 + 7 * 0) = (0, 3, 6))
    by reflexivity.
  assert (Hlast : civil_from_days (-719463 + 7 * 20870) = (400, 2, 28))
    by reflexivity.
  assert (Hup : i1 = 20870 \/
                lex_ltb (civil_from_days (-719463 + 7 * i1)) (400, 2, 28) = true).
  { destruct (Z.eq_dec i1 20870) as [E|E]; [left; exact E|right].
    rewrite <- Hlast. apply era_monday_lt; lia. }
  assert (Hlow : i2 = 0 \/
                 lex_ltb (0, 3, 6) (civil_from_days (-719463 + 7 * i2)) = true).
  { destruct (Z.eq_dec i2 0) as [E|E]; [left; exact E|right].
    rewrite <- Hfirst. apply era_monday_lt; lia. }
  assert (Hin : e1 = e2 ->
                lex_ltb (civil_from_days (-719463 + 7 * i1))
                  (civil_from_days (-719463 + 7 * i2)) = true).
  { intros E. apply era_monday_lt; lia. }
  assert (He : e1 < e2 \/ e1 = e2) by lia.
  destruct Hup as [->|Hup]; [rewrite Hlast in *|];
    (destruct Hlow as [->|Hlow]; [rewrite Hfirst in *|]);
    repeat match goal with
           | |- context [civil_from_days ?x] =>
               destruct (civil_from_days x) as [[? ?] ?]
           end;
    unfold shift_years; rewrite ?lex_ltb_iff in *; lia.
Qed.

Lemma digit_compare (a b : Z) :
  0 <= a <= 9 -> 0 <= b <= 9 ->
  Ascii.compare (digit_char a) (digit_char b) = (a ?= b).
Proof.
  intros Ha Hb.
  assert (Ea : a = 0 \/ a = 1 \/ a = 2 \/ a = 3 \/ a = 4 \/ a = 5 \/ a = 6 \/
               a = 7 \/ a = 8 \/ a = 9) by lia.
  assert (Eb : b = 0 \/ b = 1 \/ b = 2 \/ b = 3 \/ b = 4 \/ b = 5 \/ b = 6 \/
               b = 7 \/ b = 8 \/ b = 9) by lia.
  repeat (destruct Ea as [->|Ea]); try subst a;
    repeat (destruct Eb as [->|Eb]); try subst b; reflexivity.
Qed.

Lemma compare_digit (a b : Z) (s1 s2 : string) :
  0 <= a <= 9 -> 0 <= b <= 9 ->
  String.compare (String (digit_char a) s1) (String (digit_char b) s2)
  = match a ?= b with Eq => String.compare s1 s2 | c => c end.
Proof.
  intros Ha Hb. cbn [String.compare]. rewrite (digit_compare a b Ha Hb).
  reflexivity.
Qed.

Lemma compare_pad2 (a b : Z) (t1 t2 : string) :
  0 <= a <= 99 -> 0 <= b <= 99 ->
  String.compare (pad 2 a ++ t1) (pad 2 b ++ t2)
  = match a ?= b with Eq => String.compare t1 t2 | c => c end.
Proof.
  intros Ha Hb.
  change (pad 2 a ++ t1)%string
    with (String (digit_char ((a / 10) mod 10))
            (String (digit_char (a mod 10)) t1)).
  change (pad 2 b ++ t2)%string
    with (String (digit_char ((b / 10) mod 10))
            (String (digit_char (b mod 10)) t2)).
  set (a1 := (a / 10) mod 10). set (a0 := a mod 10).
  set (b1 := (b / 10) mod 10). set (b0 := b mod 10).
  assert (Da : a = 10 * a1 + a0 /\ 0 <= a1 <= 9 /\ 0 <= a0 <= 9)
    by (subst a1 a0; Z.div_mod_to_equations; lia).
  assert (Db : b = 10 * b1 + b0 /\ 0 <= b1 <= 9 /\ 0 <= b0 <= 9)
    by (subst b1 b0; Z.div_mod_to_equations; lia).
  clearbody a1 a0 b1 b0.
  rewrite !compare_digit by lia.
  destruct (Z.compare_spec a1 b1); destruct (Z.compare_spec a0 b0);
    destruct (Z.compare_spec a b); try reflexivity; exfalso; lia.
Qed.

Lemma compare_pad4 (a b : Z) (t1 t2 : string) :
  0 <= a <= 9999 -> 0 <= b <= 9999 ->
  String.compare (pad 4 a ++ t1) (pad 4 b ++ t2)
  = match a ?= b with Eq => String.compare t1 t2 | c => c end.
Proof.
  intros Ha Hb.
  change (pad 4 a ++ t1)%string
    with (String (digit_char ((a / 10 / 10 / 10) mod 10))
            (String (digit_char ((a / 10 / 10) mod 10))
               (String (digit_char ((a / 10) mod 10))
                  (String (digit_char (a mod 10)) t1)))).
  change (pad 4 b ++ t2)%string
    with (String (digit_char ((b / 10 / 10 / 10) mod 10))
            (String (digit_char ((b / 10 / 10) mod 10))
               (String (digit_char ((b / 10) mod 10))
                  (String (digit_char (b mod 10)) t2)))).
  set (a3 := (a / 10 / 10 / 10) mod 10). set (a2 := (a / 10 / 10) mod 10).
  set (a1 := (a / 10) mod 10). set (a0 := a mod 10).
  set (b3 := (b / 10 / 10 / 10) mod 10). set (b2 := (b / 10 / 10) mod 10).
  set (b1 := (b / 10) mod 10). set (b0 := b mod 10).
  assert (Da : a = 1000 * a3 + 100 * a2 + 10 * a1 + a0 /\
               0 <= a3 <= 9 /\ 0 <= a2 <= 9 /\ 0 <= a1 <= 9 /\ 0 <= a0 <= 9)
    by (subst a3 a2 a1 a0; Z.div_mod_to_equations; lia).
  assert (Db : b = 1000 * b3 + 100 * b2 + 10 * b1 + b0 /\
               0 <= b3 <= 9 /\ 0 <= b2 <= 9 /\ 0 <= b1 <= 9 /\ 0 <= b0 <= 9)
    by (subst b3 b2 b1 b0; Z.div_mod_to_equations; lia).
  clearbody a3 a2 a1 a0 b3 b2 b1 b0.
  rewrite !compare_digit by lia.
  destruct (Z.compare_spec a3 b3); destruct (Z.compare_spec a2 b2);
    destruct (Z.compare_spec a1 b1); destruct (Z.compare_spec a0 b0);
    destruct (Z.compare_spec a b); try reflexivity; exfalso; lia.
Qed.


Lemma compare_dash (s1 s2 : string) :
  String.compare ("-" ++ s1) ("-" ++ s2) = String.compare s1 s2.
Proof. reflexivity. Qed.

Lemma compare_fmt_date (y1 m1 d1 y2 m2 d2 : Z) (t1 t2 : string) :
  0 <= y1 <= 9999 -> 0 <= y2 <= 9999 ->
  day_ok (y1, m1, d1) = true -> day_ok (y2, m2, d2) = true ->
  lex_ltb (y1, m1, d1) (y2, m2, d2) = true ->
  String.compare (fmt_date (y1, m1, d1) ++ t1) (fmt_date (y2, m2, d2) ++ t2) = Lt.
Proof.
  intros Hy1 Hy2 Hok1 Hok2 Hlt.
  unfold day_ok in Hok1, Hok2.
  rewrite !andb_true_iff, !Z.leb_le in Hok1, Hok2.
  apply lex_ltb_iff in Hlt.
  change (fmt_date (y1, m1, d1))
    with (pad 4 y1 ++ "-" ++ pad 2 m1 ++ "-" ++ pad 2 d1)%string.
  change (fmt_date (y2, m2, d2))
    with (pad 4 y2 ++ "-" ++ pad 2 m2 ++ "-" ++ pad 2 d2)%string.
  rewrite !append_assoc.
  rewrite compare_pad4, compare_dash, compare_pad2, compare_dash, compare_pad2
    by lia.
  destruct (Z.compare_spec y1 y2); destruct (Z.compare_spec m1 m2);
    destruct (Z.compare_spec d1 d2); try reflexivity; exfalso; lia.
Qed.

(** The weeks that hold the days of the years 1 to 9999. *)
Lemma week_str_lt (w1 w2 : Z) :
  -102737 <= w1 -> w1 < w2 -> w2 <= 418985 ->
  String.compare (week_str w1) (week_str w2) = Lt.
Proof.
  intros Hlo Hlt Hhi. unfold week_str.
  assert (Hyear : forall w, -102737 <= w <= 418985 ->
             let '(y, _, _) := civil_from_days (week_start w) in 1 <= y <= 9999).
  { intros w Hw.
    assert (Hmin : civil_from_days (week_start (-102737)) = (1, 1, 1))
      by reflexivity.
    assert (Hmax : civil_from_days (week_start 418985) = (9999, 12, 27))
      by reflexivity.
    assert (Hge : w = -102737 \/
                  lex_ltb (1, 1, 1) (civil_from_days (week_start w)) = true).
    { destruct (Z.eq_dec w (-102737)) as [E|E]; [left; exact E|right].
      rewrite <- Hmin.
      apply monday_lt; try apply weekday_week_start. unfold week_start. lia. }
    assert (Hle : w = 418985 \/
                  lex_ltb (civil_from_days (week_start w)) (9999, 12, 27) = true).
    { destruct (Z.eq_dec w 418985) as [E|E]; [left; exact E|right].
      rewrite <- Hmax.
      apply monday_lt; try apply weekday_week_start. unfold week_start. lia. }
    destruct Hge as [->|Hge]; [rewrite Hmin; lia|].
    destruct Hle as [->|Hle]; [rewrite Hmax; lia|].
    destruct (civil_from_days (week_start w)) as [[y m] d].
    apply lex_ltb_iff in Hge, Hle. lia. }
  pose proof (Hyear w1 ltac:(lia)) as Hy1.
  pose proof (Hyear w2 ltac:(lia)) as Hy2.
  pose proof (monday_day_ok _ (weekday_week_start w1)) as Hok1.
  pose proof (monday_day_ok _ (weekday_week_start w2)) as Hok2.
  assert (Hlex : lex_ltb (civil_from_days (week_start w1))
                   (civil_from_days (week_start w2)) = true).
  { apply monday_lt; try apply weekday_week_start. unfold week_start. lia. }
  destruct (civil_from_days (week_start w1)) as [[y1 m1] d1].
  destruct (civil_from_days (week_start w2)) as [[y2 m2] d2].
  apply compare_fmt_date; try assumption; lia.
Qed.

Lemma unix_date_bounds (t : datetime) :
  valid_datetime t = true -> -719162 <= unix_date t <= 2932896.
Proof.
  unfold valid_datetime, unix_date, days_from_civil.
  rewrite !andb_true_iff, !Z.leb_le, !Z.ltb_lt.
  intros H.
  assert (Hd : days_in_month (dt_year t) (dt_month t) <= 31).
  { unfold days_in_month. repeat destruct (_ =? _); simpl; try lia;
      destruct (is_leap _); lia. }
  destruct (dt_month t <=? 2) eqn:E1; destruct (2 <? dt_month t) eqn:E2;
    try (apply Z.leb_le in E1); try (apply Z.leb_gt in E1);
    try (apply Z.ltb_lt in E2); try (apply Z.ltb_ge in E2); try lia;
    Z.div_mod_to_equations; lia.
Qed.

(** Week keys compare as the weeks do. *)
Lemma week_str_compare (t1 t2 : datetime) :
  valid_datetime t1 = true -> valid_datetime t2 = true ->
  String.compare (week_str (week_ordinal (unix_date t1)))
    (week_str (week_ordinal (unix_date t2)))
  = (week_ordinal (unix_date t1) ?= week_ordinal (unix_date t2)).
Proof.
  intros H1 H2.
  pose proof (unix_date_bounds t1 H1) as B1.
  pose proof (unix_date_bounds t2 H2) as B2.
  assert (R1 : -102737 <= week_ordinal (unix_date t1) <= 418985)
    by (unfold week_ordinal; Z.div_mod_to_equations; lia).
  assert (R2 : -102737 <= week_ordinal (unix_date t2) <= 418985)
    by (unfold week_ordinal; Z.div_mod_to_equations; lia).
  destruct (Z.compare_spec (week_ordinal (unix_date t1))
              (week_ordinal (unix_date t2))) as [E|E|E].
  - rewrite E. apply string_compare_refl.
  - apply week_str_lt; lia.
  - rewrite String.compare_antisym, week_str_lt by lia. reflexivity.
Qed.

End WeekKeysOrder.




(** ** What a match consumes and captures *)

Section Consumption.

Lemma all_chars_app (p : ascii -> bool) (a b : string) :
  all_chars p (a ++ b) = all_chars p a && all_chars p b.
Proof.
  induction a as [|c a IH]; simpl; [reflexivity|].
  rewrite IH. apply andb_assoc.
Qed.

Lemma all_chars_weaken (p q : ascii -> bool) (s : string) :
  (forall c, p c = true -> q c = true) ->
  all_chars p s = true -> all_chars q s = true.
Proof.
  intros Hpq. induction s as [|c s IH]; simpl; [reflexivity|].
  rewrite !andb_true_iff. intros [Hc Hs]. split; [apply Hpq; exact Hc|apply IH; exact Hs].
Qed.

Context {R : Type}.

Lemma loop_consumes (ic : bool) (a : Re.re) (greedy : bool) :
  (forall prev s g (k : Re.cont R) v,
      Re.run ic a prev s g k = Some v -> consumes ic a s g k v) ->
  forall fuel prev s g (k : Re.cont R) v,
    (if greedy
     then Re.star_loop (fun p' s' g' k' => Re.run ic a p' s' g' k') k fuel prev s g
     else Re.lazy_loop (fun p' s' g' k' => Re.run ic a p' s' g' k') k fuel prev s g)
    = Some v ->
    exists tok rest p' g',
      s = (tok ++ rest)%string /\
      k p' rest g' = Some v /\
      all_chars (leaf_ok ic a) tok = true /\
      (g' = g \/
       exists t, g' = Some t /\ captured_ok ic a t /\
                 (String.length t <= String.length tok)%nat).
Proof.
  intros IHa. induction fuel as [|fuel IH]; intros prev s g k v H.
  - assert (Hk : k prev s g = Some v) by (destruct greedy; exact H).
    exists EmptyString, s, prev, g. repeat split; auto.
  - assert (Hcases :
      Re.run ic a prev s g
        (fun p' s' g' =>
           if (String.length s' <? String.length s)%nat
           then (if greedy
                 then Re.star_loop (fun p' s' g' k' => Re.run ic a p' s' g' k')
                        k fuel p' s' g'
                 else Re.lazy_loop (fun p' s' g' k' => Re.run ic a p' s' g' k')
                        k fuel p' s' g')
           else None) = Some v
      \/ k prev s g = Some v).
    { destruct greedy; cbn [Re.star_loop Re.lazy_loop] in H;
        unfold Re.or_else in H.
      - destruct (Re.run ic a prev s g _) eqn:E.
        + left. exact H.
        + right. exact H.
      - destruct (k prev s g) eqn:E.
        + right. exact H.
        + left. exact H. }
    destruct Hcases as [Hstep|Hk].
    + apply IHa in Hstep.
      destruct Hstep as (tok1 & rest1 & p1 & g1 & Hs & Hcont & Hall1 & _ & Hg1).
      destruct (String.length rest1 <? String.length s)%nat; [|discriminate].
      apply IH in Hcont.
      destruct Hcont as (tok2 & rest2 & p2 & g2 & Hs2 & Hk2 & Hall2 & Hg2).
      exists (tok1 ++ tok2)%string, rest2, p2, g2.
      split; [rewrite Hs, Hs2, append_assoc; reflexivity|].
      split; [exact Hk2|].
      split; [rewrite all_chars_app, Hall1, Hall2; reflexivity|].
      rewrite length_append.
      destruct Hg2 as [->|(t & -> & Ht & Hl)].
      * destruct Hg1 as [->|(t & -> & Ht & Hl)]; [left; reflexivity|].
        right. exists t. repeat split; auto. lia.
      * right. exists t. repeat split; auto. lia.
    + exists EmptyString, s, prev, g. repeat split; auto.
Qed.

Lemma run_consumes (ic : bool) (r : Re.re) :
  forall prev s g (k : Re.cont R) v,
    Re.run ic r prev s g k = Some v -> consumes ic r s g k v.
Proof.
  induction r as [|c|p|a IHa b IHb|a IHa b IHb|a IHa|a IHa|a IHa|];
    intros prev s g k v H.
  - exists EmptyString, s, prev, g. repeat split; auto.
  - cbn [Re.run] in H. destruct s as [|x rest]; [discriminate|].
    destruct (Re.lit_matches ic c x) eqn:E; [|discriminate].
    exists (String x EmptyString), rest, (Some x), g.
    cbn [all_chars leaf_ok min_len String.length]. rewrite E.
    repeat split; auto.
  - cbn [Re.run] in H. destruct s as [|x rest]; [discriminate|].
    destruct (p x) eqn:E; [|discriminate].
    exists (String x EmptyString), rest, (Some x), g.
    cbn [all_chars leaf_ok min_len String.length]. rewrite E.
    repeat split; auto.
  - cbn [Re.run] in H. apply IHa in H.
    destruct H as (tok1 & rest1 & p1 & g1 & Hs & Hb & Hall1 & Hlen1 & Hg1).
    apply IHb in Hb.
    destruct Hb as (tok2 & rest2 & p2 & g2 & Hs2 & Hk & Hall2 & Hlen2 & Hg2).
    exists (tok1 ++ tok2)%string, rest2, p2, g2.
    split; [rewrite Hs, Hs2, append_assoc; reflexivity|].
    split; [exact Hk|].
    split.
    { rewrite all_chars_app. apply andb_true_iff. split.
      - eapply all_chars_weaken; [|exact Hall1].
        intros c Hc. cbn [leaf_ok]. rewrite Hc. reflexivity.
      - eapply all_chars_weaken; [|exact Hall2].
        intros c Hc. cbn [leaf_ok]. rewrite Hc. apply orb_true_r. }
    split; [rewrite length_append; cbn [min_len]; lia|].
    cbn [captured_ok]. rewrite length_append.
    destruct Hg2 as [->|(t & -> & Ht & Hl)].
    + destruct Hg1 as [->|(t & -> & Ht & Hl)]; [left; reflexivity|].
      right. exists t. split; [reflexivity|]. split; [left; exact Ht|lia].
    + right. exists t. split; [reflexivity|]. split; [right; exact Ht|lia].
  - cbn [Re.run] in H. unfold Re.or_else in H.
    destruct (Re.run ic a prev s g k) eqn:E.
    + rewrite H in E. apply IHa in E.
      destruct E as (tok & rest & p' & g' & Hs & Hk & Hall & Hlen & Hg).
      exists tok, rest, p', g'. split; [exact Hs|]. split; [exact Hk|].
      split.
      { eapply all_chars_weaken; [|exact Hall].
        intros c Hc. cbn [leaf_ok]. rewrite Hc. reflexivity. }
      split; [cbn [min_len]; lia|].
      destruct Hg as [->|(t & -> & Ht & Hl)]; [left; reflexivity|].
      right. exists t. split; [reflexivity|]. split; [left; exact Ht|exact Hl].
    + apply IHb in H.
      destruct H as (tok & rest & p' & g' & Hs & Hk & Hall & Hlen & Hg).
      exists tok, rest, p', g'. split; [exact Hs|]. split; [exact Hk|].
      split.
      { eapply all_chars_weaken; [|exact Hall].
        intros c Hc. cbn [leaf_ok]. rewrite Hc. apply orb_true_r. }
      split; [cbn [min_len]; lia|].
      destruct Hg as [->|(t & -> & Ht & Hl)]; [left; reflexivity|].
      right. exists t. split; [reflexivity|]. split; [right; exact Ht|exact Hl].
  - cbn [Re.run] in H.
    apply (loop_consumes ic a true IHa) in H.
    destruct H as (tok & rest & p' & g' & Hs & Hk & Hall & Hg).
    exists tok, rest, p', g'. repeat split; auto. cbn [min_len]. lia.
  - cbn [Re.run] in H.
    apply (loop_consumes ic a false IHa) in H.
    destruct H as (tok & rest & p' & g' & Hs & Hk & Hall & Hg).
    exists tok, rest, p', g'. repeat split; auto. cbn [min_len]. lia.
  - cbn [Re.run] in H. apply IHa in H.
    destruct H as (tok & rest & p' & g' & Hs & Hk & Hall & Hlen & _).
    exists tok, rest, p', (Some tok).
    split; [exact Hs|]. split.
    { rewrite Hs in Hk. rewrite consumed_prefix in Hk. exact Hk. }
    split; [exact Hall|]. split; [exact Hlen|].
    right. exists tok. split; [reflexivity|].
    split; [split; [exact Hall|exact Hlen]|lia].
  - cbn [Re.run] in H.
    destruct (xorb _ _); [|discriminate].
    exists EmptyString, s, prev, g. repeat split; auto.
Qed.

End Consumption.

Section Captures.

Lemma suffix_of_refl (s : string) : suffix_of s s.
Proof. exists EmptyString. reflexivity. Qed.

Lemma suffix_of_cons (c : ascii) (s' s : string) :
  suffix_of s' s -> suffix_of s' (String c s).
Proof. intros [pre ->]. exists (String c pre). reflexivity. Qed.

Lemma suffix_of_length (s' s : string) :
  suffix_of s' s -> (String.length s' <= String.length s)%nat.
Proof. intros [pre ->]. rewrite length_append. lia. Qed.

(** A match found by [search] is a match at some position. *)
Lemma search_from_match (p : Re.pattern) (prev : option ascii) (s : string)
    (m : Re.Match) :
  Re.search_from p prev s = Some m ->
  exists prev' s', suffix_of s' s /\ Re.match_at p prev' s' = Some m.
Proof.
  revert prev. induction s as [|c rest IH]; intros prev H.
  - cbn [Re.search_from] in H.
    destruct (Re.match_at p prev "") eqn:E; [|discriminate].
    exists prev, EmptyString. split; [apply suffix_of_refl|congruence].
  - cbn [Re.search_from] in H.
    destruct (Re.match_at p prev (String c rest)) eqn:E.
    + exists prev, (String c rest). split; [apply suffix_of_refl|congruence].
    + destruct (IH _ H) as (prev' & s' & Hsuf & Hm).
      exists prev', s'. split; [apply suffix_of_cons; exact Hsuf|exact Hm].
Qed.

(** A match at a position of [s] makes [search] succeed. *)
Lemma search_from_finds (p : Re.pattern) (s' s : string) :
  suffix_of s' s ->
  (forall prev, Re.match_at p prev s' <> None) ->
  forall prev, Re.search_from p prev s <> None.
Proof.
  intros [pre ->] Hm. induction pre as [|c pre IH]; intros prev.
  - change ("" ++ s')%string with s'.
    destruct s'; cbn [Re.search_from];
      destruct (Re.match_at p prev _) eqn:E; try discriminate;
      exfalso; exact (Hm prev E).
  - change (String c pre ++ s')%string with (String c (pre ++ s')).
    cbn [Re.search_from].
    destruct (Re.match_at p prev _); [discriminate|apply IH].
Qed.

(** The group of a match is a text the pattern's group can hold, and a
    part of the input. *)
Lemma match_at_captured (p : Re.pattern) (prev : option ascii) (s : string)
    (m : Re.Match) (t : string) :
  Re.match_at p prev s = Some m -> Re.group m = Some t ->
  captured_ok (Re.ignorecase p) (Re.expr p) t /\
  (String.length t <= String.length s)%nat.
Proof.
  unfold Re.match_at. intros H Hg. apply run_consumes in H.
  destruct H as (tok & rest & p' & g' & Hs & Hk & _ & _ & Hcap).
  unfold Re.finish in Hk. injection Hk as <-. cbn [Re.group] in Hg.
  destruct Hcap as [->|(t' & -> & Ht & Hl)]; [discriminate|].
  injection Hg as <-. split; [exact Ht|].
  rewrite Hs, length_append. lia.
Qed.

Lemma search_captured (p : Re.pattern) (s t : string) :
  Parser.group_of (Re.search p s) = Some t ->
  captured_ok (Re.ignorecase p) (Re.expr p) t /\
  (String.length t <= String.length s)%nat.
Proof.
  unfold Parser.group_of, Re.search.
  destruct (Re.search_from p None s) as [m|] eqn:E; [|discriminate].
  intros Hg. apply search_from_match in E.
  destruct E as (prev' & s' & Hsuf & Hm).
  destruct (match_at_captured p prev' s' m t Hm Hg) as [Hc Hl].
  split; [exact Hc|]. apply suffix_of_length in Hsuf. lia.
Qed.

End Captures.

Section Strip.

Lemma all_chars_lstrip (p : ascii -> bool) (set s : string) :
  all_chars p s = true -> all_chars p (Str.lstrip set s) = true.
Proof.
  induction s as [|c s IH]; [reflexivity|].
  cbn [Str.lstrip]. intros H.
  destruct (Str.mem c set); [|exact H].
  apply IH. cbn [all_chars] in H. apply andb_true_iff in H. tauto.
Qed.

Lemma all_chars_rstrip (p : ascii -> bool) (set s : string) :
  all_chars p s = true -> all_chars p (Str.rstrip set s) = true.
Proof.
  induction s as [|c s IH]; [reflexivity|].
  cbn [Str.rstrip all_chars]. rewrite andb_true_iff. intros [Hc Hs].
  specialize (IH Hs).
  destruct (Str.rstrip set s) as [|d t].
  - destruct (Str.mem c set); [reflexivity|]. cbn [all_chars].
    rewrite Hc. reflexivity.
  - cbn [all_chars] in *. rewrite Hc. exact IH.
Qed.

Lemma first_char_lstrip (set s : string) (c : ascii) :
  first_char (Str.lstrip set s) = Some c -> Str.mem c set = false.
Proof.
  induction s as [|d s IH]; [discriminate|].
  cbn [Str.lstrip]. destruct (Str.mem d set) eqn:E; [exact IH|].
  cbn. intros H. injection H as <-. exact E.
Qed.

Lemma last_char_rstrip (set s : string) (c : ascii) :
  last_char (Str.rstrip set s) = Some c -> Str.mem c set = false.
Proof.
  induction s as [|d s IH]; [discriminate|].
  cbn [Str.rstrip].
  destruct (Str.rstrip set s) as [|e t] eqn:E.
  - destruct (Str.mem d set) eqn:Ed; [discriminate|].
    cbn. intros H. injection H as <-. exact Ed.
  - intros H. apply IH. exact H.
Qed.

Lemma first_char_rstrip (set s : string) (c : ascii) :
  first_char (Str.rstrip set s) = Some c -> first_char s = Some c.
Proof.
  destruct s as [|d s]; [discriminate|].
  cbn [Str.rstrip].
  destruct (Str.rstrip set s); [destruct (Str.mem d set); [discriminate|]|];
    cbn; intros H; exact H.
Qed.

(** [strip] keeps characters of the text and leaves none of the set at
    either end. *)
Lemma strip_trimmed (set s : string) :
  (forall p, all_chars p s = true -> all_chars p (Str.strip set s) = true) /\
  (forall c, first_char (Str.strip set s) = Some c -> Str.mem c set = false) /\
  (forall c, last_char (Str.strip set s) = Some c -> Str.mem c set = false).
Proof.
  unfold Str.strip. split; [|split].
  - intros p H. apply all_chars_rstrip, all_chars_lstrip, H.
  - intros c H. apply first_char_rstrip in H.
    exact (first_char_lstrip _ _ _ H).
  - intros c. apply last_char_rstrip.
Qed.

End Strip.

Section ParsedRecord.

(** The fields of a returned record, read off [parse_message]. *)
Lemma parse_message_inv (id : Z) (ty sms : string) (r : ParsedTransaction) :
  parse_message id ty sms = Ok r ->
  let norm := normalise sms in
  _to_int (group_of (Re.search _AMOUNT_RE norm)) = Ok (amount_rwf r) /\
  _to_int (group_of (Re.search _FEE_RE norm)) = Ok (fee_rwf r) /\
  _to_int (group_of (Re.search _BAL_RE norm)) = Ok (balance_rwf r) /\
  timestamp r = _parse_datetime norm /\
  txid r = group_of (Re.search _TXID_RE norm) /\
  ftid r = group_of (Re.search _FTID_RE norm) /\
  etid r = group_of (Re.search _ETID_RE norm) /\
  msisdn r = group_of (Re.search _PHONE_RE norm) /\
  (counterparty r = None \/
   (exists m, Re.search _TO_RE norm = Some m /\ counterparty r = name_of m) \/
   (exists m, Re.search _FROM_RE norm = Some m /\ counterparty r = name_of m)).
Proof.
  unfold parse_message.
  destruct (dict_get TYPE_MAP ty ("unknown", "other")) as [dir cat].
  change (Str.join " " (Str.split sms)) with (normalise sms).
  set (norm := normalise sms).
  assert (Hint : forall m : option Re.Match,
             match m with
             | Some m => _to_int (Re.group m)
             | None => Ok None
             end = _to_int (group_of m)).
  { intros [m|]; reflexivity. }
  rewrite !Hint.
  destruct (_to_int (group_of (Re.search _AMOUNT_RE norm))) as [amt|e];
    [|discriminate].
  unfold Py.bind at 1.
  destruct (_to_int (group_of (Re.search _FEE_RE norm))) as [fee|e];
    [|discriminate].
  unfold Py.bind at 1.
  destruct (_to_int (group_of (Re.search _BAL_RE norm))) as [bal|e];
    [|discriminate].
  unfold Py.bind. intros H. injection H as <-.
  cbn [amount_rwf fee_rwf balance_rwf timestamp txid ftid etid msisdn
       counterparty].
  repeat (split; [reflexivity|]).
  destruct (String.eqb dir "out").
  - destruct (Re.search _TO_RE norm) as [m|]; [|left; reflexivity].
    right. left. exists m. split; reflexivity.
  - destruct (String.eqb dir "in").
    + destruct (Re.search _FROM_RE norm) as [m|]; [|left; reflexivity].
      right. right. exists m. split; reflexivity.
    + destruct (Re.search _TO_RE norm) as [m|].
      * right. left. exists m. split; reflexivity.
      * destruct (Re.search _FROM_RE norm) as [m|]; [|left; reflexivity].
        right. right. exists m. split; reflexivity.
Qed.

End ParsedRecord.

(** ** Identifiers and names of a parsed record *)

(** X1.  In a returned record a transaction id is a non-empty run of
    letters and digits, a transfer id and an external id are non-empty
    runs of letters, digits and hyphens, and a subscriber number is made
    of six digits or more. *)
Theorem identifiers_well_formed :
  forall (id : Z) (ty sms : string) (r : ParsedTransaction),
    parse_message id ty sms = Ok r ->
    (forall t, txid r = Some t ->
       (1 <= String.length t)%nat /\ all_chars Str.is_alnum t = true) /\
    (forall t, ftid r = Some t ->
       (1 <= String.length t)%nat /\ all_chars id_char t = true) /\
    (forall t, etid r = Some t ->
       (1 <= String.length t)%nat /\ all_chars id_char t = true) /\
    (forall t, msisdn r = Some t ->
       (6 <= String.length t)%nat /\ all_chars Str.is_digit t = true).
Proof.
  intros id ty sms r H.
  destruct (parse_message_inv id ty sms r H)
    as (_ & _ & _ & _ & Htx & Hft & Het & Hph & _).
  assert (Hdiag : forall (q : ascii -> bool) (t : string),
             all_chars (fun c => q c || q c) t = true -> all_chars q t = true).
  { intros q t. apply all_chars_weaken. intros c. rewrite orb_diag. tauto. }
  split; [|split; [|split]]; intros t Ht.
  - rewrite Htx in Ht. apply search_captured in Ht. destruct Ht as [Hc _].
    cbn in Hc. split; [intuition|apply Hdiag; intuition].
  - rewrite Hft in Ht. apply search_captured in Ht. destruct Ht as [Hc _].
    cbn in Hc. split; [intuition|apply Hdiag; intuition].
  - rewrite Het in Ht. apply search_captured in Ht. destruct Ht as [Hc _].
    cbn in Hc. split; [intuition|apply Hdiag; intuition].
  - rewrite Hph in Ht. apply search_captured in Ht. destruct Ht as [Hc _].
    cbn in Hc. split; [intuition|].
    destruct Hc as [Hc|[[Hall _]|Hc]]; try contradiction.
    eapply all_chars_weaken; [|exact Hall].
    intros c Hq. rewrite !orb_true_iff in Hq. intuition discriminate.
Qed.

(** Identifiers of scenario A. *)
Lemma identifiers_well_formed_witness :
  exists r,
    parse_message 1 "sms_received_from_momo" scenario_a_sms = Ok r /\
    (forall t, msisdn r = Some t -> (6 <= String.length t)%nat).
Proof.
  eexists. split; [vm_compute; reflexivity|].
  intros t Ht.
  destruct (identifiers_well_formed 1 "sms_received_from_momo" scenario_a_sms _
              ltac:(vm_compute; reflexivity)) as (_ & _ & _ & Hph).
  exact (proj1 (Hph t Ht)).
Defined.

(** X2.  In a returned record a counterparty is made of letters,
    digits, spaces and the signs & - . ' only, and neither starts nor
    ends with a space, period, comma or hyphen. *)
Theorem counterparty_trimmed_name :
  forall (id : Z) (ty sms : string) (r : ParsedTransaction) (t : string),
    parse_message id ty sms = Ok r ->
    counterparty r = Some t ->
    all_chars name_char t = true /\
    (forall c, first_char t = Some c -> trimmed_char c = false) /\
    (forall c, last_char t = Some c -> trimmed_char c = false).
Proof.
  intros id ty sms r t H Ht.
  destruct (parse_message_inv id ty sms r H) as (_ & _ & _ & _ & _ & _ & _ & _ & Hcp).
  assert (Hname : exists p m g,
             Re.search p (normalise sms) = Some m /\
             Re.group m = Some g /\ t = Str.strip " .,-" g /\
             (p = _TO_RE \/ p = _FROM_RE)).
  { destruct Hcp as [E|[(m & Hm & E)|(m & Hm & E)]]; [congruence| |];
      rewrite E in Ht; unfold name_of in Ht;
      destruct (Re.group m) as [g|] eqn:Eg; try discriminate;
      injection Ht as <-; eexists _, m, g; eauto. }
  destruct Hname as (p & m & g & Hm & Hg & -> & Hp).
  assert (Hcap : all_chars name_char g = true).
  { assert (Hgo : group_of (Re.search p (normalise sms)) = Some g)
      by (rewrite Hm; exact Hg).
    apply search_captured in Hgo. destruct Hgo as [Hc _].
    destruct Hp as [-> | ->]; cbn -[name_char] in Hc;
      assert (Hall : all_chars (fun c => name_char c || name_char c) g = true)
        by intuition;
      (eapply all_chars_weaken; [|exact Hall]);
      intros c; cbv beta; rewrite orb_diag; tauto. }
  destruct (strip_trimmed " .,-" g) as (Hkeep & Hfirst & Hlast).
  split; [apply Hkeep; exact Hcap|]. split; [exact Hfirst|exact Hlast].
Qed.

(** The counterparty of scenario A. *)
Lemma counterparty_trimmed_name_witness :
  exists r,
    parse_message 1 "sms_received_from_momo" scenario_a_sms = Ok r /\
    counterparty r = Some "Jane Doe" /\
    all_chars name_char "Jane Doe" = true.
Proof.
  eexists. split; [vm_compute; reflexivity|]. split; [reflexivity|].
  exact (proj1 (counterparty_trimmed_name 1 "sms_received_from_momo"
                  scenario_a_sms _ "Jane Doe"
                  ltac:(vm_compute; reflexivity) eq_refl)).
Defined.

(** ** Numbers read through [float] *)

Section FloatFacts.

Lemma pow2_pos (e : Z) : 0 <= e -> 0 < 2 ^ e.
Proof. intros H. apply Z.pow_pos_nonneg; lia. Qed.

Lemma round_binary64_nonneg (p q : Z) :
  0 <= p -> 0 < q ->
  match Num.round_binary64 p q with
  | Num.Finite m e => 0 <= m
  | Num.Inf => True
  end.
Proof.
  intros Hp Hq. unfold Num.round_binary64.
  destruct (p =? 0); [lia|].
  set (e := Z.max (Num.floor_log2_ratio p q - 52) (-1074)).
  destruct (0 <=? e) eqn:Ee.
  - apply Z.leb_le in Ee. pose proof (pow2_pos e Ee) as Hpow.
    assert (Hden : 0 < q * 2 ^ e) by nia.
    pose proof (Z.div_pos p (q * 2 ^ e) Hp Hden) as Hm.
    cbn [andb].
    destruct (2 ^ 1024 <=? _); [exact I|].
    repeat destruct (_ <? _); try destruct (Z.even _); lia.
  - apply Z.leb_gt in Ee. pose proof (pow2_pos (- e) ltac:(lia)) as Hpow.
    assert (Hnum : 0 <= p * 2 ^ (- e)) by nia.
    pose proof (Z.div_pos (p * 2 ^ (- e)) q Hnum Hq) as Hm.
    cbn [andb].
    repeat destruct (_ <? _); try destruct (Z.even _); lia.
Qed.

Lemma py_int_nonneg (f : Num.float) (n : Z) :
  match f with Num.Finite m e => 0 <= m | Num.Inf => True end ->
  Num.py_int f = Ok n -> 0 <= n.
Proof.
  destruct f as [m e|]; [|discriminate].
  intros Hm H. cbn [Num.py_int] in H. injection H as <-.
  destruct (0 <=? e) eqn:Ee.
  - apply Z.leb_le in Ee. pose proof (pow2_pos e Ee). nia.
  - apply Z.leb_gt in Ee. apply Z.div_pos; [exact Hm|apply pow2_pos; lia].
Qed.

Lemma floor_log2_ratio_bound (p q : Z) :
  0 < p -> 0 < q -> p < q * 2 ^ 1023 -> Num.floor_log2_ratio p q <= 1022.
Proof.
  intros Hp Hq Hlt. unfold Num.floor_log2_ratio.
  set (d := Z.log2 p - Z.log2 q).
  assert (Hd : d <= 1023).
  { assert (Z.log2 p <= Z.log2 (q * 2 ^ 1023)) by (apply Z.log2_le_mono; lia).
    rewrite Z.log2_mul_pow2 in H by lia. subst d. lia. }
  destruct (0 <=? d) eqn:Ed.
  - destruct (q * 2 ^ d <=? p) eqn:Ea; [|lia].
    apply Z.leb_le in Ea.
    destruct (Z.eq_dec d 1023) as [E|E]; [|lia].
    rewrite E in Ea. lia.
  - apply Z.leb_gt in Ed. destruct (q <=? _); lia.
Qed.

(** A value below 2^1023 does not round to infinity. *)
Lemma round_binary64_finite (p q : Z) :
  0 <= p -> 0 < q -> p < q * 2 ^ 1023 -> Num.round_binary64 p q <> Num.Inf.
Proof.
  intros Hp Hq Hlt. unfold Num.round_binary64.
  destruct (p =? 0) eqn:E0; [discriminate|]. apply Z.eqb_neq in E0.
  pose proof (floor_log2_ratio_bound p q ltac:(lia) Hq Hlt) as Hfl.
  set (e := Z.max (Num.floor_log2_ratio p q - 52) (-1074)).
  assert (He : e <= 970) by (subst e; lia).
  destruct (0 <=? e) eqn:Ee; [|discriminate].
  apply Z.leb_le in Ee. cbn [andb].
  set (den := q * 2 ^ e).
  set (m := p / den).
  set (m' := if 2 * (p mod den) <? den then m
             else if den <? 2 * (p mod den) then m + 1
             else if Z.even m then m else m + 1).
  assert (Hm' : m' <= m + 1)
    by (subst m'; repeat destruct (_ <? _); try destruct (Z.even _); lia).
  pose proof (pow2_pos e Ee) as Hpow.
  assert (Hpow970 : 2 ^ e <= 2 ^ 970) by (apply Z.pow_le_mono_r; lia).
  assert (Hden : 0 < den) by (subst den; nia).
  assert (Hmden : m * den <= p).
  { subst m. pose proof (Z.mul_div_le p den Hden). lia. }
  assert (Hm2 : m * 2 ^ e < 2 ^ 1023).
  { apply (Z.mul_lt_mono_pos_l q); [exact Hq|].
    subst den. nia. }
  destruct (2 ^ 1024 <=? m' * 2 ^ e) eqn:Einf; [|discriminate].
  apply Z.leb_le in Einf. exfalso.
  assert (m' * 2 ^ e <= m * 2 ^ e + 2 ^ e) by nia.
  assert (2 ^ 1023 + 2 ^ 970 <= 2 ^ 1024) by (vm_compute; discriminate).
  lia.
Qed.

End FloatFacts.

Section ToIntFacts.

Lemma digit_value_range (c : ascii) :
  Str.is_digit c = true -> 0 <= Z.of_N (Str.code c) - 48 <= 9.
Proof.
  unfold Str.is_digit, Str.in_range.
  rewrite andb_true_iff, !N.leb_le. lia.
Qed.

(** The value and the count of the digits read. *)
Lemma read_digits_bounds (s : string) :
  forall acc n v m,
    0 <= acc ->
    Num.read_digits s acc n = Some (v, m) ->
    m = (n + String.length s)%nat /\
    all_chars Str.is_digit s = true /\
    acc * 10 ^ Z.of_nat (String.length s) <= v
    < (acc + 1) * 10 ^ Z.of_nat (String.length s).
Proof.
  induction s as [|c s IH]; intros acc n v m Hacc H.
  - cbn in H. injection H as <- <-. cbn. split; [lia|]. split; [reflexivity|lia].
  - cbn [Num.read_digits] in H.
    destruct (Str.is_digit c) eqn:Ec; [|discriminate].
    pose proof (digit_value_range c Ec) as Hc.
    apply IH in H; [|lia].
    destruct H as (-> & Hall & Hv).
    cbn [String.length all_chars]. rewrite Ec, Hall.
    split; [lia|]. split; [reflexivity|].
    rewrite Nat2Z.inj_succ, Z.pow_succ_r by lia.
    pose proof (pow2_pos 0 ltac:(lia)).
    assert (0 < 10 ^ Z.of_nat (String.length s))
      by (apply Z.pow_pos_nonneg; lia).
    nia.
Qed.

Lemma read_digits_all (s : string) :
  all_chars Str.is_digit s = true ->
  forall acc n, exists v, Num.read_digits s acc n = Some (v, (n + String.length s)%nat).
Proof.
  induction s as [|c s IH]; intros Hall acc n.
  - exists acc. cbn. rewrite Nat.add_0_r. reflexivity.
  - cbn [all_chars] in Hall. apply andb_true_iff in Hall.
    destruct Hall as [Hc Hs]. cbn [Num.read_digits]. rewrite Hc.
    destruct (IH Hs (10 * acc + (Z.of_N (Str.code c) - 48)) (S n)) as [v Hv].
    exists v. rewrite Hv. cbn [String.length]. f_equal. f_equal. lia.
Qed.

Lemma split_dot_length (s : string) :
  let '(ip, fp) := Num.split_dot s in
  (String.length ip +
   match fp with Some f => String.length f | None => 0 end
   <= String.length s)%nat.
Proof.
  induction s as [|c s IH]; [cbn; lia|].
  cbn [Num.split_dot].
  destruct (Ascii.eqb c "."); [cbn; lia|].
  destruct (Num.split_dot s) as [a b]. cbn [String.length]. lia.
Qed.

Lemma length_remove_char (x : ascii) (s : string) :
  (String.length (Str.remove_char x s) <= String.length s)%nat.
Proof.
  induction s as [|c s IH]; [cbn; lia|].
  cbn [Str.remove_char]. destruct (Ascii.eqb c x); cbn [String.length]; lia.
Qed.

Lemma pow10_le_pow2 (a : nat) :
  (a <= 307)%nat -> 10 ^ Z.of_nat a <= 2 ^ 1023.
Proof.
  intros Ha.
  apply Z.le_trans with (10 ^ 307).
  - apply Z.pow_le_mono_r; lia.
  - vm_compute. discriminate.
Qed.

(** [float] of text of at most 307 characters is finite or an error. *)
Lemma py_float_short (x : string) :
  (String.length x <= 307)%nat -> Num.py_float x <> Ok Num.Inf.
Proof.
  intros Hlen. unfold Num.py_float.
  pose proof (split_dot_length x) as Hsplit.
  destruct (Num.split_dot x) as [ip fp].
  destruct (Num.read_digits ip 0 0) as [[i a]|] eqn:Ei; [|destruct fp; discriminate].
  apply read_digits_bounds in Ei; [|lia].
  destruct Ei as (-> & _ & Hi). cbn [Nat.add] in *.
  destruct fp as [f|].
  - destruct (Num.read_digits f i 0) as [[v b]|] eqn:Ef; [|discriminate].
    apply read_digits_bounds in Ef; [|lia].
    destruct Ef as (-> & _ & Hv). cbn [Nat.add] in *.
    destruct (_ =? 0)%nat; [discriminate|].
    intros H. injection H as H. revert H.
    apply round_binary64_finite; [lia|apply Z.pow_pos_nonneg; lia|].
    pose proof (pow10_le_pow2 (String.length ip) ltac:(lia)) as Hp.
    assert (0 < 10 ^ Z.of_nat (String.length f))
      by (apply Z.pow_pos_nonneg; lia).
    nia.
  - destruct (_ =? 0)%nat; [discriminate|].
    intros H. injection H as H. revert H.
    apply round_binary64_finite; [lia|lia|].
    pose proof (pow10_le_pow2 (String.length ip) ltac:(lia)) as Hp. lia.
Qed.

Lemma py_float_nonneg (x : string) (f : Num.float) :
  Num.py_float x = Ok f ->
  match f with Num.Finite m e => 0 <= m | Num.Inf => True end.
Proof.
  unfold Num.py_float.
  destruct (Num.split_dot x) as [ip fp].
  destruct (Num.read_digits ip 0 0) as [[i a]|] eqn:Ei; [|destruct fp; discriminate].
  apply read_digits_bounds in Ei; [|lia]. destruct Ei as (_ & _ & Hi).
  destruct fp as [fr|].
  - destruct (Num.read_digits fr i 0) as [[v b]|] eqn:Ef; [|discriminate].
    apply read_digits_bounds in Ef; [|lia]. destruct Ef as (_ & _ & Hv).
    destruct (_ =? 0)%nat; [discriminate|].
    intros H. injection H as <-.
    apply round_binary64_nonneg; [|apply Z.pow_pos_nonneg; lia].
    assert (0 <= 10 ^ Z.of_nat (String.length fr)) by (apply Z.pow_nonneg; lia).
    nia.
  - destruct (_ =? 0)%nat; [discriminate|].
    intros H. injection H as <-.
    apply round_binary64_nonneg; lia.
Qed.

(** An amount that [_to_int] returns is not negative. *)
Lemma _to_int_nonneg (x : option string) (n : Z) :
  _to_int x = Ok (Some n) -> 0 <= n.
Proof.
  unfold _to_int. destruct (negb (truthy x)); [discriminate|].
  destruct (Num.py_float _) as [f|[]] eqn:Ef; try discriminate.
  apply py_float_nonneg in Ef.
  destruct (Num.py_int f) as [v|[]] eqn:Ev; try discriminate.
  intros H. injection H as <-. exact (py_int_nonneg f v Ef Ev).
Qed.

Lemma py_float_raises (x : string) (e : exn) :
  Num.py_float x = Raise e -> e = ValueError.
Proof.
  unfold Num.py_float.
  destruct (Num.split_dot x) as [ip [fp|]];
    destruct (Num.read_digits ip 0 0) as [[i a]|];
    try (intros H; injection H as <-; reflexivity).
  - destruct (Num.read_digits fp i 0) as [[v b]|];
      [destruct (a + b =? 0)%nat|];
      try discriminate; intros H; injection H as <-; reflexivity.
  - destruct (a =? 0)%nat;
      try discriminate; intros H; injection H as <-; reflexivity.
Qed.

(** [_to_int] of text of at most 307 characters raises nothing. *)
Lemma _to_int_short (x : option string) :
  (String.length (fillna "" x) <= 307)%nat -> exists v, _to_int x = Ok v.
Proof.
  intros Hlen. unfold _to_int. destruct (negb (truthy x)); [eexists; reflexivity|].
  pose proof (length_remove_char "," (fillna "" x)) as Hrm.
  pose proof (py_float_short (Str.remove_char "," (fillna "" x)) ltac:(lia)) as Hfin.
  destruct (Num.py_float _) as [f|e] eqn:Ef.
  - destruct f as [m e|]; [|congruence].
    cbn [Num.py_int]. eexists. reflexivity.
  - apply py_float_raises in Ef. subst e. eexists. reflexivity.
Qed.

End ToIntFacts.

(** ** Whitespace normalisation *)

Section Normalisation.

Lemma append_nil_r (s : string) : (s ++ "")%string = s.
Proof. induction s as [|c s IH]; cbn; [reflexivity|rewrite IH; reflexivity]. Qed.

Lemma append_nonempty (w : string) (c : ascii) : (w ++ String c "")%string <> "".
Proof. destruct w; discriminate. Qed.

Lemma split_from_words (s : string) :
  forall w,
    all_chars (fun c => negb (Str.is_space c)) w = true ->
    Forall word_ok (Str.split_from w s).
Proof.
  induction s as [|c s IH]; intros w Hw; cbn [Str.split_from].
  - destruct (String.eqb_spec w ""); [constructor|].
    constructor; [split; assumption|constructor].
  - destruct (Str.is_space c) eqn:Ec.
    + destruct (String.eqb_spec w "").
      * apply IH. reflexivity.
      * constructor; [split; assumption|apply IH; reflexivity].
    + apply IH. rewrite all_chars_app, Hw. cbn. rewrite Ec. reflexivity.
Qed.

Lemma split_from_word (u s : string) :
  all_chars (fun c => negb (Str.is_space c)) u = true ->
  forall w, Str.split_from w (u ++ s) = Str.split_from (w ++ u) s.
Proof.
  induction u as [|c u IH]; intros Hu w.
  - rewrite append_nil_r. reflexivity.
  - cbn [all_chars] in Hu. apply andb_true_iff in Hu. destruct Hu as [Hc Hu].
    apply negb_true_iff in Hc.
    change (String c u ++ s)%string with (String c (u ++ s)).
    cbn [Str.split_from]. rewrite Hc, (IH Hu), append_assoc. reflexivity.
Qed.

(** Splitting the joined words gives the words back. *)
Lemma split_join (ws : list string) :
  Forall word_ok ws -> Str.split (Str.join " " ws) = ws.
Proof.
  unfold Str.split.
  induction 1 as [|w ws [Hne Hw] Hws IH]; [reflexivity|].
  destruct ws as [|w2 ws'].
  - cbn [Str.join]. rewrite <- (append_nil_r w) at 1.
    rewrite (split_from_word w "" Hw). cbn [Str.split_from String.append].
    destruct (String.eqb_spec w ""); [contradiction|reflexivity].
  - change (Str.join " " (w :: w2 :: ws'))
      with (w ++ String " " (Str.join " " (w2 :: ws')))%string.
    rewrite (split_from_word w _ Hw).
    cbn [Str.split_from String.append].
    change (Str.is_space " ") with true. cbv iota.
    destruct (String.eqb_spec w ""); [contradiction|].
    rewrite IH. reflexivity.
Qed.

Lemma split_words (s : string) : Forall word_ok (Str.split s).
Proof. apply split_from_words. reflexivity. Qed.

Lemma normalise_idempotent (s : string) : normalise (normalise s) = normalise s.
Proof.
  unfold normalise. rewrite split_join by apply split_words. reflexivity.
Qed.

Lemma length_join_cons (w : string) (l : list string) :
  (String.length (Str.join " " (w :: l))
   <= String.length w + 1 + String.length (Str.join " " l))%nat.
Proof.
  destruct l as [|w2 l]; cbn [Str.join]; [lia|].
  rewrite length_append. cbn [String.append String.length]. lia.
Qed.

Lemma length_join_split_from (s : string) :
  forall w,
    (String.length (Str.join " " (Str.split_from w s))
     <= String.length w + String.length s)%nat.
Proof.
  induction s as [|c s IH]; intros w; cbn [Str.split_from].
  - destruct (String.eqb w ""); cbn; lia.
  - cbn [String.length]. destruct (Str.is_space c).
    + destruct (String.eqb w "").
      * specialize (IH ""). cbn [String.length] in IH. lia.
      * pose proof (length_join_cons w (Str.split_from "" s)).
        specialize (IH ""). cbn [String.length] in IH. lia.
    + specialize (IH (w ++ String c "")%string).
      rewrite length_append in IH. cbn [String.length] in IH. lia.
Qed.

(** Normalising does not lengthen a body. *)
Lemma length_normalise (s : string) :
  (String.length (normalise s) <= String.length s)%nat.
Proof.
  unfold normalise, Str.split.
  pose proof (length_join_split_from s ""). cbn [String.length] in H. lia.
Qed.

End Normalisation.

(** X3.  Extraction reads the whitespace-normalised body only: parsing
    the normalised body gives the record of the original body, but for
    [raw_sms]; normalising twice changes nothing, and a normalised body
    is a sequence of non-empty blank-free words joined by single
    spaces. *)
Theorem parse_message_normalised :
  forall (id : Z) (ty sms : string),
    parse_message id ty (normalise sms)
    = (r <- parse_message id ty sms ;; Ok (with_raw_sms (normalise sms) r)) /\
    normalise (normalise sms) = normalise sms /\
    (exists ws, normalise sms = Str.join " " ws /\ Forall word_ok ws) /\
    (String.length (normalise sms) <= String.length sms)%nat.
Proof.
  intros id ty sms. split; [|split; [|split]].
  - unfold parse_message.
    change (Str.join " " (Str.split (normalise sms)))
      with (normalise (normalise sms)).
    rewrite normalise_idempotent.
    change (Str.join " " (Str.split sms)) with (normalise sms).
    destruct (dict_get TYPE_MAP ty ("unknown", "other")) as [dir cat].
    destruct (match Re.search _AMOUNT_RE (normalise sms) with
              | Some m => _to_int (Re.group m)
              | None => Ok None
              end) as [amt|e]; [|reflexivity].
    unfold Py.bind at 1 4.
    destruct (match Re.search _FEE_RE (normalise sms) with
              | Some m => _to_int (Re.group m)
              | None => Ok None
              end) as [fee|e]; [|reflexivity].
    unfold Py.bind at 1 3.
    destruct (match Re.search _BAL_RE (normalise sms) with
              | Some m => _to_int (Re.group m)
              | None => Ok None
              end) as [bal|e]; reflexivity.
  - apply normalise_idempotent.
  - exists (Str.split sms). split; [reflexivity|apply split_words].
  - apply length_normalise.
Qed.

(** ** Number tokens *)

Section NumberTokens.

Ltac by_cases_on c :=
  destruct c as [[] [] [] [] [] [] [] []]; vm_compute; congruence.

Lemma digit_not_comma (c : ascii) :
  Str.is_digit c = true -> Ascii.eqb c "," = false.
Proof. by_cases_on c. Qed.

Lemma digit_not_point (c : ascii) :
  Str.is_digit c = true -> Ascii.eqb c "." = false.
Proof. by_cases_on c. Qed.

Lemma number_char_digit (c : ascii) :
  digit_or_comma c = true -> Ascii.eqb c "," = false -> Str.is_digit c = true.
Proof.
  unfold digit_or_comma. intros H E. rewrite E, orb_false_r in H. exact H.
Qed.

Lemma all_chars_take_while (p : ascii -> bool) (s : string) :
  all_chars p (take_while p s) = true.
Proof.
  induction s as [|c s IH]; [reflexivity|].
  cbn [take_while]. destruct (p c) eqn:E; [|reflexivity].
  cbn [all_chars]. rewrite E, IH. reflexivity.
Qed.

Lemma remove_comma_digits (u : string) :
  all_chars digit_or_comma u = true ->
  all_chars Str.is_digit (Str.remove_char "," u) = true.
Proof.
  induction u as [|c u IH]; [reflexivity|].
  cbn [all_chars Str.remove_char]. rewrite andb_true_iff. intros [Hc Hu].
  destruct (Ascii.eqb c ",") eqn:E; [exact (IH Hu)|].
  cbn [all_chars]. rewrite (number_char_digit c Hc E), (IH Hu). reflexivity.
Qed.

Lemma remove_comma_id (v : string) :
  all_chars Str.is_digit v = true -> Str.remove_char "," v = v.
Proof.
  induction v as [|c v IH]; [reflexivity|].
  cbn [all_chars Str.remove_char]. rewrite andb_true_iff. intros [Hc Hv].
  rewrite (digit_not_comma c Hc), (IH Hv). reflexivity.
Qed.

Lemma remove_char_app (x : ascii) (a b : string) :
  Str.remove_char x (a ++ b)
  = (Str.remove_char x a ++ Str.remove_char x b)%string.
Proof.
  induction a as [|c a IH]; [reflexivity|].
  cbn [String.append Str.remove_char].
  destruct (Ascii.eqb c x); rewrite IH; reflexivity.
Qed.

Lemma split_dot_digits (ds rest : string) :
  all_chars Str.is_digit ds = true ->
  Num.split_dot (ds ++ rest)
  = ((ds ++ fst (Num.split_dot rest))%string, snd (Num.split_dot rest)).
Proof.
  induction ds as [|c ds IH]; intros H.
  - cbn [String.append]. destruct (Num.split_dot rest); reflexivity.
  - cbn [all_chars] in H. apply andb_true_iff in H. destruct H as [Hc Hds].
    cbn [String.append Num.split_dot].
    rewrite (digit_not_point c Hc), (IH Hds). reflexivity.
Qed.

(** The number the amount pattern reads is text [float] accepts. *)
Lemma number_token_float (s t rest : string) :
  number_at s = Some (t, rest) ->
  t <> "" /\ exists f, Num.py_float (Str.remove_char "," t) = Ok f.
Proof.
  unfold number_at. destruct s as [|d s1]; [discriminate|].
  destruct (Str.is_digit d) eqn:Hd; [|discriminate].
  set (u := take_while digit_or_comma s1).
  pose proof (all_chars_take_while digit_or_comma s1) as Hu. fold u in Hu.
  set (D := String d (Str.remove_char "," u)).
  assert (HD : all_chars Str.is_digit D = true).
  { subst D. cbn [all_chars]. rewrite Hd, (remove_comma_digits u Hu). reflexivity. }
  assert (Hrm : Str.remove_char "," (String d u) = D).
  { cbn [Str.remove_char]. rewrite (digit_not_comma d Hd). reflexivity. }
  assert (Hwhole : exists f, Num.py_float D = Ok f).
  { unfold Num.py_float.
    rewrite <- (append_nil_r D), (split_dot_digits D "" HD).
    cbn [Num.split_dot fst snd]. rewrite append_nil_r.
    destruct (read_digits_all D HD 0 0%nat) as [v Hv]. rewrite Hv.
    subst D. cbn [String.length Nat.add Nat.eqb]. eexists. reflexivity. }
  assert (Hfrac : forall v, all_chars Str.is_digit v = true ->
             exists f,
               Num.py_float (Str.remove_char "," (String d u ++ "." ++ v)) = Ok f).
  { intros v Hv.
    rewrite remove_char_app, Hrm.
    change (Str.remove_char "," ("." ++ v))
      with (String "." (Str.remove_char "," v)).
    rewrite (remove_comma_id v Hv).
    unfold Num.py_float. rewrite (split_dot_digits D _ HD).
    change (Num.split_dot (String "." v)) with (EmptyString, Some v).
    cbn [fst snd]. rewrite append_nil_r.
    destruct (read_digits_all D HD 0 0%nat) as [i Hi]. rewrite Hi.
    destruct (read_digits_all v Hv i 0%nat) as [w Hw]. rewrite Hw.
    subst D. cbn [String.length Nat.add Nat.eqb]. eexists. reflexivity. }
  destruct (drop_while digit_or_comma s1) as [|c s2'].
  - intros H. injection H as <- <-. split; [discriminate|].
    rewrite Hrm. exact Hwhole.
  - destruct (Ascii.eqb c "." && negb (String.eqb (take_while Str.is_digit s2') ""));
      intros H; injection H as <- <-; (split; [discriminate|]).
    + apply Hfrac. apply all_chars_take_while.
    + rewrite Hrm. exact Hwhole.
Qed.

Lemma first_amount_inv (s t : string) :
  first_amount s = Some t ->
  exists s', suffix_of s' s /\ amount_here s' = Some t.
Proof.
  induction s as [|c s IH].
  - cbn [first_amount]. destruct (amount_here "") eqn:E; [|discriminate].
    intros H. injection H as <-. exists EmptyString. split; [apply suffix_of_refl|exact E].
  - change (first_amount (String c s))
      with (match amount_here (String c s) with
            | Some t => Some t
            | None => first_amount s
            end).
    destruct (amount_here (String c s)) eqn:E.
    + intros H. injection H as <-.
      exists (String c s). split; [apply suffix_of_refl|exact E].
    + intros H. destruct (IH H) as (s' & Hsuf & Hs').
      exists s'. split; [apply suffix_of_cons; exact Hsuf|exact Hs'].
Qed.

Lemma first_amount_finds (s' s : string) :
  suffix_of s' s -> amount_here s' <> None -> first_amount s <> None.
Proof.
  intros [pre ->] H. induction pre as [|c pre IH].
  - cbn [String.append]. destruct s' as [|c s'].
    + cbn [first_amount]. destruct (amount_here ""); [discriminate|contradiction].
    + cbn [first_amount].
      destruct (amount_here (String c s')); [discriminate|contradiction].
  - change (first_amount (String c pre ++ s'))
      with (match amount_here (String c (pre ++ s')) with
            | Some t => Some t
            | None => first_amount (pre ++ s')
            end).
    destruct (amount_here (String c (pre ++ s'))); [discriminate|exact IH].
Qed.

(** The amount [_to_int] makes of the first amount of a body, when it
    raises nothing, is a number exactly when there is a first amount. *)
Lemma first_amount_to_int (s : string) (v : option Z) :
  _to_int (first_amount s) = Ok v -> (v = None <-> first_amount s = None).
Proof.
  destruct (first_amount s) as [t|] eqn:E.
  - intros H. split; [|discriminate]. intros ->. exfalso.
    apply first_amount_inv in E. destruct E as (s' & _ & Hs').
    unfold amount_here in Hs'.
    destruct (number_at s') as [[tok rest]|] eqn:En; [|discriminate].
    destruct (rwf_follows rest); [|discriminate]. injection Hs' as ->.
    destruct (number_token_float s' t rest En) as (Hne & f & Hf).
    unfold _to_int in H.
    assert (Ht : truthy (Some t) = true).
    { cbn. destruct (String.eqb_spec t ""); [contradiction|reflexivity]. }
    rewrite Ht in H. cbn [negb fillna] in H. rewrite Hf in H.
    destruct f; cbn [Num.py_int] in H; discriminate.
  - cbn. intros H. injection H as <-. tauto.
Qed.

(** Where the fee pattern or the balance pattern matches, the amount
    pattern matches further on. *)
Lemma labelled_number_amount (label : string) (prev : option ascii) (s : string)
    (m : Re.Match) :
  Re.match_at
    (Re.compile (Re.Seq [Re.Word label; Re.Star space; sep; Re.Star space;
                         Re.Group number; Re.Star space; Re.Word "RWF"]) true)
    prev s = Some m ->
  exists s', suffix_of s' s /\ amount_here s' <> None.
Proof.
  unfold Re.match_at. cbn [Re.expr Re.ignorecase].
  change (Re.Seq [Re.Word label; Re.Star space; sep; Re.Star space;
                  Re.Group number; Re.Star space; Re.Word "RWF"])
    with (Re.Cat (Re.Word label)
            (Re.Cat (Re.Star space)
               (Re.Cat sep (Re.Cat (Re.Star space) (Re.expr _AMOUNT_RE))))).
  intros H.
  assert (Hword : forall w t, ~ captured_ok true (Re.Word w) t).
  { induction w as [|c w IH]; intros t; cbn; [tauto|].
    intros [F|F]; [exact F|exact (IH t F)]. }
  assert (Hstep : forall a b p0 s0 v,
             (forall t, ~ captured_ok true a t) ->
             Re.run true (Re.Cat a b) p0 s0 None Re.finish = Some v ->
             exists p1 s1, suffix_of s1 s0 /\
                           Re.run true b p1 s1 None Re.finish = Some v).
  { intros a b p0 s0 v Hno Hrun. cbn [Re.run] in Hrun.
    apply run_consumes in Hrun.
    destruct Hrun as (tok & rest & p1 & g1 & Hs & Hk & _ & _ & Hg).
    destruct Hg as [->|(t & _ & Ht & _)]; [|exfalso; exact (Hno t Ht)].
    exists p1, rest. split; [exists tok; exact Hs|exact Hk]. }
  apply Hstep in H; [|apply Hword]. destruct H as (p1 & s1 & Hsuf1 & H).
  apply Hstep in H; [|cbn; tauto]. destruct H as (p2 & s2 & Hsuf2 & H).
  apply Hstep in H; [|cbn; tauto]. destruct H as (p3 & s3 & Hsuf3 & H).
  apply Hstep in H; [|cbn; tauto]. destruct H as (p4 & s4 & Hsuf4 & H).
  exists s4. split.
  - destruct Hsuf1 as [a ->], Hsuf2 as [b ->], Hsuf3 as [c ->], Hsuf4 as [d ->].
    exists (a ++ b ++ c ++ d)%string. rewrite !append_assoc. reflexivity.
  - change (Re.run true (Re.expr _AMOUNT_RE) p4 s4 None Re.finish)
      with (Re.match_at _AMOUNT_RE p4 s4) in H.
    rewrite match_at_amount in H.
    destruct (amount_here s4); [discriminate|discriminate].
Qed.

Lemma labelled_search_amount (p : Re.pattern) (s : string) :
  p = _FEE_RE \/ p = _BAL_RE ->
  Re.search p s <> None -> first_amount s <> None.
Proof.
  intros Hp Hs. unfold Re.search in Hs.
  destruct (Re.search_from p None s) as [m|] eqn:E; [|contradiction].
  apply search_from_match in E. destruct E as (prev' & s' & Hsuf & Hm).
  assert (Hex : exists s'', suffix_of s'' s' /\ amount_here s'' <> None).
  { destruct Hp as [-> | ->].
    - exact (labelled_number_amount "Fee" prev' s' m Hm).
    - exact (labelled_number_amount "Balance" prev' s' m Hm). }
  destruct Hex as (s'' & Hsuf' & Hne).
  apply (first_amount_finds s'' s); [|exact Hne].
  destruct Hsuf as [a ->], Hsuf' as [b ->].
  exists (a ++ b)%string. rewrite append_assoc. reflexivity.
Qed.

End NumberTokens.

(** ** Amounts of a parsed record *)

(** X4.  The amount, the fee and the balance of a returned record are
    never negative. *)
Theorem parsed_amounts_nonnegative :
  forall (id : Z) (ty sms : string) (r : ParsedTransaction),
    parse_message id ty sms = Ok r ->
    (forall v, amount_rwf r = Some v -> 0 <= v) /\
    (forall v, fee_rwf r = Some v -> 0 <= v) /\
    (forall v, balance_rwf r = Some v -> 0 <= v).
Proof.
  intros id ty sms r H.
  destruct (parse_message_inv id ty sms r H) as (Ha & Hf & Hb & _).
  split; [|split]; intros v Hv.
  - rewrite Hv in Ha. exact (_to_int_nonneg _ _ Ha).
  - rewrite Hv in Hf. exact (_to_int_nonneg _ _ Hf).
  - rewrite Hv in Hb. exact (_to_int_nonneg _ _ Hb).
Qed.

(** The amount of scenario A. *)
Lemma parsed_amounts_nonnegative_witness :
  exists r,
    parse_message 1 "sms_received_from_momo" scenario_a_sms = Ok r /\
    (forall v, amount_rwf r = Some v -> 0 <= v).
Proof.
  eexists. split; [vm_compute; reflexivity|].
  exact (proj1 (parsed_amounts_nonnegative 1 "sms_received_from_momo"
                  scenario_a_sms _ ltac:(vm_compute; reflexivity))).
Defined.

(** X5.  A returned record has an amount exactly when the normalised
    body holds a number followed by RWF, and a record with a fee or a
    balance has an amount. *)
Theorem amount_present_iff_number_before_rwf :
  forall (id : Z) (ty sms : string) (r : ParsedTransaction),
    parse_message id ty sms = Ok r ->
    (amount_rwf r = None <-> first_amount (normalise sms) = None) /\
    (fee_rwf r <> None \/ balance_rwf r <> None -> amount_rwf r <> None).
Proof.
  intros id ty sms r H.
  pose proof (parse_message_amount id ty sms r H) as Hamt.
  pose proof (first_amount_to_int _ _ Hamt) as Hiff.
  split; [exact Hiff|].
  destruct (parse_message_inv id ty sms r H) as (_ & Hf & Hb & _).
  assert (Hlab : forall p v,
             p = _FEE_RE \/ p = _BAL_RE ->
             _to_int (group_of (Re.search p (normalise sms))) = Ok v ->
             v <> None -> first_amount (normalise sms) <> None).
  { intros p v Hp Hv Hne. apply (labelled_search_amount p); [exact Hp|].
    intros Hnone. rewrite Hnone in Hv. cbn in Hv. congruence. }
  intros [Hfee|Hbal] Hnone; apply Hiff in Hnone.
  - exact (Hlab _FEE_RE _ (or_introl eq_refl) Hf Hfee Hnone).
  - exact (Hlab _BAL_RE _ (or_intror eq_refl) Hb Hbal Hnone).
Qed.

(** A payment with a fee has an amount. *)
Lemma amount_present_iff_number_before_rwf_witness :
  exists r,
    parse_message 2 "sms_payment_to_merchant"
      "Payment of 2,000 RWF to Shop Ltd was completed. Fee: 20 RWF." = Ok r /\
    amount_rwf r <> None.
Proof.
  eexists. split; [vm_compute; reflexivity|].
  apply (proj2 (amount_present_iff_number_before_rwf 2 "sms_payment_to_merchant"
                  "Payment of 2,000 RWF to Shop Ltd was completed. Fee: 20 RWF."
                  _ ltac:(vm_compute; reflexivity))).
  left. vm_compute. intros H. discriminate H.
Defined.

(** X6.  A body of at most 307 characters is parsed into a record: no
    exception leaves [parse_message]. *)
Theorem short_message_parses :
  forall (id : Z) (ty sms : string),
    (String.length sms <= 307)%nat ->
    exists r, parse_message id ty sms = Ok r.
Proof.
  intros id ty sms Hlen.
  assert (Hint : forall p, exists v,
             match Re.search p (normalise sms) with
             | Some m => _to_int (Re.group m)
             | None => Ok None
             end = Ok v).
  { intros p.
    assert (E : match Re.search p (normalise sms) with
                | Some m => _to_int (Re.group m)
                | None => Ok None
                end = _to_int (group_of (Re.search p (normalise sms)))).
    { destruct (Re.search p (normalise sms)); reflexivity. }
    rewrite E. apply _to_int_short.
    destruct (group_of (Re.search p (normalise sms))) as [t|] eqn:Eg.
    - apply search_captured in Eg. destruct Eg as [_ Hle].
      pose proof (length_normalise sms). cbn [fillna]. lia.
    - cbn. lia. }
  unfold parse_message.
  destruct (dict_get TYPE_MAP ty ("unknown", "other")) as [dir cat].
  change (Str.join " " (Str.split sms)) with (normalise sms).
  destruct (Hint _AMOUNT_RE) as [a ->].
  destruct (Hint _FEE_RE) as [f ->].
  destruct (Hint _BAL_RE) as [b ->].
  cbn [Py.bind]. eexists. reflexivity.
Qed.

(** Scenario A is short enough. *)
Lemma short_message_parses_witness :
  exists r, parse_message 1 "sms_received_from_momo" scenario_a_sms = Ok r.
Proof.
  apply (short_message_parses 1 "sms_received_from_momo" scenario_a_sms).
  apply Nat.leb_le. vm_compute. reflexivity.
Defined.

Section ExactAmounts.

(** Below 2^53 a whole number is a binary64 value: rounding leaves it
    alone. *)
Lemma round_binary64_exact (n : Z) :
  0 <= n < 2 ^ 53 -> Num.py_int (Num.round_binary64 n 1) = Ok n.
Proof.
  intros [Hlo Hhi]. unfold Num.round_binary64.
  destruct (n =? 0) eqn:E0.
  - apply Z.eqb_eq in E0. subst n. reflexivity.
  - apply Z.eqb_neq in E0.
    assert (Hpos : 0 < n) by lia.
    assert (Hlog : 0 <= Z.log2 n < 53).
    { split; [apply Z.log2_nonneg|]. apply Z.log2_lt_pow2; lia. }
    assert (Hfl : Num.floor_log2_ratio n 1 = Z.log2 n).
    { unfold Num.floor_log2_ratio.
      change (Z.log2 1) with 0. rewrite Z.sub_0_r.
      destruct (0 <=? Z.log2 n) eqn:E; [|apply Z.leb_gt in E; lia].
      rewrite Z.mul_1_l.
      destruct (Z.log2_spec n Hpos) as [Hle _].
      apply Z.leb_le in Hle. rewrite Hle. reflexivity. }
    rewrite Hfl.
    set (e := Z.max (Z.log2 n - 52) (-1074)).
    assert (He : e = Z.log2 n - 52) by (subst e; lia).
    destruct (0 <=? e) eqn:Ee.
    + apply Z.leb_le in Ee. assert (e = 0) by lia.
      replace e with 0 in * by lia.
      change (2 ^ 0) with 1. rewrite !Z.mul_1_l.
      rewrite Z.div_1_r, Z.mod_1_r. cbn [Z.mul Z.ltb Z.compare].
      rewrite Z.mul_1_r.
      assert (Hov : (2 ^ 1024 <=? n) = false).
      { apply Z.leb_gt. assert (2 ^ 53 < 2 ^ 1024) by (vm_compute; reflexivity). lia. }
      rewrite Hov. cbn [andb Num.py_int Z.leb Z.compare].
      change (2 ^ 0) with 1. rewrite Z.mul_1_r. reflexivity.
    + apply Z.leb_gt in Ee.
      rewrite Z.div_1_r, Z.mod_1_r. cbn [Z.mul Z.ltb Z.compare andb Num.py_int].
      assert (Ee' : (0 <=? e) = false) by (apply Z.leb_gt; exact Ee).
      rewrite Ee'.
      rewrite Z.div_mul; [reflexivity|].
      assert (0 < 2 ^ (- e)) by (apply Z.pow_pos_nonneg; lia). lia.
Qed.

Lemma read_digits_decimal_value (s : string) :
  all_chars digit_or_comma s = true ->
  forall acc n,
    exists k, Num.read_digits (Str.remove_char "," s) acc n
              = Some (decimal_value acc s, k) /\
              (n <= k)%nat.
Proof.
  induction s as [|c s IH]; intros Hall acc n.
  - exists n. split; [reflexivity|lia].
  - cbn [all_chars] in Hall. apply andb_true_iff in Hall.
    destruct Hall as [Hc Hs].
    cbn [Str.remove_char decimal_value].
    destruct (Ascii.eqb c ",") eqn:E.
    + exact (IH Hs acc n).
    + cbn [Num.read_digits]. rewrite (number_char_digit c Hc E).
      destruct (IH Hs (10 * acc + (Z.of_N (Str.code c) - 48)) (S n))
        as (k & Hk & Hle).
      exists k. split; [exact Hk|lia].
Qed.

Lemma decimal_value_nonneg (s : string) :
  all_chars digit_or_comma s = true ->
  forall acc, 0 <= acc -> 0 <= decimal_value acc s.
Proof.
  induction s as [|c s IH]; intros Hall acc Hacc; [exact Hacc|].
  cbn [all_chars] in Hall. apply andb_true_iff in Hall.
  destruct Hall as [Hc Hs]. cbn [decimal_value].
  destruct (Ascii.eqb c ",") eqn:E; [exact (IH Hs acc Hacc)|].
  apply (IH Hs).
  pose proof (digit_value_range c (number_char_digit c Hc E)). lia.
Qed.

End ExactAmounts.

(** X7.  Digits with thousands separators that start with a digit and
    write a whole number below 2^53 are read by [_to_int] as exactly
    that number: the passage through [float] loses nothing. *)
Theorem _to_int_exact_below_2_53 :
  forall (d : ascii) (u : string),
    Str.is_digit d = true ->
    all_chars digit_or_comma u = true ->
    decimal_value 0 (String d u) < 2 ^ 53 ->
    _to_int (Some (String d u)) = Ok (Some (decimal_value 0 (String d u))).
Proof.
  intros d u Hd Hu Hlt.
  assert (Hall : all_chars digit_or_comma (String d u) = true).
  { cbn [all_chars]. rewrite Hu. unfold digit_or_comma. rewrite Hd. reflexivity. }
  pose proof (decimal_value_nonneg _ Hall 0 ltac:(lia)) as Hge.
  destruct (read_digits_decimal_value _ Hall 0 0%nat) as (k & Hk & _).
  assert (Hk1 : (1 <= k)%nat).
  { cbn [Str.remove_char] in Hk. rewrite (digit_not_comma d Hd) in Hk.
    cbn [Num.read_digits] in Hk. rewrite Hd in Hk.
    apply read_digits_bounds in Hk;
      [|pose proof (digit_value_range d Hd); lia].
    destruct Hk as (-> & _). lia. }
  assert (Hdigits : all_chars Str.is_digit (Str.remove_char "," (String d u)) = true)
    by (apply remove_comma_digits; exact Hall).
  unfold _to_int. change (truthy (Some (String d u))) with true.
  cbn [negb fillna]. unfold Num.py_float.
  rewrite <- (append_nil_r (Str.remove_char "," (String d u))).
  rewrite (split_dot_digits _ "" Hdigits).
  cbn [Num.split_dot fst snd]. rewrite append_nil_r, Hk.
  destruct k as [|k]; [lia|]. cbn [Nat.eqb].
  rewrite (round_binary64_exact _ (conj Hge Hlt)). reflexivity.
Qed.

(** Five thousand, written with a separator. *)
Lemma _to_int_exact_below_2_53_witness :
  _to_int (Some "5,000") = Ok (Some 5000).
Proof.
  exact (_to_int_exact_below_2_53 "5" ",000" eq_refl eq_refl eq_refl).
Defined.

(** ** Period rows and ledger totals *)

Section Totals.

Context {A : Type}.

Lemma total_add (f g : A -> Z) (l : list A) :
  total (fun x => f x + g x) l = total f l + total g l.
Proof. unfold total. induction l as [|x l IH]; cbn in *; [reflexivity|lia]. Qed.

Lemma total_sub (f g : A -> Z) (l : list A) :
  total (fun x => f x - g x) l = total f l - total g l.
Proof. unfold total. induction l as [|x l IH]; cbn in *; [reflexivity|lia]. Qed.

Lemma total_ext (f g : A -> Z) (l : list A) :
  (forall x, In x l -> f x = g x) -> total f l = total g l.
Proof.
  induction l as [|x l IH]; intros H; cbn; [reflexivity|].
  fold (total f l). fold (total g l).
  rewrite (H x (or_introl eq_refl)), IH; [reflexivity|].
  intros y Hy. apply H. right. exact Hy.
Qed.

Lemma total_perm (f : A -> Z) (l l' : list A) :
  Permutation l l' -> total f l = total f l'.
Proof.
  induction 1 as [|x l l' _ IH|x y l|l l' l'' _ IH1 _ IH2]; cbn.
  - reflexivity.
  - unfold total in IH. lia.
  - lia.
  - congruence.
Qed.

Lemma total_map {B : Type} (g : A -> B) (f : B -> Z) (l : list A) :
  total f (map g l) = total (fun x => f (g x)) l.
Proof. unfold total. induction l as [|x l IH]; cbn in *; [reflexivity|lia]. Qed.

Lemma total_app (f : A -> Z) (a b : list A) :
  total f (a ++ b) = total f a + total f b.
Proof. unfold total. induction a as [|x a IH]; cbn in *; [reflexivity|lia]. Qed.

Lemma total_zero (l : list A) : total (fun _ => 0) l = 0.
Proof. unfold total. induction l as [|x l IH]; cbn in *; [reflexivity|lia]. Qed.

End Totals.

Section Partition.

Context {K : Type} (eqb : K -> K -> bool).
Hypothesis eqb_eq : forall a b, eqb a b = true <-> a = b.

(** Among distinct keys one key is met once. *)
Lemma total_indicator (k0 : K) (v : Z) (keys : list K) :
  NoDup keys ->
  total (fun k => if eqb k0 k then v else 0) keys
  = if existsb (eqb k0) keys then v else 0.
Proof.
  induction 1 as [|k keys Hk Hnd IH]; cbn; [reflexivity|].
  fold (total (fun k => if eqb k0 k then v else 0) keys). rewrite IH.
  destruct (eqb k0 k) eqn:E; cbn; [|reflexivity].
  apply eqb_eq in E. subst k.
  destruct (existsb (eqb k0) keys) eqn:Ex; [|lia].
  exfalso. apply Hk. apply existsb_exists in Ex.
  destruct Ex as (x & Hx & Ex). apply eqb_eq in Ex. subst x. exact Hx.
Qed.

(** Groups by distinct keys that cover the rows split the sum of the
    rows. *)
Lemma total_groups (key : Row -> K) (f : Row -> Z) (rows : list Row)
    (keys : list K) :
  NoDup keys ->
  (forall r, In r rows -> In (key r) keys) ->
  total (fun k => sum_where (fun r => eqb (key r) k) f rows) keys
  = sum_over f rows.
Proof.
  intros Hnd. induction rows as [|r rows IH]; intros Hcov.
  - cbn. apply total_zero.
  - unfold sum_where. cbn [sum_over fold_right].
    fold (sum_over f rows).
    rewrite (total_add (fun k => if eqb (key r) k then f r else 0)).
    rewrite (total_indicator (key r) (f r) keys Hnd).
    assert (Hex : existsb (eqb (key r)) keys = true).
    { apply existsb_exists. exists (key r).
      split; [apply Hcov; left; reflexivity|apply eqb_eq; reflexivity]. }
    rewrite Hex. f_equal.
    apply IH. intros x Hx. apply Hcov. right. exact Hx.
Qed.

End Partition.

Section SortedKeys.

Context {K : Type} (cmp : K -> K -> comparison).
Hypothesis cmp_refl : forall a, cmp a a = Eq.

Lemma sorted_cmp_NoDup (keys : list K) :
  StronglySorted (fun a b => cmp a b = Lt) keys -> NoDup keys.
Proof.
  induction 1 as [|x l Hs IH Hx]; constructor; [|exact IH].
  intros Hin. rewrite Forall_forall in Hx. specialize (Hx x Hin).
  rewrite cmp_refl in Hx. discriminate.
Qed.

End SortedKeys.

Section LedgerTotals.

Lemma sum_over_ones (rows : list Row) :
  sum_over (fun _ => 1) rows = Z.of_nat (List.length rows).
Proof.
  induction rows as [|r rows IH]; [reflexivity|].
  cbn [sum_over fold_right List.length]. fold (sum_over (fun _ => 1) rows).
  rewrite IH. lia.
Qed.

Lemma period_keys_NoDup (period : string) (rows : list Row) :
  NoDup (group_keys key_compare (map (period_key period) rows)).
Proof.
  apply (sorted_cmp_NoDup key_compare key_compare_refl).
  apply group_keys_sorted.
  - exact key_compare_eq.
  - exact key_compare_antisym.
  - exact key_compare_trans.
Qed.

(** The rows of a period summary, column by column, add up to the sums
    over the ledger. *)
Lemma aggregate_totals (period : string) (rows : list Row) :
  let out := map (aggregate period rows)
               (group_keys key_compare (map (period_key period) rows)) in
  total p_tx_count out = Z.of_nat (List.length rows) /\
  total p_income_rwf out = sum_over (amount_if "in") rows /\
  total p_expense_rwf out = sum_over (amount_if "out") rows /\
  total p_fees_rwf out = sum_over fee_of rows.
Proof.
  intros out. subst out.
  set (keys := group_keys key_compare (map (period_key period) rows)).
  assert (Hnd : NoDup keys) by apply period_keys_NoDup.
  assert (Hcov : forall r, In r rows -> In (period_key period r) keys).
  { intros r Hr. apply (group_keys_In key_compare key_compare_eq).
    apply in_map. exact Hr. }
  pose proof (total_groups key_eqb key_eqb_eq (period_key period)) as Hsplit.
  rewrite !total_map. cbn [aggregate p_tx_count p_income_rwf p_expense_rwf p_fees_rwf].
  split; [|split; [|split]].
  - rewrite <- sum_over_ones, <- (Hsplit (fun _ => 1) rows keys Hnd Hcov).
    apply total_ext. intros k _. apply length_filter_sum.
  - rewrite <- (Hsplit (amount_if "in") rows keys Hnd Hcov).
    apply total_ext. intros k _. rewrite sum_skipna_filter.
    apply sum_where_ext. exact fillna_income_amt.
  - rewrite <- (Hsplit (amount_if "out") rows keys Hnd Hcov).
    apply total_ext. intros k _. rewrite sum_skipna_filter.
    apply sum_where_ext. exact fillna_expense_amt.
  - rewrite <- (Hsplit fee_of rows keys Hnd Hcov).
    apply total_ext. intros k _. rewrite sum_skipna_filter.
    apply sum_where_ext. reflexivity.
Qed.

Lemma summary_sums (self : MoMoAnalyzer) :
  total_in_rwf (summary self) = sum_over (amount_if "in") (df self) /\
  total_out_rwf (summary self) = sum_over (amount_if "out") (df self) /\
  total_fees_rwf (summary self) = sum_over fee_of (df self) /\
  net_rwf (summary self)
  = sum_over (amount_if "in") (df self) - sum_over (amount_if "out") (df self)
    - sum_over fee_of (df self) /\
  tx_count (summary self) = Z.of_nat (List.length (df self)).
Proof.
  unfold summary, _split_income_expense.
  cbn [total_in_rwf total_out_rwf total_fees_rwf net_rwf tx_count].
  rewrite !sum_direction, (sum_skipna_fillna (fun r => fee_rwf (tx r))).
  repeat split; reflexivity.
Qed.

Lemma period_rows_net (period : string) (rows : list Row) (keys : list key) :
  total p_net_rwf (map (aggregate period rows) keys)
  = total p_income_rwf (map (aggregate period rows) keys)
    - total p_expense_rwf (map (aggregate period rows) keys)
    - total p_fees_rwf (map (aggregate period rows) keys).
Proof.
  rewrite !total_map, <- !total_sub. reflexivity.
Qed.

End LedgerTotals.



(** ** Categories and counterparties *)

Section LabelledSums.

Lemma insert_key_length {K : Type} (cmp : K -> K -> comparison) (k : K)
    (ks : list K) :
  (List.length (insert_key cmp k ks) <= S (List.length ks))%nat.
Proof.
  induction ks as [|x ks IH]; cbn; [lia|].
  destruct (cmp k x); cbn; lia.
Qed.

Lemma group_keys_length {K : Type} (cmp : K -> K -> comparison) (col : list K) :
  (List.length (group_keys cmp col) <= List.length col)%nat.
Proof.
  induction col as [|k col IH]; cbn; [lia|].
  fold (group_keys cmp col).
  pose proof (insert_key_length cmp k (group_keys cmp col)). lia.
Qed.

Lemma label_keys_NoDup (col : list string) :
  NoDup (group_keys String.compare col).
Proof.
  apply sorted_lt_NoDup. apply group_keys_sorted.
  - exact String.compare_eq_iff.
  - exact string_compare_antisym.
  - exact string_compare_trans.
Qed.

Variable label : Row -> string.

(** The sums of the amounts per label, over the labels of the records
    of a direction, add up to the amounts of that direction. *)
Lemma label_groups_total (d : string) (rows : list Row) :
  let sel := filter (has_direction d) rows in
  total
    (fun name =>
       sum_skipna
         (map (fun r => amount_rwf (tx r))
            (filter (fun r => String.eqb (label r) name) sel)))
    (group_keys String.compare (map label sel))
  = sum_over (amount_if d) rows.
Proof.
  intros sel.
  rewrite <- sum_direction. fold sel.
  rewrite (sum_skipna_fillna (fun r => amount_rwf (tx r)) sel).
  rewrite <- (total_groups String.eqb String.eqb_eq label
                (fun r => fillna 0 (amount_rwf (tx r))) sel
                (group_keys String.compare (map label sel))).
  - apply total_ext. intros name _. apply sum_skipna_filter.
  - apply label_keys_NoDup.
  - intros r Hr. apply (group_keys_In String.compare String.compare_eq_iff).
    apply in_map. exact Hr.
Qed.

End LabelledSums.

Section Breakdown.

Lemma head_all {A : Type} (n : Z) (l : list A) :
  Z.of_nat (List.length l) <= n -> head n l = l.
Proof.
  intros H. unfold head.
  destruct (0 <=? n) eqn:E; [|apply Z.leb_gt in E; lia].
  apply firstn_all2. lia.
Qed.

Lemma top_counterparties_all (self : MoMoAnalyzer) (d : string) (n : Z) :
  Z.of_nat (List.length (filter (has_direction d) (df self))) <= n ->
  total c_amount_rwf (top_counterparties self d n)
  = sum_over (amount_if d) (df self).
Proof.
  intros Hn. unfold top_counterparties.
  set (rows := filter (has_direction d) (df self)) in *.
  set (names := group_keys String.compare (map counterparty_label rows)).
  set (mk := fun name => mkCounterpartyRow name _).
  set (leb := fun a b => c_amount_rwf a <=? c_amount_rwf b).
  pose proof (sort_values_desc_perm leb (map mk names)) as Hperm.
  rewrite head_all.
  - rewrite (total_perm c_amount_rwf _ _ Hperm), total_map.
    exact (label_groups_total counterparty_label d (df self)).
  - rewrite (Permutation_length Hperm), length_map.
    pose proof (group_keys_length String.compare (map counterparty_label rows)) as Hl.
    rewrite length_map in Hl. fold names in Hl. lia.
Qed.

Lemma category_breakdown_total (self : MoMoAnalyzer) (d : string) :
  total g_amount_rwf (category_breakdown self d)
  = sum_over (amount_if d) (df self).
Proof.
  unfold category_breakdown.
  set (rows := filter (has_direction d) (df self)).
  set (names := group_keys String.compare (map (fun r => category (tx r)) rows)).
  set (mk := fun name => mkCategoryRow name _).
  set (leb := fun a b => g_amount_rwf a <=? g_amount_rwf b).
  rewrite (total_perm g_amount_rwf _ _ (sort_values_desc_perm leb (map mk names))).
  rewrite total_map.
  exact (label_groups_total (fun r => category (tx r)) d (df self)).
Qed.

End Breakdown.







(** ** Loading messages *)

Section Loading.

Lemma parse_message_raises (id : Z) (ty sms : string) (e : exn) :
  parse_message id ty sms = Raise e -> e = OverflowError.
Proof.
  intros H. pose proof (parse_message_fields id ty sms) as Hf.
  rewrite H in Hf. exact Hf.
Qed.

Lemma parse_message_head (id : Z) (ty sms : string) (t : ParsedTransaction) :
  parse_message id ty sms = Ok t -> message_of t = (id, ty, sms).
Proof.
  intros H. pose proof (parse_message_fields id ty sms) as Hf.
  rewrite H in Hf. destruct Hf as (<- & <- & <- & _). reflexivity.
Qed.

Lemma parse_all_ok (messages : list (Z * string * string))
    (pts : list ParsedTransaction) :
  parse_all messages = Ok pts ->
  Forall2 (fun m t => parse_message (fst (fst m)) (snd (fst m)) (snd m) = Ok t)
    messages pts.
Proof.
  revert pts. induction messages as [|[[id ty] sms] rest IH]; intros pts H.
  - cbn in H. injection H as <-. constructor.
  - cbn [parse_all] in H.
    destruct (parse_message id ty sms) as [t|e] eqn:E; [|discriminate].
    cbn [Py.bind] in H.
    destruct (parse_all rest) as [ts|e]; [|discriminate].
    cbn [Py.bind] in H. injection H as <-.
    constructor; [exact E|apply IH; reflexivity].
Qed.

Lemma parse_all_raises (messages : list (Z * string * string)) (e : exn) :
  parse_all messages = Raise e <->
  e = OverflowError /\
  exists id ty sms,
    In (id, ty, sms) messages /\ parse_message id ty sms = Raise OverflowError.
Proof.
  revert e. induction messages as [|[[id ty] sms] rest IH]; intros e.
  - cbn. split; [discriminate|]. intros (_ & ? & ? & ? & [] & _).
  - cbn [parse_all].
    destruct (parse_message id ty sms) as [t|e0] eqn:E; cbn [Py.bind].
    + assert (Hrest : match parse_all rest with
                      | Ok v => Ok (t :: v)
                      | Raise e1 => Raise e1
                      end = Raise e <-> parse_all rest = Raise e).
      { destruct (parse_all rest); split; intros H; try discriminate; exact H. }
      rewrite Hrest, IH. split.
      * intros (-> & id' & ty' & sms' & Hin & Hr).
        split; [reflexivity|]. exists id', ty', sms'. split; [right; exact Hin|exact Hr].
      * intros (-> & id' & ty' & sms' & [Heq|Hin] & Hr).
        -- injection Heq as <- <- <-. congruence.
        -- split; [reflexivity|]. exists id', ty', sms'. split; assumption.
    + pose proof (parse_message_raises _ _ _ _ E) as ->. split.
      * intros H. injection H as <-. split; [reflexivity|].
        exists id, ty, sms. split; [left; reflexivity|exact E].
      * intros (-> & _). reflexivity.
Qed.

Lemma derive_tx (t : ParsedTransaction) : tx (derive t) = t.
Proof. reflexivity. Qed.

End Loading.





(** ** The tools *)

Section Rebuild.

Variable to_datetime : string -> result (option datetime).

(** A frame of rows that [__init__] derived is rebuilt as it is. *)
Lemma init_rows (rows : list Row) :
  Forall (fun r => derive (tx r) = r) rows ->
  init (map tx rows) = mkAnalyzer rows.
Proof.
  intros H. unfold init. f_equal. rewrite map_map.
  induction H as [|r rows Hr _ IH]; cbn [map]; [reflexivity|].
  rewrite Hr, IH. reflexivity.
Qed.

Lemma derived_rows (frame : list ParsedTransaction) :
  Forall (fun r => derive (tx r) = r) (df (init frame)).
Proof.
  cbn [init df]. apply Forall_forall. intros r Hr.
  apply in_map_iff in Hr. destruct Hr as (t & <- & _). reflexivity.
Qed.

Lemma derived_filter (p : Row -> bool) (rows : list Row) :
  Forall (fun r => derive (tx r) = r) rows ->
  Forall (fun r => derive (tx r) = r) (filter p rows).
Proof.
  rewrite !Forall_forall. intros H r Hr. apply filter_In in Hr. apply H, Hr.
Qed.

(** What [filter_range] returns, read back. *)
Lemma filter_range_inv (self : MoMoAnalyzer) (start end_ : option string)
    (out : list Row) :
  filter_range to_datetime self start end_ = Ok out ->
  exists lo hi,
    parsed_bound to_datetime start = Ok lo /\
    parsed_bound to_datetime end_ = Ok hi /\
    out = filter (within lo hi) (df self).
Proof.
  intros H.
  assert (Hb : exists lo hi,
             parsed_bound to_datetime start = Ok lo /\
             parsed_bound to_datetime end_ = Ok hi).
  { unfold filter_range, parsed_bound in *.
    destruct (truthy start).
    - destruct (to_datetime (fillna "" start)) as [sd|e]; [|discriminate].
      cbn [Py.bind] in *.
      destruct (truthy end_).
      + destruct (to_datetime (fillna "" end_)) as [ed|e]; [|discriminate].
        eexists _, _. split; reflexivity.
      + eexists _, _. split; reflexivity.
    - cbn [Py.bind] in *.
      destruct (truthy end_).
      + destruct (to_datetime (fillna "" end_)) as [ed|e]; [|discriminate].
        eexists _, _. split; reflexivity.
      + eexists _, _. split; reflexivity. }
  destruct Hb as (lo & hi & Hlo & Hhi). exists lo, hi.
  split; [exact Hlo|]. split; [exact Hhi|].
  rewrite (filter_range_within to_datetime self start end_ lo hi Hlo Hhi) in H.
  injection H as <-. reflexivity.
Qed.

Lemma filter_range_raises (self : MoMoAnalyzer) (start end_ : option string)
    (e : exn) :
  parsed_bound to_datetime start = Raise e \/
  (exists lo, parsed_bound to_datetime start = Ok lo /\
              parsed_bound to_datetime end_ = Raise e) ->
  filter_range to_datetime self start end_ = Raise e.
Proof.
  unfold filter_range, parsed_bound.
  intros [H|(lo & Hlo & H)].
  - destruct (truthy start); [|discriminate].
    destruct (to_datetime (fillna "" start)) as [sd|e0]; [discriminate|].
    cbn [Py.bind] in *. injection H as <-. reflexivity.
  - destruct (truthy end_); [|discriminate].
    destruct (to_datetime (fillna "" end_)) as [ed|e0]; [discriminate|].
    cbn [Py.bind] in H. injection H as <-.
    destruct (truthy start); [|reflexivity].
    destruct (to_datetime (fillna "" start)) as [sd|e1]; [reflexivity|discriminate].
Qed.

Lemma parsed_bound_supplied (b : option string) (v : option (option datetime)) :
  parsed_bound to_datetime b = Ok v -> (truthy b = false <-> v = None).
Proof.
  unfold parsed_bound. destruct (truthy b).
  - destruct (to_datetime (fillna "" b)); [|discriminate].
    intros H. injection H as <-. split; discriminate.
  - intros H. injection H as <-. tauto.
Qed.

Lemma within_unbounded (rows : list Row) :
  filter (within None None) rows = rows.
Proof. apply forallb_filter_id. apply forallb_forall. reflexivity. Qed.

Lemma filter_idem {A : Type} (p : A -> bool) (l : list A) :
  filter p (filter p l) = filter p l.
Proof.
  apply forallb_filter_id. apply forallb_forall.
  intros x Hx. apply filter_In in Hx. apply Hx.
Qed.

End Rebuild.

(** X14.  On an analyzer built from a frame, [get_period_summary] is
    the period summary of the records within the bounds, that of the
    whole ledger when no bound is supplied; a bound that cannot be read
    raises its exception before the period is looked at, and an
    unsupported period raises ValueError once the bounds are read. *)
Theorem get_period_summary_composes :
  forall (to_datetime : string -> result (option datetime))
         (frame : list ParsedTransaction) (period : string)
         (start end_ : option string),
    let analyzer := init frame in
    let call := Tools.get_period_summary to_datetime analyzer period start end_ in
    (forall lo hi,
       parsed_bound to_datetime start = Ok lo ->
       parsed_bound to_datetime end_ = Ok hi ->
       call = period_summary
                (mkAnalyzer (filter (within lo hi) (df analyzer))) period /\
       (~ valid_period period -> call = Raise ValueError)) /\
    (truthy start = false -> truthy end_ = false ->
     call = period_summary analyzer period) /\
    (forall e,
       parsed_bound to_datetime start = Raise e \/
       (exists lo, parsed_bound to_datetime start = Ok lo /\
                   parsed_bound to_datetime end_ = Raise e) ->
       call = Raise e).
Proof.
  intros to_datetime frame period start end_ analyzer call.
  assert (Hread : forall lo hi,
             parsed_bound to_datetime start = Ok lo ->
             parsed_bound to_datetime end_ = Ok hi ->
             call = period_summary
                      (mkAnalyzer (filter (within lo hi) (df analyzer))) period).
  { intros lo hi Hlo Hhi. subst call. unfold Tools.get_period_summary.
    destruct (truthy start || truthy end_) eqn:Eb.
    - rewrite (filter_range_within to_datetime analyzer start end_ lo hi Hlo Hhi).
      cbn [Py.bind]. rewrite init_rows; [reflexivity|].
      apply derived_filter. apply derived_rows.
    - apply orb_false_iff in Eb. destruct Eb as [Es Ee].
      apply (parsed_bound_supplied to_datetime _ _ Hlo) in Es.
      apply (parsed_bound_supplied to_datetime _ _ Hhi) in Ee.
      subst lo hi. rewrite within_unbounded.
      cbn [Py.bind]. unfold transactions.
      rewrite init_rows; [destruct analyzer; reflexivity|].
      apply derived_rows. }
  split; [|split].
  - intros lo hi Hlo Hhi. split; [exact (Hread lo hi Hlo Hhi)|].
    intros Hbad. rewrite (Hread lo hi Hlo Hhi).
    destruct (period_summary_cases
                (mkAnalyzer (filter (within lo hi) (df analyzer))) period)
      as [[Hv _]|[_ E]]; [contradiction|exact E].
  - intros Es Ee.
    assert (Hlo : parsed_bound to_datetime start = Ok None)
      by (unfold parsed_bound; rewrite Es; reflexivity).
    assert (Hhi : parsed_bound to_datetime end_ = Ok None)
      by (unfold parsed_bound; rewrite Ee; reflexivity).
    rewrite (Hread None None Hlo Hhi), within_unbounded.
    destruct analyzer; reflexivity.
  - intros e He. subst call. unfold Tools.get_period_summary.
    assert (Hsup : truthy start || truthy end_ = true).
    { unfold parsed_bound in He.
      destruct (truthy start); [reflexivity|].
      destruct He as [He|(lo & _ & He)]; [discriminate|].
      destruct (truthy end_); [reflexivity|discriminate]. }
    rewrite Hsup, (filter_range_raises to_datetime analyzer start end_ e He).
    reflexivity.
Qed.

(** A bound that is no date, with a period that is none either. *)
Lemma get_period_summary_composes_witness :
  Tools.get_period_summary iso_to_datetime (init [undated]) "day"
    (Some "soon") None
  = Raise ValueError /\
  Tools.get_period_summary iso_to_datetime (init [undated]) "year" None None
  = period_summary (init [undated]) "year".
Proof.
  destruct (get_period_summary_composes iso_to_datetime [undated] "day"
              (Some "soon") None) as (_ & _ & Hraise).
  destruct (get_period_summary_composes iso_to_datetime [undated] "year"
              None None) as (_ & Hnone & _).
  split.
  - apply Hraise. left. reflexivity.
  - apply Hnone; reflexivity.
Defined.

(** X15.  [filter_range] composes: filtering by the start and then, in
    what is left, by the end gives what both bounds give at once, and
    filtering the outcome again by the same bounds changes nothing. *)
Theorem filter_range_composes :
  forall (to_datetime : string -> result (option datetime))
         (self : MoMoAnalyzer) (start end_ : option string) (out : list Row),
    filter_range to_datetime self start end_ = Ok out ->
    filter_range to_datetime (mkAnalyzer out) start end_ = Ok out /\
    exists mid,
      filter_range to_datetime self start None = Ok mid /\
      filter_range to_datetime (mkAnalyzer mid) None end_ = Ok out.
Proof.
  intros to_datetime self start end_ out H.
  destruct (filter_range_inv to_datetime self start end_ out H)
    as (lo & hi & Hlo & Hhi & ->).
  assert (Hnone : parsed_bound to_datetime None = Ok None) by reflexivity.
  split.
  - rewrite (filter_range_within to_datetime _ start end_ lo hi Hlo Hhi).
    cbn [df]. rewrite filter_idem. reflexivity.
  - exists (filter (within lo None) (df self)). split.
    + exact (filter_range_within to_datetime self start None lo None Hlo Hnone).
    + rewrite (filter_range_within to_datetime _ None end_ None hi Hnone Hhi).
      cbn [df]. rewrite filter_filter. f_equal.
      apply filter_ext. intros r. unfold within, not_before, not_after.
      destruct lo, hi; cbn; rewrite ?andb_true_r; reflexivity.
Qed.

(** January 2025 out of a dated and an undated message, filtered twice. *)
Lemma filter_range_composes_witness :
  let jan10 := mkPT 1 "sms_received_from_momo" (Some (mkdt 2025 1 10 14 30 0))
                 "in" "transfer" None None (Some 5000) None None None None None
                 "5000 RWF" in
  filter_range iso_to_datetime (mkAnalyzer [derive jan10])
    (Some "2025-01-01 00:00:00") (Some "2025-01-31 23:59:59")
  = Ok [derive jan10].
Proof.
  intros jan10.
  exact (proj1 (filter_range_composes iso_to_datetime (init [jan10; undated])
                  (Some "2025-01-01 00:00:00") (Some "2025-01-31 23:59:59")
                  [derive jan10] eq_refl)).
Defined.

(** ** Tool dispatch *)

Section Dicts.

Lemma name_eqb_eq (a b : option string) : Agent.name_eqb a b = true <-> a = b.
Proof.
  destruct a as [x|], b as [y|]; cbn; try (split; congruence).
  rewrite String.eqb_eq. split; congruence.
Qed.

Lemma name_eqb_refl (a : option string) : Agent.name_eqb a a = true.
Proof. apply name_eqb_eq. reflexivity. Qed.

(** Reading a dict after an assignment. *)
Lemma dict_find_set {V : Type} (d : list (option string * V))
    (k k' : option string) (v : V) :
  Agent.dict_find Agent.name_eqb (Agent.dict_set Agent.name_eqb d k v) k'
  = if Agent.name_eqb k' k then Some v
    else Agent.dict_find Agent.name_eqb d k'.
Proof.
  induction d as [|[k0 v0] d IH]; cbn.
  - destruct (Agent.name_eqb k' k); reflexivity.
  - destruct (Agent.name_eqb k k0) eqn:E; cbn.
    + apply name_eqb_eq in E. subst k0.
      destruct (Agent.name_eqb k' k); reflexivity.
    + destruct (Agent.name_eqb k' k0) eqn:E'.
      * apply name_eqb_eq in E'. subst k0.
        destruct (Agent.name_eqb k' k) eqn:E''; [|reflexivity].
        apply name_eqb_eq in E''. subst k'.
        rewrite name_eqb_refl in E. discriminate.
      * exact IH.
Qed.

(** Of several schemas with one name the last one decides. *)
Lemma allowed_args_last (schemas : list Agent.Schema) (fn : string) :
  fillna []
    (Agent.dict_find Agent.name_eqb (Agent._allowed_args_from_schema schemas)
       (Some fn))
  = Agent.schema_properties schemas fn.
Proof.
  unfold Agent._allowed_args_from_schema, Agent.schema_properties.
  rewrite <- fold_left_rev_right.
  induction (rev schemas) as [|t l IH]; [reflexivity|].
  cbn [fold_right find]. rewrite dict_find_set.
  destruct (Agent.name_eqb (Some fn) (Agent.s_name t)); [reflexivity|exact IH].
Qed.

End Dicts.

(** X16.  [_safe_tool_call] reports a name that is no tool as unknown
    and calls no tool; a tool is called with those of the given
    arguments, in their order, that the last schema of its name lists
    as properties (none when there is no such schema), and what the
    tool returns or raises comes back with these arguments. *)
Theorem safe_tool_call_schema_args :
  forall (V D : Type)
         (tools_py : list (string * (list (string * V) -> result D)))
         (schemas : list Agent.Schema) (fn : string)
         (args : option (list (string * V))),
    let out := Agent._safe_tool_call tools_py
                 (Agent._allowed_args_from_schema schemas) fn args in
    let safe_args :=
      filter (fun kv => existsb (String.eqb (fst kv))
                          (Agent.schema_properties schemas fn))
        (fillna [] args) in
    match Agent.dict_find String.eqb tools_py fn with
    | None => out = Agent.UnknownTool fn
    | Some tool =>
        out = match tool safe_args with
              | Ok data => Agent.Data data safe_args
              | Raise e => Agent.Error e safe_args
              end /\
        (forall k v,
           In (k, v) safe_args <->
           In (k, v) (fillna [] args) /\
           In k (Agent.schema_properties schemas fn))
    end.
Proof.
  intros V D tools_py schemas fn args out safe_args.
  subst out. unfold Agent._safe_tool_call.
  destruct (Agent.dict_find String.eqb tools_py fn) as [tool|]; [|reflexivity].
  rewrite allowed_args_last. fold safe_args.
  split; [reflexivity|].
  intros k v. subst safe_args. rewrite filter_In. cbn [fst].
  rewrite existsb_exists. split.
  - intros (Hin & x & Hx & E). apply String.eqb_eq in E. subst x. tauto.
  - intros (Hin & Hk). split; [exact Hin|].
    exists k. split; [exact Hk|apply String.eqb_refl].
Qed.

(** A tool that hands its arguments back, asked for the top
    counterparties with an argument the schema does not list. *)
Lemma safe_tool_call_schema_args_witness :
  Agent._safe_tool_call [("get_top_spend_counterparties", fun kw => Ok kw)]
    (Agent._allowed_args_from_schema Agent._tool_schemas)
    "get_top_spend_counterparties" (Some [("n", 3); ("verbose", 1)])
  = Agent.Data [("n", 3)] [("n", 3)].
Proof.
  exact (proj1 (safe_tool_call_schema_args Z (list (string * Z))
                  [("get_top_spend_counterparties", fun kw => Ok kw)]
                  Agent._tool_schemas "get_top_spend_counterparties"
                  (Some [("n", 3); ("verbose", 1)]))).
Defined.

(** ** Timestamps *)

Section Stamps.

Lemma digit_char_facts (d : Z) :
  0 <= d <= 9 ->
  Str.is_digit (digit_char d) = true /\
  Str.is_space (digit_char d) = false /\
  Z.of_N (Str.code (digit_char d)) - 48 = d.
Proof.
  intros H.
  assert (Hd : d = 0 \/ d = 1 \/ d = 2 \/ d = 3 \/ d = 4 \/
               d = 5 \/ d = 6 \/ d = 7 \/ d = 8 \/ d = 9) by lia.
  repeat (destruct Hd as [->|Hd]; [repeat split; reflexivity|]).
  subst d. repeat split; reflexivity.
Qed.

Lemma pad2_digits (n : Z) :
  0 <= n < 100 ->
  exists a b,
    pad 2 n = String (digit_char a) (String (digit_char b) "") /\
    0 <= a <= 9 /\ 0 <= b <= 9 /\ 10 * a + b = n.
Proof.
  intros H. exists (n / 10 mod 10), (n mod 10).
  split; [reflexivity|]. repeat split;
    try (apply Z.mod_pos_bound; lia);
    try (pose proof (Z.mod_pos_bound n 10 ltac:(lia));
         pose proof (Z.mod_pos_bound (n / 10) 10 ltac:(lia)); lia).
  Z.div_mod_to_equations. lia.
Qed.

Lemma pad4_digits (n : Z) :
  0 <= n < 10000 ->
  exists a b c d,
    pad 4 n = String (digit_char a) (String (digit_char b)
                (String (digit_char c) (String (digit_char d) ""))) /\
    0 <= a <= 9 /\ 0 <= b <= 9 /\ 0 <= c <= 9 /\ 0 <= d <= 9 /\
    1000 * a + 100 * b + 10 * c + d = n.
Proof.
  intros H.
  exists (n / 10 / 10 / 10 mod 10), (n / 10 / 10 mod 10),
         (n / 10 mod 10), (n mod 10).
  split; [reflexivity|].
  pose proof (Z.mod_pos_bound n 10 ltac:(lia)).
  pose proof (Z.mod_pos_bound (n / 10) 10 ltac:(lia)).
  pose proof (Z.mod_pos_bound (n / 10 / 10) 10 ltac:(lia)).
  pose proof (Z.mod_pos_bound (n / 10 / 10 / 10) 10 ltac:(lia)).
  repeat split; try lia.
  Z.div_mod_to_equations. lia.
Qed.


Lemma star_loop_stop {R : Type}
    (step : option ascii -> string -> option string -> Re.cont R -> option R)
    (k : Re.cont R) (fuel : nat) (prev : option ascii) (s : string)
    (g : option string) :
  (forall k', step prev s g k' = None) ->
  Re.star_loop step k (S fuel) prev s g = k prev s g.
Proof. intros H. cbn [Re.star_loop]. rewrite H. reflexivity. Qed.

Lemma match_at_stamp (y1 y2 y3 y4 m1 m2 d1 d2 h1 h2 i1 i2 s1 s2 : ascii)
    (prev : option ascii) (post : string) :
  Forall (fun c => Str.is_digit c = true)
    [y1; y2; y3; y4; m1; m2; d1; d2; h1; h2; i1; i2; s1; s2] ->
  Str.is_space h1 = false ->
  Re.match_at _DATETIME_RE prev
    (stamp_text y1 y2 y3 y4 m1 m2 d1 d2 h1 h2 i1 i2 s1 s2 ++ post)
  = Some (Re.mkMatch
            (Some (stamp_text y1 y2 y3 y4 m1 m2 d1 d2 h1 h2 i1 i2 s1 s2))).
Proof.
  intros Hd Hsp.
  repeat match goal with
         | H : Forall _ (_ :: _) |- _ =>
             let Hc := fresh "Hc" in
             apply Forall_cons_iff in H; destruct H as [Hc H]
         end.
  pose proof (consumed_prefix
                (stamp_text y1 y2 y3 y4 m1 m2 d1 d2 h1 h2 i1 i2 s1 s2) post)
    as Hgroup.
  unfold Re.match_at, stamp_text in *.
  cbn [Re.expr Re.ignorecase _DATETIME_RE Re.Seq Re.Rep Re.Plus digit space
       Re.run String.append].
  rewrite Hc, Hc0, Hc1, Hc2.
  change (Re.lit_matches false "-" "-") with true. cbv iota.
  rewrite Hc3, Hc4. change (Re.lit_matches false "-" "-") with true. cbv iota.
  rewrite Hc5, Hc6.
  change (Str.is_space " ") with true. cbv iota.
  cbn [String.length].
  rewrite star_loop_stop by (intros k'; cbv beta iota; rewrite Hsp; reflexivity).
  cbv beta iota. rewrite Hc7, Hc8. change (Re.lit_matches false ":" ":") with true. cbv iota.
  rewrite Hc9, Hc10. change (Re.lit_matches false ":" ":") with true. cbv iota.
  rewrite Hc11, Hc12.
  unfold Re.finish. f_equal. f_equal. f_equal. exact Hgroup.
Qed.

Lemma match_at_datetime_not_digit (prev : option ascii) (c : ascii) (s : string) :
  Str.is_digit c = false ->
  Re.match_at _DATETIME_RE prev (String c s) = None.
Proof.
  intros Hc. unfold Re.match_at.
  cbn [Re.expr Re.ignorecase _DATETIME_RE Re.Seq Re.Rep digit Re.run].
  rewrite Hc. reflexivity.
Qed.

Lemma search_datetime_skips (pre s : string) (m : Re.Match) :
  digit_free pre = true ->
  (forall prev, Re.match_at _DATETIME_RE prev s = Some m) ->
  forall prev, Re.search_from _DATETIME_RE prev (pre ++ s) = Some m.
Proof.
  intros Hfree Hm. induction pre as [|c pre IH]; intros prev.
  - cbn [String.append]. destruct s; cbn [Re.search_from]; rewrite Hm; reflexivity.
  - unfold digit_free in Hfree. cbn in Hfree.
    apply andb_true_iff in Hfree. destruct Hfree as [Hc Hrest].
    apply negb_true_iff in Hc.
    cbn [String.append Re.search_from].
    rewrite (match_at_datetime_not_digit prev c _ Hc).
    apply IH. exact Hrest.
Qed.

Lemma digit_runs_digit (c : ascii) (rest : string) (cur : option Z) :
  Str.is_digit c = true ->
  digit_runs (String c rest) cur
  = digit_runs rest (Some (10 * fillna 0 cur + (Z.of_N (Str.code c) - 48))).
Proof. intros H. cbn [digit_runs]. rewrite H. reflexivity. Qed.

Lemma digit_runs_sep (c : ascii) (rest : string) (v : Z) :
  Str.is_digit c = false ->
  digit_runs (String c rest) (Some v) = v :: digit_runs rest None.
Proof. intros H. cbn [digit_runs]. rewrite H. reflexivity. Qed.

Lemma digit_runs_stamp (y1 y2 y3 y4 m1 m2 d1 d2 h1 h2 i1 i2 s1 s2 : Z) :
  Forall (fun d => 0 <= d <= 9)
    [y1; y2; y3; y4; m1; m2; d1; d2; h1; h2; i1; i2; s1; s2] ->
  digit_runs
    (stamp_text (digit_char y1) (digit_char y2) (digit_char y3) (digit_char y4)
       (digit_char m1) (digit_char m2) (digit_char d1) (digit_char d2)
       (digit_char h1) (digit_char h2) (digit_char i1) (digit_char i2)
       (digit_char s1) (digit_char s2)) None
  = [1000 * y1 + 100 * y2 + 10 * y3 + y4; 10 * m1 + m2; 10 * d1 + d2;
     10 * h1 + h2; 10 * i1 + i2; 10 * s1 + s2].
Proof.
  intros Hd.
  repeat match goal with
         | H : Forall _ (_ :: _) |- _ =>
             let Hc := fresh "Hc" in
             apply Forall_cons_iff in H; destruct H as [Hc H];
             apply digit_char_facts in Hc; destruct Hc as (? & _ & ?)
         end.
  unfold stamp_text.
  repeat first [ rewrite digit_runs_digit by assumption
               | rewrite digit_runs_sep by reflexivity ].
  cbn [digit_runs fillna].
  repeat match goal with
         | H : Z.of_N _ - 48 = _ |- _ => rewrite H; clear H
         end.
  repeat match goal with
         | |- _ :: _ = _ :: _ => apply (f_equal2 (@cons Z)); [lia|]
         end.
  reflexivity.
Qed.

End Stamps.

(** X17.  [_parse_datetime] reads back a date-time written as
    YYYY-MM-DD HH:MM:SS: whatever follows it, and after any text
    without digits, the text of a valid date-time gives that
    date-time. *)
Theorem parse_datetime_reads_stamp :
  forall (t : datetime) (pre post : string),
    valid_datetime t = true ->
    digit_free pre = true ->
    _parse_datetime (pre ++ stamp t ++ post) = Some t.
Proof.
  intros [y mo d h mi se] pre post Hv Hfree.
  pose proof Hv as Hv'. unfold valid_datetime in Hv'.
  cbn [dt_year dt_month dt_day dt_hour dt_minute dt_second] in Hv'.
  rewrite !andb_true_iff, !Z.leb_le, !Z.ltb_lt in Hv'.
  assert (Hday : days_in_month y mo <= 31).
  { unfold days_in_month.
    destruct (mo =? 2); [destruct (is_leap y); lia|].
    destruct ((mo =? 4) || (mo =? 6) || (mo =? 9) || (mo =? 11)); lia. }
  destruct (pad4_digits y ltac:(lia))
    as (y1 & y2 & y3 & y4 & Ey & ? & ? & ? & ? & Hy).
  destruct (pad2_digits mo ltac:(lia)) as (m1 & m2 & Em & ? & ? & Hmo).
  destruct (pad2_digits d ltac:(lia)) as (d1 & d2 & Ed & ? & ? & Hd).
  destruct (pad2_digits h ltac:(lia)) as (h1 & h2 & Eh & ? & ? & Hh).
  destruct (pad2_digits mi ltac:(lia)) as (i1 & i2 & Ei & ? & ? & Hmi).
  destruct (pad2_digits se ltac:(lia)) as (s1 & s2 & Es & ? & ? & Hse).
  assert (Estamp : stamp (mkdt y mo d h mi se)
                   = stamp_text (digit_char y1) (digit_char y2) (digit_char y3)
                       (digit_char y4) (digit_char m1) (digit_char m2)
                       (digit_char d1) (digit_char d2) (digit_char h1)
                       (digit_char h2) (digit_char i1) (digit_char i2)
                       (digit_char s1) (digit_char s2)).
  { unfold stamp, fmt_date.
    cbn [dt_year dt_month dt_day dt_hour dt_minute dt_second].
    rewrite Ey, Em, Ed, Eh, Ei, Es. reflexivity. }
  assert (Hdigits : Forall (fun d => 0 <= d <= 9)
                      [y1; y2; y3; y4; m1; m2; d1; d2; h1; h2; i1; i2; s1; s2])
    by (repeat (apply Forall_cons; [assumption|]); apply Forall_nil).
  assert (Hchars : Forall (fun c => Str.is_digit c = true)
                     (map digit_char
                        [y1; y2; y3; y4; m1; m2; d1; d2; h1; h2; i1; i2; s1; s2])).
  { apply Forall_map. eapply Forall_impl; [|exact Hdigits].
    intros a Ha. exact (proj1 (digit_char_facts a Ha)). }
  unfold _parse_datetime, Re.search.
  rewrite (search_datetime_skips pre (stamp (mkdt y mo d h mi se) ++ post)
             (Re.mkMatch (Some (stamp (mkdt y mo d h mi se)))) Hfree).
  - cbn [Re.group]. unfold dtparser_parse.
    rewrite Estamp, (digit_runs_stamp _ _ _ _ _ _ _ _ _ _ _ _ _ _ Hdigits).
    rewrite Hy, Hmo, Hd, Hh, Hmi, Hse, Hv. reflexivity.
  - intros prev. rewrite Estamp. apply match_at_stamp; [exact Hchars|].
    apply digit_char_facts. assumption.
Qed.

(** The timestamp of scenario A. *)
Lemma parse_datetime_reads_stamp_witness :
  _parse_datetime
    ("at " ++ stamp (mkdt 2025 1 10 14 30 0) ++ ". TxId: 99001.")
  = Some (mkdt 2025 1 10 14 30 0).
Proof.
  exact (parse_datetime_reads_stamp (mkdt 2025 1 10 14 30 0) "at "
           ". TxId: 99001." eq_refl eq_refl).
Defined.

(** ** Outcome of the parser *)

(** X18.  [parse_message] lets no exception but OverflowError out, and
    a record it returns carries the identifier, the type tag and the
    body it was given, a direction among in, out and unknown, a
    category among transfer, merchant, utilities, cash and other
    (unknown and other for a type tag the table does not list) and, when
    it has a timestamp, one that is a date-time of the calendar. *)
Theorem parse_message_outcome :
  forall (id : Z) (ty sms : string),
    (forall e, parse_message id ty sms = Raise e -> e = OverflowError) /\
    (forall r, parse_message id ty sms = Ok r ->
       msg_id r = id /\ raw_type r = ty /\ raw_sms r = sms /\
       In (direction r) ["in"; "out"; "unknown"] /\
       In (category r) ["transfer"; "merchant"; "utilities"; "cash"; "other"] /\
       (~ In ty (map fst TYPE_MAP) ->
        direction r = "unknown" /\ category r = "other") /\
       (forall ts, timestamp r = Some ts -> valid_datetime ts = true)).
Proof.
  intros id ty sms. pose proof (parse_message_fields id ty sms) as H.
  split.
  - intros e E. rewrite E in H. exact H.
  - intros r E. rewrite E in H. exact H.
Qed.

(** A type tag the table does not list. *)
Lemma parse_message_outcome_witness :
  exists r,
    parse_message 7 "sms_airtime" scenario_a_sms = Ok r /\
    direction r = "unknown" /\ category r = "other".
Proof.
  eexists. split; [vm_compute; reflexivity|].
  apply (proj2 (parse_message_outcome 7 "sms_airtime" scenario_a_sms) _
           ltac:(vm_compute; reflexivity)).
  cbn. intros H. repeat (destruct H as [H|H]; [discriminate H|]). exact H.
Defined.

(** ** Decimal amounts *)

Section DecimalAmounts.

Lemma floor_log2_ratio_lt (p q k : Z) :
  0 < p -> 0 < q -> 0 <= k -> p < q * 2 ^ k ->
  Num.floor_log2_ratio p q < k.
Proof.
  intros Hp Hq Hk Hlt. unfold Num.floor_log2_ratio.
  set (d := Z.log2 p - Z.log2 q).
  assert (Hd : d <= k).
  { assert (Z.log2 p <= Z.log2 (q * 2 ^ k)) by (apply Z.log2_le_mono; lia).
    rewrite Z.log2_mul_pow2 in H by lia. subst d. lia. }
  destruct (0 <=? d) eqn:Ed.
  - destruct (q * 2 ^ d <=? p) eqn:Ea; [|lia].
    apply Z.leb_le in Ea.
    destruct (Z.eq_dec d k) as [E|E]; [|lia].
    rewrite E in Ea. lia.
  - apply Z.leb_gt in Ed. destruct (q <=? _); lia.
Qed.

(** A ratio between two whole numbers next to each other, the upper
    one at most 2^53, is rounded and truncated to one of the two. *)
Lemma round_between (p q n : Z) :
  0 < q -> 0 <= n -> n * q <= p < (n + 1) * q -> n + 1 <= 2 ^ 53 ->
  exists r, Num.py_int (Num.round_binary64 p q) = Ok r /\ n <= r <= n + 1.
Proof.
  intros Hq Hn [Hlo Hhi] Hbig. unfold Num.round_binary64.
  destruct (p =? 0) eqn:E0.
  - apply Z.eqb_eq in E0. subst p. exists 0. split; [reflexivity|nia].
  - apply Z.eqb_neq in E0.
    assert (Hp : 0 < p) by nia.
    assert (Hfl : Num.floor_log2_ratio p q < 53).
    { apply floor_log2_ratio_lt; [exact Hp|exact Hq|lia|]. nia. }
    set (e := Z.max (Num.floor_log2_ratio p q - 52) (-1074)).
    assert (He : e <= 0) by (subst e; lia).
    clearbody e.
    destruct (0 <=? e) eqn:Ee.
    + apply Z.leb_le in Ee. assert (e = 0) by lia. subst e.
      change (2 ^ 0) with 1. rewrite !Z.mul_1_r.
      set (m := p / q).
      assert (Hm : m = n).
      { subst m. apply Z.le_antisymm.
        - apply Z.lt_succ_r. apply Z.div_lt_upper_bound; lia.
        - apply Z.div_le_lower_bound; lia. }
      set (m' := if 2 * (p mod q) <? q then m
                 else if q <? 2 * (p mod q) then m + 1
                 else if Z.even m then m else m + 1).
      assert (Hm' : m <= m' <= m + 1)
        by (subst m'; repeat destruct (_ <? _); try destruct (Z.even _); lia).
      assert (Hov : (2 ^ 1024 <=? m') = false).
      { apply Z.leb_gt.
        assert (2 ^ 53 < 2 ^ 1024) by (vm_compute; reflexivity). lia. }
      rewrite Hov. cbn [andb Num.py_int].
      change (0 <=? 0) with true. cbv iota.
      exists (m' * 2 ^ 0). split; [reflexivity|].
      change (2 ^ 0) with 1. lia.
    + apply Z.leb_gt in Ee. cbn [andb Num.py_int]. rewrite (proj2 (Z.leb_gt 0 e) Ee).
      set (s := 2 ^ (- e)).
      assert (Hs : 0 < s) by (subst s; apply Z.pow_pos_nonneg; lia).
      clearbody s.
      set (m := p * s / q).
      assert (Hmlo : n * s <= m).
      { subst m. apply Z.div_le_lower_bound; [exact Hq|]. nia. }
      assert (Hmhi : m < (n + 1) * s).
      { subst m. apply Z.div_lt_upper_bound; [exact Hq|]. nia. }
      set (m' := if 2 * (p * s mod q) <? q then m
                 else if q <? 2 * (p * s mod q) then m + 1
                 else if Z.even m then m else m + 1).
      assert (Hm' : m <= m' <= m + 1)
        by (subst m'; repeat destruct (_ <? _); try destruct (Z.even _); lia).
      exists (m' / s). split; [reflexivity|]. split.
      * apply Z.div_le_lower_bound; [exact Hs|]. lia.
      * apply Z.div_le_upper_bound; [exact Hs|]. lia.
Qed.

End DecimalAmounts.

(** X19.  A number with a decimal part is cut down to a whole number:
    for digits with thousands separators that write a whole number n
    below 2^53 - 1, followed by a point and further digits, [_to_int]
    returns n or, when [float] rounds the decimal part up to the next
    whole number, n + 1. *)
Theorem _to_int_truncates_decimals :
  forall (d : ascii) (u v : string),
    Str.is_digit d = true ->
    all_chars digit_or_comma u = true ->
    all_chars Str.is_digit v = true ->
    decimal_value 0 (String d u) + 1 <= 2 ^ 53 ->
    exists r,
      _to_int (Some (String d u ++ "." ++ v)%string) = Ok (Some r) /\
      decimal_value 0 (String d u) <= r <= decimal_value 0 (String d u) + 1.
Proof.
  intros d u v Hd Hu Hv Hbig.
  set (n := decimal_value 0 (String d u)) in *.
  assert (Hall : all_chars digit_or_comma (String d u) = true).
  { cbn [all_chars]. rewrite Hu. unfold digit_or_comma. rewrite Hd. reflexivity. }
  pose proof (decimal_value_nonneg _ Hall 0 ltac:(lia)) as Hge. fold n in Hge.
  destruct (read_digits_decimal_value _ Hall 0 0%nat) as (k & Hk & _).
  fold n in Hk.
  assert (Hk1 : (1 <= k)%nat).
  { cbn [Str.remove_char] in Hk. rewrite (digit_not_comma d Hd) in Hk.
    cbn [Num.read_digits] in Hk. rewrite Hd in Hk.
    apply read_digits_bounds in Hk;
      [|pose proof (digit_value_range d Hd); lia].
    destruct Hk as (-> & _). lia. }
  assert (Hdigits : all_chars Str.is_digit (Str.remove_char "," (String d u)) = true)
    by (apply remove_comma_digits; exact Hall).
  destruct (read_digits_all v Hv n 0%nat) as (w & Hw).
  pose proof (read_digits_bounds v n 0%nat w _ Hge Hw) as (_ & _ & Hrange).
  assert (Hq : 0 < 10 ^ Z.of_nat (String.length v))
    by (apply Z.pow_pos_nonneg; lia).
  destruct (round_between w (10 ^ Z.of_nat (String.length v)) n Hq Hge Hrange Hbig)
    as (r & Hr & Hbounds).
  exists r. split; [|exact Hbounds].
  unfold _to_int. change (truthy (Some (String d u ++ "." ++ v)%string)) with true.
  cbn [negb fillna]. unfold Num.py_float.
  rewrite remove_char_app.
  change (Str.remove_char "," ("." ++ v)%string)
    with (String "." (Str.remove_char "," v)).
  rewrite (remove_comma_id v Hv), (split_dot_digits _ _ Hdigits).
  change (Num.split_dot (String "." v)) with (EmptyString, Some v).
  cbn [fst snd]. rewrite append_nil_r, Hk, Hw.
  destruct k as [|k]; [lia|]. cbn [Nat.add Nat.eqb].
  rewrite Hr. reflexivity.
Qed.

(** Twelve and three quarters, and a decimal part that rounds up. *)
Lemma _to_int_truncates_decimals_witness :
  (exists r, _to_int (Some "12.75") = Ok (Some r) /\ 12 <= r <= 13) /\
  _to_int (Some "0.99999999999999999") = Ok (Some 1).
Proof.
  split.
  - exact (_to_int_truncates_decimals "1" "2" "75" eq_refl eq_refl eq_refl
             ltac:(vm_compute; discriminate)).
  - vm_compute. reflexivity.
Defined.
